(** * cargo_avto_update: the pricing pipeline of [cargo_avto_uppdate.go]

    A shallow embedding of the Go program and the properties of its
    specification.  Go's [int] is the 64-bit two's complement integer,
    [float64] is IEEE 754 binary64 (the kernel's primitive floats, specified
    by [SpecFloat]), a [string] is a sequence of bytes, and a [map] is a
    finite map.  Floating-point operations are rounded one by one (no fused
    multiply-add), as the Go compiler does on amd64. *)

From Stdlib Require Import ZArith Lia Bool List String Ascii Floats.
From Stdlib Require Import Decimal DecimalString DecimalPos DecimalZ.
From stdpp Require Import base option list strings gmap.

Set Warnings "-inexact-float".
#[local] Open Scope Z_scope.

(** ** Go's [int]: 64-bit integers that wrap around *)

Module GoInt.

Definition int_min : Z := - 2 ^ 63.
Definition int_max : Z := 2 ^ 63 - 1.

Definition in_range (z : Z) : bool := (int_min <=? z) && (z <=? int_max).

(** The value of a mathematical integer once stored in an [int]. *)
Definition wrap (z : Z) : Z := (z + 2 ^ 63) mod 2 ^ 64 - 2 ^ 63.

Definition add (a b : Z) : Z := wrap (a + b).
Definition mul (a b : Z) : Z := wrap (a * b).

End GoInt.

(** ** Go's [float64] and the [math] functions the program calls *)

Module GoFloat.

(** [float64(n)] for an [int] [n]: the nearest binary64, ties to even. *)
Definition float64_of_int (z : Z) : float :=
  SF2Prim (binary_normalize prec emax z 0 false).

(** The integer part of a finite float (rounding toward zero). *)
Definition trunc_SF (x : spec_float) : option Z :=
  match x with
  | S754_zero _ => Some 0
  | S754_finite s m e => Some (cond_Zopp s (Z.shiftl (Zpos m) e))
  | S754_infinity _ | S754_nan => None
  end.

(** Whether [int(f)] is defined by the language: [f] is finite and its
    integer part fits an [int]. *)
Definition int_representable (f : float) : bool :=
  match trunc_SF (Prim2SF f) with
  | Some z => GoInt.in_range z
  | None => false
  end.

(** [int(f)].  When the value is not representable the language leaves the
    result to the implementation; amd64's conversion instruction yields the
    smallest [int]. *)
Definition int_of_float64 (f : float) : Z :=
  match trunc_SF (Prim2SF f) with
  | Some z => if GoInt.in_range z then z else GoInt.int_min
  | None => GoInt.int_min
  end.

Definition signed_zero (s : bool) : float := if s then PrimFloat.neg_zero else PrimFloat.zero.

(** [math.Ceil]: the least integer value not below [f]; zeros, infinities
    and NaN are returned as they are, and a result of zero keeps the sign. *)
Definition Ceil (f : float) : float :=
  match Prim2SF f with
  | S754_finite s m e =>
      if 0 <=? e then f
      else
        let c := if s then - (Zpos m / 2 ^ (- e)) else - ((- Zpos m) / 2 ^ (- e)) in
        if c =? 0 then signed_zero s else float64_of_int c
  | _ => f
  end.

(** [math.Round]: the nearest integer, halves away from zero. *)
Definition Round (f : float) : float :=
  match Prim2SF f with
  | S754_finite s m e =>
      if 0 <=? e then f
      else
        let n := (Zpos m + 2 ^ (- e - 1)) / 2 ^ (- e) in
        if n =? 0 then signed_zero s else float64_of_int (cond_Zopp s n)
  | _ => f
  end.

Definition is_finite (f : float) : bool :=
  match Prim2SF f with
  | S754_zero _ | S754_finite _ _ _ => true
  | S754_infinity _ | S754_nan => false
  end.

End GoFloat.

(** ** The [strings], [strconv] and [fmt] functions the program calls *)

Module GoStr.

#[local] Open Scope string_scope.

(** [strings.Split(s, sep)] for a one-byte separator: the substrings between
    the occurrences of [sep]; a string without [sep] is returned whole. *)
Fixpoint Split (s : string) (sep : ascii) : list string :=
  match s with
  | EmptyString => [EmptyString]
  | String c s' =>
      if Ascii.eqb c sep then EmptyString :: Split s' sep
      else
        match Split s' sep with
        | p :: ps => String c p :: ps
        | [] => [String c EmptyString]
        end
  end.

(** [strconv.Atoi]: an optional sign and at least one decimal digit, nothing
    else; a value that does not fit an [int] is an error. *)
Definition Atoi (s : string) : option Z :=
  match s with
  | EmptyString => None
  | String c rest =>
      let neg := Ascii.eqb c "-" in
      let body := if neg || Ascii.eqb c "+"%char then rest else s in
      match NilZero.uint_of_string body with
      | Some d =>
          let v := if neg then - Z.of_uint d else Z.of_uint d in
          if GoInt.in_range v then Some v else None
      | None => None
      end
  end.

(** [fmt.Sprintf("%d", n)]. *)
Definition Sprintf_d (n : Z) : string := NilZero.string_of_int (Z.to_int n).

End GoStr.

(** ** The fragment of [regexp] the vendor-code patterns are written in

    [regexp.MustCompile] and the [MatchString] method on the fragment of the
    RE2 syntax made of ASCII literals, the classes [\d], [\w] and [\s],
    escaped punctuation, the anchors [^] and [$] (begin and end of text: no
    flag is set), each literal or class followed by at most one of [*], [+]
    and [?].  [Compile] answers [None] on a pattern outside the fragment. *)

Module Regexp.

Inductive atom := ALit (c : ascii) | ADigit | AWord | ASpace.
Inductive quant := QOne | QStar | QPlus | QOpt.
Inductive item := IBegin | IEnd | IRep (a : atom) (q : quant).
Definition t := list item.

Inductive token := TAtom (a : atom) | TBegin | TEnd | TQuant (q : quant).

Definition code (c : ascii) : Z := Z.of_N (N_of_ascii c).

Definition is_digit (c : ascii) : bool := (48 <=? code c) && (code c <=? 57).
Definition is_alpha (c : ascii) : bool :=
  ((65 <=? code c) && (code c <=? 90)) || ((97 <=? code c) && (code c <=? 122)).
Definition is_word (c : ascii) : bool := is_digit c || is_alpha c || Ascii.eqb c "_"%char.
Definition is_space (c : ascii) : bool :=
  (code c =? 9) || (code c =? 10) || (code c =? 12) || (code c =? 13) || (code c =? 32).
Definition is_punct (c : ascii) : bool :=
  (33 <=? code c) && (code c <=? 126) && negb (is_digit c || is_alpha c).
Definition is_meta (c : ascii) : bool :=
  existsb (Ascii.eqb c) (list_ascii_of_string ".()[]{}|\").

Fixpoint tokens (p : string) : option (list token) :=
  match p with
  | EmptyString => Some []
  | String "\"%char EmptyString => None
  | String "\"%char (String c rest) =>
      let a :=
        if Ascii.eqb c "d"%char then Some ADigit
        else if Ascii.eqb c "w"%char then Some AWord
        else if Ascii.eqb c "s"%char then Some ASpace
        else if is_punct c then Some (ALit c)
        else None in
      match a, tokens rest with
      | Some a, Some ts => Some (TAtom a :: ts)
      | _, _ => None
      end
  | String c rest =>
      let tk :=
        if Ascii.eqb c "^"%char then Some TBegin
        else if Ascii.eqb c "$"%char then Some TEnd
        else if Ascii.eqb c "*"%char then Some (TQuant QStar)
        else if Ascii.eqb c "+"%char then Some (TQuant QPlus)
        else if Ascii.eqb c "?"%char then Some (TQuant QOpt)
        else if is_meta c || (128 <=? code c) then None
        else Some (TAtom (ALit c)) in
      match tk, tokens rest with
      | Some tk, Some ts => Some (tk :: ts)
      | _, _ => None
      end
  end.

Definition starts_with_quant (ts : list token) : bool :=
  match ts with TQuant _ :: _ => true | _ => false end.

Fixpoint items (ts : list token) : option t :=
  match ts with
  | [] => Some []
  | TQuant _ :: _ => None
  | TAtom a :: TQuant q :: rest =>
      if starts_with_quant rest then None
      else option_map (cons (IRep a q)) (items rest)
  | TAtom a :: rest => option_map (cons (IRep a QOne)) (items rest)
  | TBegin :: rest =>
      if starts_with_quant rest then None else option_map (cons IBegin) (items rest)
  | TEnd :: rest =>
      if starts_with_quant rest then None else option_map (cons IEnd) (items rest)
  end.

Definition Compile (p : string) : option t :=
  match tokens p with
  | Some ts => items ts
  | None => None
  end.

Definition atom_matches (a : atom) (c : ascii) : bool :=
  match a with
  | ALit c' => Ascii.eqb c c'
  | ADigit => is_digit c
  | AWord => is_word c
  | ASpace => is_space c
  end.

(** Whether [r] matches a prefix of [s]; [bot] tells whether [s] starts at
    the beginning of the text. *)
Fixpoint match_here (r : t) : string -> bool -> bool :=
  match r with
  | [] => fun _ _ => true
  | IBegin :: r' => fun s bot => bot && match_here r' s bot
  | IEnd :: r' =>
      fun s bot => match s with EmptyString => match_here r' s bot | _ => false end
  | IRep a q :: r' =>
      let one (k : string -> bool -> bool) (s : string) :=
        match s with
        | String c s' => atom_matches a c && k s' false
        | EmptyString => false
        end in
      let star :=
        fix star (s : string) (bot : bool) {struct s} : bool :=
          match_here r' s bot
          || match s with
             | String c s' => atom_matches a c && star s' false
             | EmptyString => false
             end in
      match q with
      | QOne => fun s _ => one (match_here r') s
      | QOpt => fun s bot => match_here r' s bot || one (match_here r') s
      | QStar => star
      | QPlus => fun s _ => one star s
      end
  end.

Fixpoint match_later (r : t) (s : string) : bool :=
  match s with
  | EmptyString => false
  | String _ s' => match_here r s' false || match_later r s'
  end.

(** [re.MatchString(s)]: whether [s] contains a match of [re]. *)
Definition MatchString (re : t) (s : string) : bool :=
  match_here re s true || match_later re s.

End Regexp.

(** ** Data model (the JSON shapes and [Config]) *)

Record Config := {
  ObjectIDs : list Z;
  DesiredMargin : float;
  TaxRate : float;
  Delivery : Z;
  PVZ : Z;
  DBName : string;
  VendorCodePattern : string;
  UsePcs : bool
}.

Record Dimensions := {
  Width : Z;
  Height : Z;
  Length : Z;
  IsValid : bool
}.

Record ProductSize := { SKUs : list string }.

Record Card := {
  Card_NmID : Z;
  Card_VendorCode : string;
  Card_Title : string;
  Card_UpdatedAt : string;
  Card_Dimensions : Dimensions;
  Card_Sizes : list ProductSize
}.

Record Cursor := {
  Cursor_UpdatedAt : string;
  Cursor_NmID : Z;
  Cursor_Total : Z
}.

Record CardsListResponse := {
  Cards : list Card;
  Response_Cursor : Cursor
}.

Record Size := {
  SizeID : Z;
  Price : float;
  DiscountedPrice : float;
  ClubDiscountedPrice : float;
  TechSizeName : string
}.

Record Product := {
  Product_NmID : Z;
  Product_VendorCode : string;
  Product_Sizes : list Size;
  CurrencyIsoCode : string;
  Discount : Z;
  ClubDiscount : Z;
  EditableSizePrice : bool
}.

Record Commission := {
  KgvpMarketplace : float;
  KgvpSupplier : float;
  KgvpSupplierExpress : float;
  PaidStorageKgvp : float;
  ParentID : Z;
  ParentName : string;
  SubjectID : Z;
  SubjectName : string
}.

Record SaveParams := {
  NmID : Z;
  VendorCode : string;
  P_Width : Z;
  P_Height : Z;
  P_Length : Z;
  Pcs : Z;
  ProductID : string;
  WbPrice : float;
  WbDiscountedPrice : float;
  WbClubDiscounted : float;
  AvailableCountStr : string;
  Cost : Z;
  Tariff : float;
  P_Commission : Z;
  OKPrice : float
}.

(** A Go function that returns [(value, error)]. *)
Inductive result (E A : Type) : Type :=
  | Ok (a : A)
  | Err (e : E).
Arguments Ok {E A} a.
Arguments Err {E A} e.

(** ** The pricing model *)

Definition CalculateTariff (volumeLiters boxDeliveryBase boxDeliveryLiter : float) : float :=
  ((volumeLiters - 1) * boxDeliveryLiter + boxDeliveryBase)%float.

Definition CalculateVolumeLiters (width height length : Z) : float :=
  let volumeCm3 :=
    (GoFloat.float64_of_int width * GoFloat.float64_of_int height
     * GoFloat.float64_of_int length)%float in
  (volumeCm3 / 1000)%float.

(** The two errors of [CalcPrice], by the condition that raises them. *)
Inductive CalcPriceError := InfeasibleMargin | NegativePrice.

Definition CalcPrice (desiredMargin taxRate commissionRate fixedCosts : float)
  : result CalcPriceError float :=
  let denominator := ((1 - taxRate - commissionRate) - desiredMargin)%float in
  if (denominator <=? 0)%float then Err InfeasibleMargin
  else
    let price := (fixedCosts / denominator)%float in
    if (price <? 0)%float then Err NegativePrice
    else Ok price.

(** [calculateNewPriceAndDiscount], given the sample [r] that
    [rand.Float64()] returns (the generator is seeded from the clock). *)
Definition markup_of (r : float) : float := (1.3 + r * 0.2)%float.

Definition newPrice_of (okPrice markup : float) : Z :=
  GoFloat.int_of_float64 (GoFloat.Round (okPrice * markup / 5) * 5)%float.

Definition discount_arg (okPrice : float) (newPrice : Z) : float :=
  (100 - (okPrice / GoFloat.float64_of_int newPrice) * 100)%float.

Definition newDiscount_of (okPrice : float) (newPrice : Z) : Z :=
  GoFloat.int_of_float64 (GoFloat.Round (discount_arg okPrice newPrice)).

Definition calculateNewPriceAndDiscount (r : float) (okPrice : float) : Z * Z :=
  let markup := markup_of r in
  let newPrice := newPrice_of okPrice markup in
  let newDiscount := newDiscount_of okPrice newPrice in
  (newPrice, newDiscount).

Inductive ConvertError := PriceConversion | MultiplierConversion.

Section Conversion.

(** [strconv.ParseFloat(s, 64)], [None] when it returns an error. *)
Variable ParseFloat : string -> option float.

Definition convertAndMultiply (priceStr multiplierStr : string) : result ConvertError Z :=
  match ParseFloat priceStr with
  | None => Err PriceConversion
  | Some price =>
      let roundedPrice := GoFloat.int_of_float64 (GoFloat.Ceil price) in
      match GoStr.Atoi multiplierStr with
      | None => Err MultiplierConversion
      | Some multiplier => Ok (GoInt.mul roundedPrice multiplier)
      end
  end.

End Conversion.

(** ** The log

    The lines the card loop and [saveToDatabase] write with [log.Printf],
    and the fixed-costs line the loop prints on standard output, in the
    order they are written. *)
Inductive Event :=
  | EvSkipVendorCode (vendorCode : string)
  | EvBadVendorCode (vendorCode : string)
  | EvCacheHit (productID : string)
  | EvScrape (productID : string)
  | EvScrapeError (productID : string)
  | EvConvertError (productID : string)
  | EvFixedCosts (fixedCosts cost : Z) (tariff : float) (delivery pvz : Z) (returns : float)
  | EvCalcPriceError (e : CalcPriceError)
  | EvAvailableCountError (productID : string)
  | EvSaved (productID sku : string).

(** ** The record store

    The [products] table with its [UNIQUE (product_id, pcs)] constraint, as
    the list of its rows in insertion order.  The surrogate [id] column is
    left out: no statement of the program reads it. *)

Record Row := {
  col_nm_id : Z;
  col_vendor_code : string;
  col_width : Z;
  col_height : Z;
  col_length : Z;
  col_pcs : Z;
  col_product_id : string;
  col_skus : string;
  col_price : float;
  col_discounted_price : float;
  col_club_discounted_price : float;
  col_available_count : Z;
  col_cost : Z;
  col_tariff : float;
  col_commission : Z;
  col_ok_price : float;
  col_new_price : Z;
  col_new_discount : Z
}.

Definition Table := list Row.

(** [createTable] on the file the run has just removed. *)
Definition createTable : Table := [].

(** The conflict target of the statement: [(product_id, pcs)]. *)
Definition conflicts (old new : Row) : bool :=
  String.eqb (col_product_id old) (col_product_id new) && (col_pcs old =? col_pcs new).

(** [DO UPDATE SET c = excluded.c] for the sixteen columns the statement
    lists; [product_id] and [pcs] are not assigned. *)
Definition do_update (old excluded : Row) : Row :=
  {| col_nm_id := col_nm_id excluded;
     col_vendor_code := col_vendor_code excluded;
     col_width := col_width excluded;
     col_height := col_height excluded;
     col_length := col_length excluded;
     col_pcs := col_pcs old;
     col_product_id := col_product_id old;
     col_skus := col_skus excluded;
     col_price := col_price excluded;
     col_discounted_price := col_discounted_price excluded;
     col_club_discounted_price := col_club_discounted_price excluded;
     col_available_count := col_available_count excluded;
     col_cost := col_cost excluded;
     col_tariff := col_tariff excluded;
     col_commission := col_commission excluded;
     col_ok_price := col_ok_price excluded;
     col_new_price := col_new_price excluded;
     col_new_discount := col_new_discount excluded |}.

(** [INSERT INTO products ... ON CONFLICT(product_id, pcs) DO UPDATE SET ...] *)
Fixpoint insert_on_conflict_update (new : Row) (tbl : Table) : Table :=
  match tbl with
  | [] => [new]
  | old :: rest =>
      if conflicts old new then do_update old new :: rest
      else old :: insert_on_conflict_update new rest
  end.

(** The values [saveToDatabase] binds to the statement. *)
Definition row_of (params : SaveParams) (sku : string) (r : float) : Row :=
  let availableCount :=
    match GoStr.Atoi (AvailableCountStr params) with
    | Some n => n
    | None => 0
    end in
  let '(newPrice, newDiscount) := calculateNewPriceAndDiscount r (OKPrice params) in
  {| col_nm_id := NmID params;
     col_vendor_code := VendorCode params;
     col_width := P_Width params;
     col_height := P_Height params;
     col_length := P_Length params;
     col_pcs := Pcs params;
     col_product_id := ProductID params;
     col_skus := sku;
     col_price := WbPrice params;
     col_discounted_price := WbDiscountedPrice params;
     col_club_discounted_price := WbClubDiscounted params;
     col_available_count := availableCount;
     col_cost := Cost params;
     col_tariff := Tariff params;
     col_commission := P_Commission params;
     col_ok_price := OKPrice params;
     col_new_price := newPrice;
     col_new_discount := newDiscount |}.

(** [saveToDatabase], its effect on the table: the statement is executed with
    the values of [row_of] (the store of the model never fails). *)
Definition saveToDatabase (db : Table) (params : SaveParams) (sku : string) (r : float) : Table :=
  insert_on_conflict_update (row_of params sku r) db.

(** [saveToDatabase], what it logs. *)
Definition saveToDatabase_log (params : SaveParams) (sku : string) : list Event :=
  match GoStr.Atoi (AvailableCountStr params) with
  | Some _ => [EvSaved (ProductID params) sku]
  | None => [EvAvailableCountError (ProductID params); EvSaved (ProductID params) sku]
  end.

(** ** [extractSKUs] *)

Definition card_skus (card : Card) : list string :=
  fold_left (fun skus size => skus ++ SKUs size) (Card_Sizes card) [].

Definition extractSKUs (cards : list Card) : gmap Z (list string) :=
  fold_left (fun skuMap card => <[Card_NmID card := card_skus card]> skuMap) cards ∅.

(** ** The catalog walker *)

Section CatalogWalker.

(** The catalog endpoint: [getCardsList] with the key and the category filter
    of the run fixed, as a transition of the outside world; [None] when the
    call returns an error. *)
Variable World : Type.
Variable getCardsList : World -> string -> Z -> option CardsListResponse * World.

(** The [for] loop of [fetchAllCards]; [fuel] bounds the number of page
    requests and [None] means that the bound was reached. *)
Fixpoint fetchAllCards_loop (fuel : nat) (w : World) (allCards : list Card)
    (updatedAt : string) (nmID : Z) : option (list Card * World) :=
  match fuel with
  | O => None
  | S fuel' =>
      match getCardsList w updatedAt nmID with
      | (None, w') => Some (allCards, w')
      | (Some response, w') =>
          if (Z.of_nat (length (Cards response)) =? 0) then Some (allCards, w')
          else
            let allCards := allCards ++ Cards response in
            let updatedAt := Cursor_UpdatedAt (Response_Cursor response) in
            let nmID := Cursor_NmID (Response_Cursor response) in
            if String.eqb updatedAt "" || (nmID =? 0) then Some (allCards, w')
            else fetchAllCards_loop fuel' w' allCards updatedAt nmID
      end
  end.

Definition fetchAllCards (fuel : nat) (w : World) : option (list Card * World) :=
  fetchAllCards_loop fuel w [] EmptyString 0.

End CatalogWalker.

(** ** [Process], from the commission lookup to the end of the card loop *)

Definition baseURL : string := "https://sp.cargo-avto.ru/catalog/".

(** The commission of subject 3979: the last entry of the report wins, and
    the percentage is truncated to an [int]. *)
Definition commissionRate_of (commissions : list Commission) : Z :=
  fold_left
    (fun rate c => if SubjectID c =? 3979 then GoFloat.int_of_float64 (KgvpMarketplace c) else rate)
    commissions 0.

(** The first price entry of the vendor code, if any, and its first size. *)
Fixpoint lookupPrices (prices : list Product) (vendorCode : string) : float * float * float :=
  match prices with
  | [] => (0, 0, 0)%float
  | p :: rest =>
      if String.eqb (Product_VendorCode p) vendorCode then
        match Product_Sizes p with
        | sz :: _ => (Price sz, DiscountedPrice sz, ClubDiscountedPrice sz)
        | [] => (0, 0, 0)%float
        end
      else lookupPrices rest vendorCode
  end.

(** Lines 102-123: the pattern check, the stock-keeping identifiers of the
    card, and the product id and pack count read from the vendor code. *)
Inductive Decoded :=
  | SkipPattern
  | PanicSKU
  | SkipSegments
  | Accepted (productID : string) (pcsInt : Z) (sku : string).

Definition decodeVendorCode (vendorCodePattern : Regexp.t) (usePcs : bool)
    (skuMap : gmap Z (list string)) (card : Card) : Decoded :=
  if negb (Regexp.MatchString vendorCodePattern (Card_VendorCode card)) then SkipPattern
  else
    let skus := default [] (skuMap !! Card_NmID card) in
    if negb (Z.of_nat (length skus) =? 1) then PanicSKU
    else
      let parts := GoStr.Split (Card_VendorCode card) "_" in
      if Z.of_nat (length parts) <? 2 then SkipSegments
      else
        let productID := nth 1 parts EmptyString in
        let pcsInt :=
          if (2 <? Z.of_nat (length parts)) && usePcs then
            match GoStr.Atoi (nth 2 parts EmptyString) with
            | Some val => val
            | None => 1
            end
          else 1 in
        Accepted productID pcsInt (nth 0 skus EmptyString).

(** Lines 164-173: the tariff of the card, the reserve for returns, the
    fixed costs and the commission rate the price is solved with. *)
Definition tariff_of (base liter : float) (card : Card) : float :=
  let dims := Card_Dimensions card in
  let volumeInLiters := CalculateVolumeLiters (Width dims) (Height dims) (Length dims) in
  CalculateTariff volumeInLiters base liter.

Definition returns_of (tariff : float) : float := ((tariff + 50) / 9)%float.

Definition fixedCosts_of (cfg : Config) (cost : Z) (tariff returns : float) : Z :=
  GoInt.add
    (GoInt.add
       (GoInt.add (GoInt.add cost (GoFloat.int_of_float64 (GoFloat.Ceil tariff))) (Delivery cfg))
       (PVZ cfg))
    (GoFloat.int_of_float64 (GoFloat.Ceil returns)).

Definition comNum_of (commissionRate : Z) : float :=
  ((GoFloat.float64_of_int commissionRate + 1) / 100)%float.

Section ProcessLoop.

(** The outside world of the loop: the page-render collaborator
    [scrapeProductData] ([None] when it returns an error) and the random
    generator behind [rand.Float64()]. *)
Variable World : Type.
Variable scrapeProductData : World -> string -> option (gmap string string) * World.
Variable rand_Float64 : World -> float * World.
Variable ParseFloat : string -> option float.

Record State := {
  st_cache : gmap string (gmap string string);
  st_db : Table;
  st_world : World;
  st_log : list Event
}.

Definition say (st : State) (ev : Event) : State :=
  {| st_cache := st_cache st; st_db := st_db st; st_world := st_world st;
     st_log := st_log st ++ [ev] |}.

(** Lines 141-155: the product data of [productID], from the cache or from
    the collaborator; [None] when the collaborator fails. *)
Definition fetchProductData (st : State) (productID : string)
  : option (gmap string string) * State :=
  match st_cache st !! productID with
  | Some cachedData => (Some cachedData, say st (EvCacheHit productID))
  | None =>
      let st := say st (EvScrape productID) in
      let url := (baseURL ++ productID ++ "/")%string in
      match scrapeProductData (st_world st) url with
      | (None, w) =>
          (None,
           say {| st_cache := st_cache st; st_db := st_db st; st_world := w;
                  st_log := st_log st |} (EvScrapeError productID))
      | (Some productData, w) =>
          (Some productData,
           {| st_cache := <[productID := productData]> (st_cache st); st_db := st_db st;
              st_world := w; st_log := st_log st |})
      end
  end.

(** What [Process] panics on: [regexp.MustCompile] on a pattern that does
    not compile (line 99), and a card that matches the pattern without
    having exactly one stock-keeping identifier (line 108). *)
Inductive Fault :=
  | PatternFault (pattern : string)
  | SKUFault (vendorCode : string).

(** What the body of the loop does with one card: it goes on with the next
    card, or it panics.  Either way it leaves a state: a panic takes nothing
    back, the rows saved before it stay in the database file. *)
Inductive Step :=
  | Continue (st : State)
  | Panic (fault : Fault) (st : State).

Definition state_of (s : Step) : State :=
  match s with
  | Continue st | Panic _ st => st
  end.

Section Body.

Variable cfg : Config.
Variable base liter : float.
Variable prices : list Product.
Variable commissionRate : Z.
Variable skuMap : gmap Z (list string).
Variable vendorCodePattern : Regexp.t.

Definition mkParams (card : Card) (pcsInt : Z) (productID : string)
    (productData : gmap string string) (cost : Z) (tariff : float) (commission : Z)
    (okPrice : float) : SaveParams :=
  let '(wbPrice, wbDiscountedPrice, wbClubDiscounted) :=
    lookupPrices prices (Card_VendorCode card) in
  {| NmID := Card_NmID card;
     VendorCode := Card_VendorCode card;
     P_Width := Width (Card_Dimensions card);
     P_Height := Height (Card_Dimensions card);
     P_Length := Length (Card_Dimensions card);
     Pcs := pcsInt;
     ProductID := productID;
     WbPrice := wbPrice;
     WbDiscountedPrice := wbDiscountedPrice;
     WbClubDiscounted := wbClubDiscounted;
     AvailableCountStr := default EmptyString (productData !! "availableCount"%string);
     Cost := cost;
     Tariff := tariff;
     P_Commission := commission;
     OKPrice := okPrice |}.

(** Lines 157-198: the card is priced from its product data and saved. *)
Definition priceAndSave (st : State) (card : Card) (productID : string) (pcsInt : Z)
    (sku : string) (productData : gmap string string) : State :=
  match convertAndMultiply ParseFloat
          (default EmptyString (productData !! "price"%string))
          (GoStr.Sprintf_d pcsInt) with
  | Err _ => say st (EvConvertError productID)
  | Ok cost =>
      let tariff := tariff_of base liter card in
      let returns := returns_of tariff in
      let fixedCosts := fixedCosts_of cfg cost tariff returns in
      let st := say st (EvFixedCosts fixedCosts cost tariff (Delivery cfg) (PVZ cfg) returns) in
      let comNum := comNum_of commissionRate in
      match CalcPrice (DesiredMargin cfg) (TaxRate cfg) comNum
              (GoFloat.float64_of_int fixedCosts) with
      | Err e => say st (EvCalcPriceError e)
      | Ok okPrice =>
          let commission := GoFloat.int_of_float64 (okPrice * comNum)%float in
          let params :=
            mkParams card pcsInt productID productData cost tariff commission okPrice in
          let '(r, w) := rand_Float64 (st_world st) in
          {| st_cache := st_cache st;
             st_db := saveToDatabase (st_db st) params sku r;
             st_world := w;
             st_log := st_log st ++ saveToDatabase_log params sku |}
      end
  end.

(** The body of the loop. *)
Definition processCard (st : State) (card : Card) : Step :=
  match decodeVendorCode vendorCodePattern (UsePcs cfg) skuMap card with
  | SkipPattern => Continue (say st (EvSkipVendorCode (Card_VendorCode card)))
  | PanicSKU => Panic (SKUFault (Card_VendorCode card)) st
  | SkipSegments => Continue (say st (EvBadVendorCode (Card_VendorCode card)))
  | Accepted productID pcsInt sku =>
      match fetchProductData st productID with
      | (None, st) => Continue st
      | (Some productData, st) =>
          Continue (priceAndSave st card productID pcsInt sku productData)
      end
  end.

(** The [for _, card := range allCards] loop: a panic ends the run. *)
Fixpoint processCards (st : State) (cards : list Card) : Step :=
  match cards with
  | [] => Continue st
  | card :: rest =>
      match processCard st card with
      | Continue st' => processCards st' rest
      | Panic fault st' => Panic fault st'
      end
  end.

End Body.

(** [regexp.Compile]: [None] when it returns an error, and then
    [regexp.MustCompile] panics; a pattern that compiles is one of the
    fragment above. *)
Variable regexp_Compile : string -> option Regexp.t.

(** [Process] from line 88 on, given the tariffs, the cards, the prices and
    the commissions the lookups returned. *)
Definition Process (cfg : Config) (base liter : float) (allCards : list Card)
    (prices : list Product) (commissions : list Commission) (w : World) : Step :=
  let commissionRate := commissionRate_of commissions in
  let productDataCache : gmap string (gmap string string) := ∅ in
  let skuMap := extractSKUs allCards in
  let st :=
    {| st_cache := productDataCache; st_db := createTable; st_world := w; st_log := [] |} in
  match regexp_Compile (VendorCodePattern cfg) with
  | None => Panic (PatternFault (VendorCodePattern cfg)) st
  | Some vendorCodePattern =>
      processCards cfg base liter prices commissionRate skuMap vendorCodePattern st allCards
  end.

End ProcessLoop.

Arguments Build_State {World}.
Arguments st_cache {World}.
Arguments st_db {World}.
Arguments st_world {World}.
Arguments st_log {World}.
Arguments say {World}.
Arguments Continue {World}.
Arguments Panic {World}.
Arguments state_of {World}.
Arguments fetchProductData {World}.
Arguments priceAndSave {World}.
Arguments processCard {World}.
Arguments processCards {World}.
Arguments Process {World}.
Arguments fetchAllCards_loop {World}.
Arguments fetchAllCards {World}.

(** * The vocabulary of the properties *)

(** ** The record store *)

Definition key (r : Row) : string * Z := (col_product_id r, col_pcs r).

(** The invariant the [UNIQUE (product_id, pcs)] constraint maintains. *)
Definition unique_keys (tbl : Table) : Prop := NoDup (map key tbl).

(** ** The catalog walker *)

(** A response after which the loop asks for another page. *)
Definition continues (response : CardsListResponse) : Prop :=
  Cards response <> []
  /\ Cursor_UpdatedAt (Response_Cursor response) <> EmptyString
  /\ Cursor_NmID (Response_Cursor response) <> 0.

(** End of data: the request failed, the page is empty, or its cursor is. *)
Definition end_of_data (response : option CardsListResponse) : Prop :=
  match response with
  | None => True
  | Some response =>
      Cards response = []
      \/ Cursor_UpdatedAt (Response_Cursor response) = EmptyString
      \/ Cursor_NmID (Response_Cursor response) = 0
  end.

Definition pages_of (response : option CardsListResponse) : list CardsListResponse :=
  match response with
  | None => []
  | Some response => [response]
  end.

Definition all_cards (pages : list CardsListResponse) : list Card :=
  concat (map Cards pages).

Section CatalogSource.

Context {World : Type}.
Variable getCardsList : World -> string -> Z -> option CardsListResponse * World.

(** [Served w updatedAt nmID pages w']: asked page after page from the cursor
    [(updatedAt, nmID)] on, each request carrying the cursor of the response
    before it, the source answers [pages] and the last answer is end of data
    (a failed request answers no page). *)
Inductive Served : World -> string -> Z -> list CardsListResponse -> World -> Prop :=
  | Served_end w updatedAt nmID response w' :
      getCardsList w updatedAt nmID = (response, w') ->
      end_of_data response ->
      Served w updatedAt nmID (pages_of response) w'
  | Served_next w updatedAt nmID response w' pages w'' :
      getCardsList w updatedAt nmID = (Some response, w') ->
      continues response ->
      Served w' (Cursor_UpdatedAt (Response_Cursor response))
        (Cursor_NmID (Response_Cursor response)) pages w'' ->
      Served w updatedAt nmID (response :: pages) w''.

End CatalogSource.

(** ** The vendor code *)

(** The pack count of an accepted code: the third segment when it is there,
    reads as an [int] and [UsePcs] is set, and 1 otherwise. *)
Definition packCount (usePcs : bool) (parts : list string) : Z :=
  match parts with
  | _ :: _ :: third :: _ =>
      if usePcs then
        match GoStr.Atoi third with
        | Some n => n
        | None => 1
        end
      else 1
  | _ => 1
  end.

(** ** Binary64 values *)

(** The mantissa of 2.5 at 53 bits. *)
Definition five_mantissa : positive := 5629499534213120.

(** A finite float that is not below zero: a zero of either sign, or a
    positive finite float. *)
Definition nonneg_finite (x : spec_float) : Prop :=
  match x with
  | S754_zero _ => True
  | S754_finite s _ _ => s = false
  | _ => False
  end.

Definition positive_finite (x : spec_float) : Prop :=
  match x with
  | S754_finite s _ _ => s = false
  | _ => False
  end.

(** What [CalcPrice] lets through: a price that is not below zero. *)
Definition not_negative (x : spec_float) : Prop :=
  match x with
  | S754_zero _ | S754_nan => True
  | S754_infinity s | S754_finite s _ _ => s = false
  end.

(** ** The scrape cache *)

Definition is_scrape (productID : string) (ev : Event) : bool :=
  match ev with
  | EvScrape p => String.eqb p productID
  | _ => false
  end.

(** How many times the log records a call of the collaborator for
    [productID]. *)
Definition scrapes (productID : string) (log : list Event) : nat :=
  length (List.filter (is_scrape productID) log).

Definition is_scrape_error (productID : string) (ev : Event) : bool :=
  match ev with
  | EvScrapeError p => String.eqb p productID
  | _ => false
  end.

(** How many times the log records a failure of the collaborator for
    [productID]. *)
Definition scrape_errors (productID : string) (log : list Event) : nat :=
  length (List.filter (is_scrape_error productID) log).

(** The answers to the requests for [productID], in order. *)
Fixpoint answers_for (productID : string) (ids : list string)
    (answers : list (option (gmap string string))) : list (option (gmap string string)) :=
  match ids, answers with
  | p :: ids, a :: answers =>
      if String.eqb p productID then a :: answers_for productID ids answers
      else answers_for productID ids answers
  | _, _ => []
  end.

Section ScrapeCache.

Context {World : Type}.
Variable scrapeProductData : World -> string -> option (gmap string string) * World.

(** A sequence of fetch requests, with the answer each of them gets. *)
Fixpoint fetchSeq (st : State World) (ids : list string)
  : list (option (gmap string string)) * State World :=
  match ids with
  | [] => ([], st)
  | productID :: rest =>
      let '(answer, st) := fetchProductData scrapeProductData st productID in
      let '(answers, st) := fetchSeq st rest in
      (answer :: answers, st)
  end.

(** The shape of the answers to the requests for one product id. *)
Definition cache_behaviour (productID : string) (st st' : State World)
    (answers : list (option (gmap string string))) : Prop :=
  exists (failed : nat) (served : list (option (gmap string string))),
    answers = repeat None failed ++ served
    /\ Forall (fun a => a = st_cache st' !! productID /\ a <> None) served
    /\ scrapes productID (st_log st')
       = (scrapes productID (st_log st) + failed
          + match st_cache st !! productID, served with
            | None, _ :: _ => 1
            | _, _ => 0
            end)%nat
    /\ (forall d, st_cache st !! productID = Some d ->
        failed = 0%nat /\ st_cache st' !! productID = Some d)
    /\ (served = [] -> st_cache st' !! productID = st_cache st !! productID).

(** The calls of the collaborator for a product id are its failures and, when
    the cache holds the product, one success. *)
Definition successes_cached (st : State World) : Prop :=
  forall productID,
    scrapes productID (st_log st)
    = (scrape_errors productID (st_log st)
       + match st_cache st !! productID with Some _ => 1 | None => 0 end)%nat.

End ScrapeCache.

(** ** The specification's formulas *)

(** The fixed costs as the specification words them: the scraped price is
    multiplied by the pack count before it is rounded up. *)
Definition fixedCost_as_specified (p : float) (n : Z) (t : float) (d w : Z) : Z :=
  GoFloat.int_of_float64 (GoFloat.Ceil (p * GoFloat.float64_of_int n))
  + GoFloat.int_of_float64 (GoFloat.Ceil t) + d + w
  + GoFloat.int_of_float64 (GoFloat.Ceil ((t + 50) / 9)).

(** The commission as the specification words it: the solved price times the
    looked-up percentage as a fraction of one. *)
Definition commission_as_specified (solvedPrice percent : float) : float :=
  (solvedPrice * (percent / 100))%float.

(** * A sample run *)

Module Sample.

#[local] Open Scope string_scope.

Definition cfg : Config :=
  {| ObjectIDs := [3979]; DesiredMargin := 0.25; TaxRate := 0.125; Delivery := 100;
     PVZ := 15; DBName := "ue.db"; VendorCodePattern := "^box_\d+_\d+$"; UsePcs := true |}.

(** The same with a margin that tax and commission leave no room for. *)
Definition cfg_greedy : Config :=
  {| ObjectIDs := [3979]; DesiredMargin := 0.9; TaxRate := 0.125; Delivery := 100;
     PVZ := 15; DBName := "ue.db"; VendorCodePattern := "^box_\d+_\d+$"; UsePcs := true |}.

Definition pattern : Regexp.t := default [] (Regexp.Compile (VendorCodePattern cfg)).

Definition card (nmID : Z) (vendorCode : string) (skus : list string) : Card :=
  {| Card_NmID := nmID; Card_VendorCode := vendorCode; Card_Title := "box";
     Card_UpdatedAt := "2025-02-01T00:00:00Z";
     Card_Dimensions := {| Width := 10; Height := 10; Length := 10; IsValid := true |};
     Card_Sizes := [{| SKUs := skus |}] |}.

Definition commissions : list Commission :=
  [{| KgvpMarketplace := 15.5; KgvpSupplier := 0; KgvpSupplierExpress := 0;
      PaidStorageKgvp := 0; ParentID := 1; ParentName := "auto"; SubjectID := 3979;
      SubjectName := "boxes" |}].

(** The world is the number of pages rendered so far; product 4821 costs
    1.5 and is in stock in three places, and no other page renders. *)
Definition scrape (w : nat) (url : string) : option (gmap string string) * nat :=
  if String.eqb url (baseURL ++ "4821" ++ "/") then
    (Some (<["price" := "1.5"]> (<["availableCount" := "3"]> ∅)), S w)
  else (None, S w).

(** A collaborator that always fails. *)
Definition scrape_fails (w : nat) (url : string) : option (gmap string string) * nat :=
  (None, S w).

Definition rand (w : nat) : float * nat := (0.5%float, w).

(** [strconv.ParseFloat] on the prices of the samples. *)
Definition ParseFloat (s : string) : option float :=
  if String.eqb s "1.5" then Some 1.5%float
  else if String.eqb s "100" then Some 100%float
  else None.

Definition box_2 : Card := card 1 "box_4821_2" ["sku1"].
Definition box_3 : Card := card 2 "box_4821_3" ["sku2"].
Definition box_short : Card := card 3 "box_4821" ["sku3"].
Definition box_no_sku : Card := card 4 "box_77_1" [].
Definition box_huge : Card := card 5 "box_1_99999999999999999999" ["sku5"].

Definition run (scraper : nat -> string -> option (gmap string string) * nat)
    (cards : list Card) : Step nat :=
  Process scraper rand ParseFloat Regexp.Compile cfg 50 10 cards [] commissions 0%nat.

Definition start : State nat :=
  {| st_cache := ∅; st_db := createTable; st_world := 0%nat; st_log := [] |}.

(** The pages of a catalog of three cards, two per page. *)
Definition getCardsList (w : nat) (updatedAt : string) (nmID : Z)
  : option CardsListResponse * nat :=
  if (nmID =? 0)%Z then
    (Some {| Cards := [box_2; box_3];
             Response_Cursor := {| Cursor_UpdatedAt := "2025-02-01T00:00:00Z";
                                   Cursor_NmID := 2; Cursor_Total := 2 |} |}, S w)
  else if (nmID =? 2)%Z then
    (Some {| Cards := [box_short];
             Response_Cursor := {| Cursor_UpdatedAt := "2025-02-01T00:00:00Z";
                                   Cursor_NmID := 3; Cursor_Total := 1 |} |}, S w)
  else
    (Some {| Cards := [];
             Response_Cursor := {| Cursor_UpdatedAt := ""; Cursor_NmID := 0;
                                   Cursor_Total := 0 |} |}, S w).

End Sample.

Module SampleFacts.

Import Sample.

#[local] Open Scope string_scope.

Definition skuMap : gmap Z (list string) := extractSKUs [box_2; box_3].

Definition body (st : State nat) (c : Card) : Step nat :=
  processCard scrape rand ParseFloat cfg 50 10 [] (commissionRate_of commissions) skuMap
    pattern st c.

Definition after_box_2 : State nat := state_of (body start box_2).

Definition stored : Table := st_db (state_of (run scrape [box_2; box_3])).

Definition params : SaveParams :=
  {| NmID := 1; VendorCode := "box_4821_2"; P_Width := 10; P_Height := 10; P_Length := 10;
     Pcs := 2; ProductID := "4821"; WbPrice := 0; WbDiscountedPrice := 0;
     WbClubDiscounted := 0; AvailableCountStr := "7"; Cost := 4; Tariff := 50;
     P_Commission := 62; OKPrice := 400 |}.

Definition pages : list CardsListResponse :=
  [{| Cards := [box_2; box_3];
      Response_Cursor := {| Cursor_UpdatedAt := "2025-02-01T00:00:00Z";
                            Cursor_NmID := 2; Cursor_Total := 2 |} |};
   {| Cards := [box_short];
      Response_Cursor := {| Cursor_UpdatedAt := "2025-02-01T00:00:00Z";
                            Cursor_NmID := 3; Cursor_Total := 1 |} |};
   {| Cards := [];
      Response_Cursor := {| Cursor_UpdatedAt := ""; Cursor_NmID := 0;
                            Cursor_Total := 0 |} |}].

End SampleFacts.

(** * The functions around the card loop *)

(** ** [strings.ReplaceAll] *)

Module GoStrings.

(** [strings.ReplaceAll(s, old, new)] for a one-byte [old]: every occurrence
    of the byte is replaced by [new]. *)
Fixpoint ReplaceAll (s : string) (old : ascii) (new : string) : string :=
  match s with
  | EmptyString => EmptyString
  | String c s' =>
      if Ascii.eqb c old then (new ++ ReplaceAll s' old new)%string
      else String c (ReplaceAll s' old new)
  end.

(** Whether the byte [c] occurs in [s]. *)
Fixpoint occurs (c : ascii) (s : string) : bool :=
  match s with
  | EmptyString => false
  | String c' s' => Ascii.eqb c' c || occurs c s'
  end.

End GoStrings.

(** ** [scrapeProductData] *)

Module Scrape.

Section Scraper.

(** The browser: [chromedp.Run] with the six actions of the function, which
    yields the text of the price element and the number of stores where the
    product is available, or an error ([None]); and [strings.TrimSpace]. *)
Variable World : Type.
Variable chromedp_Run : World -> string -> option (string * Z) * World.
Variable TrimSpace : string -> string.

Definition scrapeProductData (w : World) (url : string)
  : option (gmap string string) * World :=
  match chromedp_Run w url with
  | (None, w') => (None, w')
  | (Some (productPrice, availableStoresCount), w') =>
      let productPrice := TrimSpace productPrice in
      let productPrice := GoStrings.ReplaceAll productPrice "p" EmptyString in
      let productPrice := GoStrings.ReplaceAll productPrice " " EmptyString in
      (Some (<["price"%string := productPrice]>
               (<["availableCount"%string := GoStr.Sprintf_d availableStoresCount]> ∅)),
       w')
  end.

End Scraper.

Arguments scrapeProductData {World}.

End Scrape.

(** ** [parseFloat] and [getFBSTariffs] *)

Module Tariffs.

(** An entry of [warehouseList]; the two tariffs are raw JSON values. *)
Record Warehouse := {
  WarehouseName : string;
  BoxDeliveryBase : string;
  BoxDeliveryLiter : string
}.

Inductive TariffsError :=
  | TariffsRequest
  | TariffsConversion
  | TariffsNoWarehouse.

Section Endpoint.

(** [json.Unmarshal] of a raw value into a [float64] and into a [string],
    and [strconv.ParseFloat(s, 64)]; [None] when they return an error. *)
Variable Unmarshal_float64 : string -> option float.
Variable Unmarshal_string : string -> option string.
Variable ParseFloat : string -> option float.

Definition parseFloat (raw : string) : option float :=
  match Unmarshal_float64 raw with
  | Some num => Some num
  | None =>
      match Unmarshal_string raw with
      | Some str => ParseFloat (GoStrings.ReplaceAll str "," ".")
      | None => None
      end
  end.

(** The loop of [getFBSTariffs] over the warehouses of the response. *)
Fixpoint getFBSTariffs_loop (warehouseList : list Warehouse)
  : result TariffsError (float * float) :=
  match warehouseList with
  | [] => Err TariffsNoWarehouse
  | warehouse :: rest =>
      if String.eqb (WarehouseName warehouse) "Маркетплейс" then
        match parseFloat (BoxDeliveryBase warehouse),
              parseFloat (BoxDeliveryLiter warehouse) with
        | Some base, Some liter => Ok (base, liter)
        | _, _ => Err TariffsConversion
        end
      else getFBSTariffs_loop rest
  end.

(** [getFBSTariffs], given the tariff endpoint: the warehouse list of the
    decoded response, or [None] when the request, the reading of the body or
    its decoding fails. *)
Variable World : Type.
Variable tariffs_box : World -> option (list Warehouse) * World.

Definition getFBSTariffs (w : World) : result TariffsError (float * float) * World :=
  match tariffs_box w with
  | (None, w') => (Err TariffsRequest, w')
  | (Some warehouseList, w') => (getFBSTariffs_loop warehouseList, w')
  end.

End Endpoint.

Arguments getFBSTariffs Unmarshal_float64 Unmarshal_string ParseFloat {World}.

End Tariffs.

(** * The vocabulary of the further properties *)

(** [row] is the row written for [card]: the key and the identifier are those
    decoded from the card, and the columns that come from the card, the
    tariff and the price list hold the card's values. *)
Definition stored_for (base liter : float) (prices : list Product)
    (decoded : Card -> Decoded) (card : Card) (row : Row) : Prop :=
  decoded card = Accepted (col_product_id row) (col_pcs row) (col_skus row)
  /\ col_nm_id row = Card_NmID card
  /\ col_vendor_code row = Card_VendorCode card
  /\ col_width row = Width (Card_Dimensions card)
  /\ col_height row = Height (Card_Dimensions card)
  /\ col_length row = Length (Card_Dimensions card)
  /\ col_tariff row = tariff_of base liter card
  /\ (col_price row, col_discounted_price row, col_club_discounted_price row)
     = lookupPrices prices (Card_VendorCode card).

(** A card the loop panics on: its vendor code matches the pattern and the
    stock-keeping identifiers resolved for it are not exactly one. *)
Definition sku_fault (re : Regexp.t) (skuMap : gmap Z (list string)) (card : Card) : Prop :=
  Regexp.MatchString re (Card_VendorCode card) = true
  /\ length (default [] (skuMap !! Card_NmID card)) <> 1%nat.

(** [productData] is what the collaborator once returned for the page of
    [productID]. *)
Definition scraped {World : Type}
    (scrapeProductData : World -> string -> option (gmap string string) * World)
    (productID : string) (productData : gmap string string) : Prop :=
  exists w w' : World,
    scrapeProductData w (baseURL ++ productID ++ "/")%string = (Some productData, w').

(** The binary64 form of a positive integer below [2^53]: its bits, moved up
    to fill the 53 bits of the mantissa, and the exponent that moves them
    back. *)
Definition normal_mantissa (n : positive) : positive :=
  Z.to_pos (Zpos n * 2 ^ (53 - Zdigits2 (Zpos n))).

Definition normal_exponent (n : positive) : Z := Zdigits2 (Zpos n) - 53.

(** The mantissas of the constants of the markup: [0.2] is
    [fifth_mantissa * 2^-55], [1.3] is [markup_low * 2^-52] and [1.5] is
    [markup_high * 2^-52]. *)
Definition fifth_mantissa : positive := 7205759403792794.
Definition markup_low : positive := 5854679515581645.
Definition markup_high : positive := 6755399441055744.

(** [n] is a number of stores that the browser once counted, and product
    data whose store count is such a number printed in decimal. *)
Definition counted {World : Type}
    (chromedp_Run : World -> string -> option (string * Z) * World) (n : Z) : Prop :=
  GoInt.in_range n = true
  /\ exists (w : World) (url text : string) (w' : World),
       chromedp_Run w url = (Some (text, n), w').

Definition count_printed {World : Type}
    (chromedp_Run : World -> string -> option (string * Z) * World)
    (productData : gmap string string) : Prop :=
  exists n : Z,
    counted chromedp_Run n
    /\ productData !! "availableCount"%string = Some (GoStr.Sprintf_d n).

(** The state of a run with the scraper of the program: every cached
    product data holds a printed count, the conversion warning is not in the
    log, and every row holds a count of the browser. *)
Definition counts_kept {World : Type}
    (chromedp_Run : World -> string -> option (string * Z) * World)
    (st : State World) : Prop :=
  (forall productID productData,
     st_cache st !! productID = Some productData -> count_printed chromedp_Run productData)
  /\ (forall productID, ~ In (EvAvailableCountError productID) (st_log st))
  /\ Forall (fun row => counted chromedp_Run (col_available_count row)) (st_db st).

(** * More samples *)

Module Samples.

#[local] Open Scope string_scope.

Definition size (price : float) : Size :=
  {| SizeID := 1; Price := price; DiscountedPrice := (price - 10)%float;
     ClubDiscountedPrice := (price - 20)%float; TechSizeName := "0" |}.

Definition product (vendorCode : string) (sizes : list Size) : Product :=
  {| Product_NmID := 1; Product_VendorCode := vendorCode; Product_Sizes := sizes;
     CurrencyIsoCode := "RUB"; Discount := 0; ClubDiscount := 0;
     EditableSizePrice := false |}.

(** A price list where the vendor code of the first sample card comes
    twice, first without sizes. *)
Definition prices : list Product :=
  [product "box_77_1" [size 300]; product "box_4821_2" [];
   product "box_4821_2" [size 500]].

End Samples.

Module EndlessCatalog.

#[local] Open Scope string_scope.

(** A page source that answers every request with the same card and the
    same cursor. *)
Definition getCardsList (w : nat) (updatedAt : string) (nmID : Z)
  : option CardsListResponse * nat :=
  (Some {| Cards := [Sample.box_2];
           Response_Cursor := {| Cursor_UpdatedAt := "2025-02-01T00:00:00Z";
                                 Cursor_NmID := 1; Cursor_Total := 1 |} |}, S w).

End EndlessCatalog.

Module BrowserSample.

#[local] Open Scope string_scope.

(** A browser that reads the price [1 250 p] and three stores on the page
    of product 4821, and fails on every other page. *)
Definition chromedp_Run (w : nat) (url : string) : option (string * Z) * nat :=
  if String.eqb url (baseURL ++ "4821" ++ "/") then (Some ("1 250 p", 3), S w)
  else (None, S w).

(** The price texts of the sample have no white space around them. *)
Definition TrimSpace (s : string) : string := s.

Definition ParseFloat (s : string) : option float :=
  if String.eqb s "1250" then Some 1250%float else None.

Definition run (cards : list Card) : Step nat :=
  Process (Scrape.scrapeProductData chromedp_Run TrimSpace) Sample.rand ParseFloat
    Regexp.Compile Sample.cfg 50 10 cards [] Sample.commissions 0%nat.

End BrowserSample.

Module TariffSample.

#[local] Open Scope string_scope.

Definition quote : ascii := Ascii.ascii_of_nat 34.

(** The text of a raw JSON string without escapes. *)
Fixpoint unquoted (s : string) : option string :=
  match s with
  | EmptyString => None
  | String c EmptyString => if Ascii.eqb c quote then Some EmptyString else None
  | String c rest => option_map (String c) (unquoted rest)
  end.

Definition Unmarshal_string (raw : string) : option string :=
  match raw with
  | String c rest => if Ascii.eqb c quote then unquoted rest else None
  | EmptyString => None
  end.

(** The numbers of the sample. *)
Definition Unmarshal_float64 (raw : string) : option float :=
  if String.eqb raw "48" then Some 48%float
  else if String.eqb raw "11.2" then Some 11.2%float
  else None.

Definition ParseFloat (s : string) : option float :=
  if String.eqb s "48.5" then Some 48.5%float
  else if String.eqb s "11.2" then Some 11.2%float
  else None.

Definition quoted (s : string) : string := String quote (s ++ String quote EmptyString).

Definition warehouse (name base liter : string) : Tariffs.Warehouse :=
  {| Tariffs.WarehouseName := name; Tariffs.BoxDeliveryBase := base;
     Tariffs.BoxDeliveryLiter := liter |}.

(** The marketplace warehouse comes twice: first with a liter tariff that is
    no number, then well formed. *)
Definition warehouseList : list Tariffs.Warehouse :=
  [warehouse "Коледино" "48" "11.2";
   warehouse "Маркетплейс" (quoted "48,5") (quoted "n/a");
   warehouse "Маркетплейс" (quoted "48,5") "11.2"].

End TariffSample.

(** * Properties

    ** The library functions on small inputs *)

Example Split_box : GoStr.Split "box_4821_3" "_" = ["box"; "4821"; "3"]%string.
Proof. reflexivity. Qed.

Example Split_none : GoStr.Split "widget" "_" = ["widget"]%string.
Proof. reflexivity. Qed.

Example Atoi_examples :
  GoStr.Atoi "3" = Some 3 /\ GoStr.Atoi "-12" = Some (-12) /\ GoStr.Atoi "+7" = Some 7
  /\ GoStr.Atoi "" = None /\ GoStr.Atoi "-" = None /\ GoStr.Atoi "3a" = None
  /\ GoStr.Atoi "9223372036854775808" = None
  /\ GoStr.Atoi "-9223372036854775808" = Some GoInt.int_min.
Proof. repeat split; reflexivity. Qed.

Example Ceil_examples :
  GoFloat.Ceil 1.5 = 2%float /\ GoFloat.Ceil (-1.5) = (-1)%float
  /\ GoFloat.Ceil 2 = 2%float /\ GoFloat.int_of_float64 (GoFloat.Ceil 6.25) = 7
  /\ Prim2SF (GoFloat.Ceil (-0.5)) = S754_zero true.
Proof. repeat split; vm_compute; reflexivity. Qed.

Example Round_examples :
  GoFloat.Round 2.5 = 3%float /\ GoFloat.Round (-2.5) = (-3)%float
  /\ GoFloat.Round 0.49 = 0%float /\ GoFloat.Round 0.5 = 1%float
  /\ GoFloat.int_of_float64 (GoFloat.Round 92.3 * 5) = 460.
Proof. repeat split; vm_compute; reflexivity. Qed.

Example Compile_box :
  Regexp.Compile "^box_\d+_\d+$" =
  Some [Regexp.IBegin;
        Regexp.IRep (Regexp.ALit "b") Regexp.QOne; Regexp.IRep (Regexp.ALit "o") Regexp.QOne;
        Regexp.IRep (Regexp.ALit "x") Regexp.QOne; Regexp.IRep (Regexp.ALit "_") Regexp.QOne;
        Regexp.IRep Regexp.ADigit Regexp.QPlus; Regexp.IRep (Regexp.ALit "_") Regexp.QOne;
        Regexp.IRep Regexp.ADigit Regexp.QPlus; Regexp.IEnd].
Proof. reflexivity. Qed.

Example MatchString_examples :
  forall re, Regexp.Compile "^box_\d+_\d+$" = Some re ->
  Regexp.MatchString re "box_4821_3" = true /\ Regexp.MatchString re "box_4821" = false
  /\ Regexp.MatchString re "widget_77" = false /\ Regexp.MatchString re "xbox_1_2" = false
  /\ Regexp.MatchString re "box_1_2 " = false.
Proof. intros re [= <-]. repeat split; reflexivity. Qed.

Example MatchString_unanchored :
  forall re, Regexp.Compile "x_\d*" = Some re ->
  Regexp.MatchString re "box_1" = true /\ Regexp.MatchString re "bo_1" = false.
Proof. intros re [= <-]. repeat split; reflexivity. Qed.

(** ** Integers, and numbers printed and read back *)

Lemma wrap_in_range (z : Z) : GoInt.in_range z = true -> GoInt.wrap z = z.
Proof.
  unfold GoInt.in_range, GoInt.wrap, GoInt.int_min, GoInt.int_max.
  intros H. apply andb_true_iff in H as [Hlo Hhi].
  apply Z.leb_le in Hlo, Hhi. rewrite Z.mod_small; lia.
Qed.

Lemma wrap_range (z : Z) : GoInt.in_range (GoInt.wrap z) = true.
Proof.
  unfold GoInt.in_range, GoInt.wrap, GoInt.int_min, GoInt.int_max.
  pose proof (Z.mod_pos_bound (z + 2 ^ 63) (2 ^ 64) ltac:(lia)) as Hb.
  apply andb_true_iff. split; apply Z.leb_le; lia.
Qed.

Lemma wrap_add_l (a b : Z) : GoInt.wrap (GoInt.wrap a + b) = GoInt.wrap (a + b).
Proof.
  unfold GoInt.wrap. f_equal.
  replace ((a + 2 ^ 63) mod 2 ^ 64 - 2 ^ 63 + b + 2 ^ 63)
    with ((a + 2 ^ 63) mod 2 ^ 64 + b) by lia.
  rewrite Zplus_mod_idemp_l. f_equal. lia.
Qed.

Lemma uint_digits_first (d : uint) (c : ascii) (s : string) :
  NilEmpty.string_of_uint d = String c s ->
  Ascii.eqb c "-" = false /\ Ascii.eqb c "+" = false.
Proof.
  destruct d; simpl; intros H; try discriminate; injection H as <- _; split; reflexivity.
Qed.

Lemma Atoi_digits (p : positive) :
  exists c s,
    NilEmpty.string_of_uint (Pos.to_uint p) = String c s
    /\ Ascii.eqb c "-" = false /\ Ascii.eqb c "+" = false
    /\ NilZero.uint_of_string (String c s) = Some (Pos.to_uint p).
Proof.
  destruct (NilEmpty.string_of_uint (Pos.to_uint p)) as [|c s] eqn:Hs.
  - exfalso. apply (DecimalPos.Unsigned.to_uint_nonnil p).
    destruct (Pos.to_uint p); simpl in Hs; try discriminate. reflexivity.
  - exists c, s. destruct (uint_digits_first _ _ _ Hs) as [Hm Hp].
    repeat split; try assumption.
    rewrite <- Hs. unfold NilZero.uint_of_string. rewrite Hs, <- Hs.
    apply NilEmpty.usu.
Qed.

(** What [fmt.Sprintf("%d", n)] prints, [strconv.Atoi] reads back. *)
Lemma Atoi_Sprintf_d (n : Z) :
  GoInt.in_range n = true -> GoStr.Atoi (GoStr.Sprintf_d n) = Some n.
Proof.
  intros Hr. unfold GoStr.Sprintf_d. destruct n as [|p|p]; [reflexivity| |].
  - simpl. destruct (Atoi_digits p) as (c & s & Hs & Hm & Hp & Hu).
    unfold NilZero.string_of_uint.
    destruct (Pos.to_uint p) eqn:Hd;
      try (exfalso; now apply (DecimalPos.Unsigned.to_uint_nonnil p));
      rewrite Hs; unfold GoStr.Atoi; rewrite Hm, Hp; cbn [orb]; rewrite Hu;
      rewrite <- Hd; unfold Z.of_uint; rewrite DecimalPos.Unsigned.of_to;
      cbn [Z.of_N]; now rewrite Hr.
  - simpl. destruct (Atoi_digits p) as (c & s & Hs & Hm & Hp & Hu).
    unfold NilZero.string_of_uint.
    destruct (Pos.to_uint p) eqn:Hd;
      try (exfalso; now apply (DecimalPos.Unsigned.to_uint_nonnil p));
      rewrite Hs; unfold GoStr.Atoi; cbn [Ascii.eqb Bool.eqb orb]; rewrite Hu;
      rewrite <- Hd; unfold Z.of_uint; rewrite DecimalPos.Unsigned.of_to;
      change (- Z.of_N (N.pos p)) with (Z.neg p); now rewrite Hr.
Qed.

Lemma Atoi_in_range (s : string) (n : Z) : GoStr.Atoi s = Some n -> GoInt.in_range n = true.
Proof.
  unfold GoStr.Atoi. destruct s as [|c rest]; [discriminate|].
  destruct (NilZero.uint_of_string _); [|discriminate].
  destruct (GoInt.in_range _) eqn:Hr; [|discriminate].
  now intros [= <-].
Qed.

(** ** The record store *)

Lemma conflicts_key (old new : Row) : conflicts old new = true <-> key old = key new.
Proof.
  unfold conflicts, key. rewrite andb_true_iff, String.eqb_eq, Z.eqb_eq.
  split; [intros [-> ->]; reflexivity | intros [= -> ->]; auto].
Qed.

Lemma conflicts_sym (a b : Row) : conflicts a b = conflicts b a.
Proof.
  unfold conflicts. now rewrite String.eqb_sym, Z.eqb_sym.
Qed.

Lemma conflicts_same_key (old a b : Row) :
  key a = key b -> conflicts old a = conflicts old b.
Proof.
  intros Hk.
  change (conflicts old a)
    with (String.eqb (col_product_id old) (fst (key a)) && (col_pcs old =? snd (key a))).
  now rewrite Hk.
Qed.

(** The statement assigns every column but the two of the key, which are
    equal on a conflict: the old row becomes the new one. *)
Lemma do_update_all_columns (old new : Row) :
  conflicts old new = true -> do_update old new = new.
Proof.
  intros H. apply conflicts_key in H. unfold key in H. injection H as Hid Hpcs.
  destruct new; unfold do_update; simpl in *. now rewrite Hid, Hpcs.
Qed.

Lemma upsert_fresh (new : Row) (tbl : Table) :
  existsb (fun old => conflicts old new) tbl = false ->
  insert_on_conflict_update new tbl = tbl ++ [new].
Proof.
  induction tbl as [|old rest IH]; simpl; [reflexivity|].
  intros H. apply orb_false_iff in H as [Hold Hrest].
  rewrite Hold. now rewrite IH.
Qed.

Lemma upsert_length_conflict (new : Row) (tbl : Table) :
  existsb (fun old => conflicts old new) tbl = true ->
  length (insert_on_conflict_update new tbl) = length tbl.
Proof.
  induction tbl as [|old rest IH]; simpl; [discriminate|].
  destruct (conflicts old new) eqn:Hc; simpl; [reflexivity|].
  intros H. now rewrite IH.
Qed.

Lemma upsert_keys_conflict (new : Row) (tbl : Table) :
  existsb (fun old => conflicts old new) tbl = true ->
  map key (insert_on_conflict_update new tbl) = map key tbl.
Proof.
  induction tbl as [|old rest IH]; simpl; [discriminate|].
  destruct (conflicts old new) eqn:Hc; simpl.
  - intros _. rewrite (do_update_all_columns _ _ Hc).
    apply conflicts_key in Hc. now rewrite Hc.
  - intros H. now rewrite IH.
Qed.

Lemma existsb_conflicts_key (new : Row) (tbl : Table) :
  existsb (fun old => conflicts old new) tbl = false -> ~ In (key new) (map key tbl).
Proof.
  induction tbl as [|old rest IH]; simpl; [tauto|].
  intros H. apply orb_false_iff in H as [Hold Hrest].
  intros [Heq | Hin]; [|now apply IH].
  apply conflicts_key in Heq. congruence.
Qed.

Lemma upsert_unique (new : Row) (tbl : Table) :
  unique_keys tbl -> unique_keys (insert_on_conflict_update new tbl).
Proof.
  unfold unique_keys. intros Hu.
  destruct (existsb (fun old => conflicts old new) tbl) eqn:He.
  - now rewrite upsert_keys_conflict.
  - rewrite upsert_fresh by assumption. rewrite map_app. simpl.
    apply NoDup_app. split; [assumption|]. split.
    + intros k Hk Hin. apply list_elem_of_In in Hk, Hin. simpl in Hin.
      destruct Hin as [<- | []]. now apply (existsb_conflicts_key new tbl).
    + apply NoDup_singleton.
Qed.

Lemma filter_no_conflict (new : Row) (tbl : Table) :
  ~ In (key new) (map key tbl) ->
  List.filter (fun old => conflicts old new) tbl = [].
Proof.
  induction tbl as [|old rest IH]; simpl; [reflexivity|].
  intros Hn. destruct (conflicts old new) eqn:Hc.
  - apply conflicts_key in Hc. exfalso. apply Hn. now left.
  - apply IH. intros Hin. apply Hn. now right.
Qed.

Lemma upsert_one_row (new : Row) (tbl : Table) :
  unique_keys tbl ->
  List.filter (fun old => conflicts old new) (insert_on_conflict_update new tbl) = [new].
Proof.
  unfold unique_keys.
  induction tbl as [|old rest IH]; simpl; intros Hu.
  - assert (Hn : conflicts new new = true) by now apply conflicts_key.
    now rewrite Hn.
  - apply NoDup_cons in Hu as [Hnotin Hu]. rewrite list_elem_of_In in Hnotin.
    destruct (conflicts old new) eqn:Hc; simpl.
    + rewrite (do_update_all_columns _ _ Hc).
      assert (Hn : conflicts new new = true) by now apply conflicts_key.
      rewrite Hn. f_equal. apply filter_no_conflict.
      apply conflicts_key in Hc. now rewrite <- Hc.
    + rewrite Hc. now apply IH.
Qed.

Lemma upsert_others (new : Row) (tbl : Table) :
  List.filter (fun old => negb (conflicts old new)) (insert_on_conflict_update new tbl)
  = List.filter (fun old => negb (conflicts old new)) tbl.
Proof.
  induction tbl as [|old rest IH]; simpl.
  - assert (Hn : conflicts new new = true) by now apply conflicts_key.
    now rewrite Hn.
  - destruct (conflicts old new) eqn:Hc; simpl.
    + rewrite (do_update_all_columns _ _ Hc).
      assert (Hn : conflicts new new = true) by now apply conflicts_key.
      now rewrite Hn.
    + rewrite Hc. simpl. now rewrite IH.
Qed.

Lemma upsert_twice (first second : Row) (tbl : Table) :
  key first = key second ->
  insert_on_conflict_update second (insert_on_conflict_update first tbl)
  = insert_on_conflict_update second tbl.
Proof.
  intros Hk. induction tbl as [|old rest IH]; simpl.
  - assert (Hc : conflicts first second = true) by now apply conflicts_key.
    rewrite Hc. now rewrite do_update_all_columns.
  - assert (Hsame : conflicts old first = conflicts old second)
      by now apply conflicts_same_key.
    rewrite Hsame. destruct (conflicts old second) eqn:Hc; simpl.
    + rewrite (do_update_all_columns old first) by congruence.
      assert (Hc' : conflicts first second = true) by now apply conflicts_key.
      rewrite Hc'. now rewrite !do_update_all_columns.
    + rewrite Hc. now rewrite IH.
Qed.

Lemma upsert_Forall (P : Row -> Prop) (new : Row) (tbl : Table) :
  P new -> Forall P tbl -> Forall P (insert_on_conflict_update new tbl).
Proof.
  intros Hnew. induction 1 as [|old rest Hold Hrest IH]; cbn [insert_on_conflict_update].
  - now constructor.
  - destruct (conflicts old new) eqn:Hc.
    + constructor; [|assumption]. now rewrite do_update_all_columns.
    + now constructor.
Qed.

Lemma row_of_key (params : SaveParams) (sku : string) (r : float) :
  key (row_of params sku r) = (ProductID params, Pcs params).
Proof.
  unfold row_of. destruct (calculateNewPriceAndDiscount r (OKPrice params)). reflexivity.
Qed.

Lemma existsb_conflicts_In (new : Row) (tbl : Table) :
  existsb (fun old => conflicts old new) tbl = true <-> In (key new) (map key tbl).
Proof.
  rewrite existsb_exists, in_map_iff. split.
  - intros (old & Hin & Hc). exists old. split; [now apply conflicts_key | assumption].
  - intros (old & Hk & Hin). exists old. split; [assumption | now apply conflicts_key].
Qed.

(** C7: [saveToDatabase] is an upsert keyed by [(product_id, pcs)].  The
    row it writes has the key [(ProductID, Pcs)] of the record and holds in
    every column the value of the record: the fields of the record, the
    stock-keeping identifier, the available count read from its text (0 when
    it does not read) and the display price and discount computed from the
    solved price.  On a table with unique keys, after the call the keys are
    still unique, exactly one row has the key of the record and it is that
    row, whole, and the other rows are the same; when the key was already
    stored the number of rows is unchanged, and when it is fresh exactly one
    row is appended.  Saving the same record again leaves one row for the
    key, holding the values of the second write. *)
Theorem saveToDatabase_upsert (db : Table) (params : SaveParams) (sku : string) (r : float) :
  unique_keys db ->
  let k := (ProductID params, Pcs params) in
  let has_key := fun old : Row => bool_decide (key old = k) in
  let row := row_of params sku r in
  let db' := saveToDatabase db params sku r in
  (key row = k
   /\ col_nm_id row = NmID params
   /\ col_vendor_code row = VendorCode params
   /\ col_width row = P_Width params
   /\ col_height row = P_Height params
   /\ col_length row = P_Length params
   /\ col_skus row = sku
   /\ col_price row = WbPrice params
   /\ col_discounted_price row = WbDiscountedPrice params
   /\ col_club_discounted_price row = WbClubDiscounted params
   /\ col_available_count row = default 0 (GoStr.Atoi (AvailableCountStr params))
   /\ col_cost row = Cost params
   /\ col_tariff row = Tariff params
   /\ col_commission row = P_Commission params
   /\ col_ok_price row = OKPrice params
   /\ (col_new_price row, col_new_discount row)
      = calculateNewPriceAndDiscount r (OKPrice params))
  /\ unique_keys db'
  /\ List.filter has_key db' = [row]
  /\ List.filter (fun old => negb (has_key old)) db'
     = List.filter (fun old => negb (has_key old)) db
  /\ (In k (map key db) -> length db' = length db)
  /\ (~ In k (map key db) -> db' = db ++ [row])
  /\ (forall r2 : float,
        saveToDatabase db' params sku r2 = saveToDatabase db params sku r2
        /\ List.filter has_key (saveToDatabase db' params sku r2) = [row_of params sku r2]).
Proof.
  intros Hu k has_key row db'.
  assert (Hk : forall r', key (row_of params sku r') = k) by (intros r'; apply row_of_key).
  assert (Hkr : key row = k) by apply Hk.
  assert (Hhas : forall r' old, has_key old = conflicts old (row_of params sku r')).
  { intros r' old. unfold has_key. rewrite <- (Hk r').
    destruct (conflicts old (row_of params sku r')) eqn:Hc.
    - apply bool_decide_eq_true. now apply conflicts_key.
    - apply bool_decide_eq_false. intros Heq. apply conflicts_key in Heq. congruence. }
  split.
  { split; [apply Hk|]. unfold row, row_of.
    destruct (calculateNewPriceAndDiscount r (OKPrice params)) as [newPrice newDiscount].
    cbn. unfold default. destruct (GoStr.Atoi (AvailableCountStr params));
      repeat split; reflexivity. }
  unfold db', saveToDatabase. fold row.
  split; [now apply upsert_unique|].
  split.
  { rewrite (List.filter_ext _ _ (Hhas r)). now apply upsert_one_row. }
  split.
  { rewrite !(List.filter_ext (fun old => negb (has_key old))
                (fun old => negb (conflicts old row)))
      by (intros old; now rewrite (Hhas r)).
    apply upsert_others. }
  split.
  { intros Hin. apply upsert_length_conflict. apply existsb_conflicts_In.
    now rewrite Hkr. }
  split.
  { intros Hnotin. apply upsert_fresh.
    destruct (existsb (fun old => conflicts old row) db) eqn:He; [|reflexivity].
    exfalso. apply Hnotin. apply existsb_conflicts_In in He. now rewrite Hkr in He. }
  intros r2.
  assert (Hkk : key row = key (row_of params sku r2)) by (unfold row; now rewrite !Hk).
  split; [now apply upsert_twice|].
  rewrite upsert_twice by assumption.
  rewrite (List.filter_ext _ _ (Hhas r2)). now apply upsert_one_row.
Qed.


(** ** The catalog walker *)

Section CatalogWalkerProperties.

Context {World : Type}.
Variable getCardsList : World -> string -> Z -> option CardsListResponse * World.

#[local] Abbreviation loop := (fetchAllCards_loop getCardsList).

Lemma length_zero_iff {A} (l : list A) : (Z.of_nat (length l) =? 0) = true <-> l = [].
Proof.
  destruct l; simpl; split; intros H; try reflexivity; discriminate.
Qed.

Lemma loop_failed fuel w allCards updatedAt nmID w' :
  getCardsList w updatedAt nmID = (None, w') ->
  loop (S fuel) w allCards updatedAt nmID = Some (allCards, w').
Proof. intros H. simpl. now rewrite H. Qed.

Lemma loop_no_cards fuel w allCards updatedAt nmID response w' :
  getCardsList w updatedAt nmID = (Some response, w') ->
  Cards response = [] ->
  loop (S fuel) w allCards updatedAt nmID = Some (allCards, w').
Proof. intros H Hc. simpl. rewrite H, Hc. reflexivity. Qed.

Lemma loop_empty_cursor fuel w allCards updatedAt nmID response w' :
  getCardsList w updatedAt nmID = (Some response, w') ->
  Cards response <> [] ->
  Cursor_UpdatedAt (Response_Cursor response) = EmptyString
  \/ Cursor_NmID (Response_Cursor response) = 0 ->
  loop (S fuel) w allCards updatedAt nmID = Some (allCards ++ Cards response, w').
Proof.
  intros H Hc Hcur. simpl. rewrite H.
  destruct (Z.of_nat (length (Cards response)) =? 0) eqn:Hlen.
  - apply length_zero_iff in Hlen. contradiction.
  - destruct Hcur as [-> | ->]; simpl; [reflexivity|].
    now rewrite orb_true_r.
Qed.

Lemma loop_continues fuel w allCards updatedAt nmID response w' :
  getCardsList w updatedAt nmID = (Some response, w') ->
  continues response ->
  loop (S fuel) w allCards updatedAt nmID
  = loop fuel w' (allCards ++ Cards response)
      (Cursor_UpdatedAt (Response_Cursor response)) (Cursor_NmID (Response_Cursor response)).
Proof.
  intros H (Hc & Hu & Hn). simpl. rewrite H.
  destruct (Z.of_nat (length (Cards response)) =? 0) eqn:Hlen.
  - apply length_zero_iff in Hlen. contradiction.
  - apply String.eqb_neq in Hu. apply Z.eqb_neq in Hn. now rewrite Hu, Hn.
Qed.

Lemma loop_served w updatedAt nmID pages w' :
  Served getCardsList w updatedAt nmID pages w' ->
  forall fuel allCards, (length pages < fuel)%nat ->
  loop fuel w allCards updatedAt nmID = Some (allCards ++ all_cards pages, w').
Proof.
  induction 1 as [w updatedAt nmID response w' Hget Hend
                 | w updatedAt nmID response w' pages w'' Hget Hcont Hrest IH];
    intros fuel allCards Hfuel.
  - destruct fuel as [|fuel]; [lia|].
    destruct response as [response|]; simpl in Hend.
    + destruct (list_eq_nil_dec (Cards response)) as [Hnil | Hcards].
      * rewrite (loop_no_cards _ _ _ _ _ _ _ Hget Hnil).
        unfold all_cards, pages_of. cbn [map concat]. now rewrite Hnil, !app_nil_r.
      * rewrite (loop_empty_cursor _ _ _ _ _ _ _ Hget Hcards) by tauto.
        unfold all_cards, pages_of. cbn [map concat]. now rewrite app_nil_r.
    + rewrite (loop_failed _ _ _ _ _ _ Hget). unfold all_cards, pages_of.
      cbn [map concat]. now rewrite app_nil_r.
  - destruct fuel as [|fuel]; [simpl in Hfuel; lia|].
    rewrite (loop_continues _ _ _ _ _ _ _ Hget Hcont).
    rewrite IH by (simpl in Hfuel; lia).
    unfold all_cards. cbn [map concat]. now rewrite app_assoc.
Qed.

(** C9: whenever the page source reaches end of data, [fetchAllCards] returns,
    with any bound above the number of pages, the cards of all the pages
    served, in order.  One turn of the loop stops when the request fails
    (with the cards accumulated so far), when the page has no card, or when
    the cursor of the page is empty or zero (after the page's cards have been
    appended); otherwise it appends the page's cards and asks again with the
    cursor of the page. *)
Theorem fetchAllCards_terminates (w : World) (pages : list CardsListResponse) (w' : World) :
  Served getCardsList w EmptyString 0 pages w' ->
  (forall fuel, (length pages < fuel)%nat ->
     fetchAllCards getCardsList fuel w = Some (all_cards pages, w'))
  /\ (forall fuel w0 allCards updatedAt nmID w1,
        getCardsList w0 updatedAt nmID = (None, w1) ->
        loop (S fuel) w0 allCards updatedAt nmID = Some (allCards, w1))
  /\ (forall fuel w0 allCards updatedAt nmID response w1,
        getCardsList w0 updatedAt nmID = (Some response, w1) ->
        (Cards response = [] ->
         loop (S fuel) w0 allCards updatedAt nmID = Some (allCards, w1))
        /\ (Cards response <> [] ->
            Cursor_UpdatedAt (Response_Cursor response) = EmptyString
            \/ Cursor_NmID (Response_Cursor response) = 0 ->
            loop (S fuel) w0 allCards updatedAt nmID = Some (allCards ++ Cards response, w1))
        /\ (continues response ->
            loop (S fuel) w0 allCards updatedAt nmID
            = loop fuel w1 (allCards ++ Cards response)
                (Cursor_UpdatedAt (Response_Cursor response))
                (Cursor_NmID (Response_Cursor response)))).
Proof.
  intros Hserved. split; [|split].
  - intros fuel Hfuel. unfold fetchAllCards.
    now rewrite (loop_served _ _ _ _ _ Hserved fuel [] Hfuel).
  - intros. now apply loop_failed.
  - intros fuel w0 allCards updatedAt nmID response w1 Hget. repeat split.
    + now apply loop_no_cards.
    + now apply loop_empty_cursor.
    + now apply loop_continues.
Qed.

End CatalogWalkerProperties.

(** ** The vendor code decoder *)

Lemma Split_nonempty (s : string) (sep : ascii) : GoStr.Split s sep <> [].
Proof.
  destruct s as [|c s]; simpl; [discriminate|].
  destruct (Ascii.eqb c sep); [discriminate|].
  destruct (GoStr.Split s sep); discriminate.
Qed.

Lemma length_one {A} (l : list A) (d : A) : Z.of_nat (length l) = 1 -> l = [nth 0 l d].
Proof.
  destruct l as [|a [|b l]]; simpl; intros H; try lia. reflexivity.
Qed.

Lemma decode_pcs (usePcs : bool) (parts : list string) :
  (if (2 <? Z.of_nat (length parts)) && usePcs then
     match GoStr.Atoi (nth 2 parts EmptyString) with
     | Some val => val
     | None => 1
     end
   else 1) = packCount usePcs parts.
Proof.
  destruct parts as [|a [|b [|c rest]]]; try reflexivity.
  unfold packCount. cbn [nth].
  replace (2 <? Z.of_nat (length (a :: b :: c :: rest))) with true; [reflexivity|].
  symmetry. apply Z.ltb_lt. simpl length. lia.
Qed.

Lemma packCount_in_range (usePcs : bool) (parts : list string) :
  GoInt.in_range (packCount usePcs parts) = true.
Proof.
  destruct parts as [|a [|b [|c rest]]]; try reflexivity.
  unfold packCount. destruct usePcs; [|reflexivity].
  destruct (GoStr.Atoi c) eqn:Ha; [|reflexivity]. now apply Atoi_in_range in Ha.
Qed.

Lemma decode_accepted (re : Regexp.t) (usePcs : bool) (skuMap : gmap Z (list string))
    (card : Card) (productID : string) (pcsInt : Z) (sku : string) :
  decodeVendorCode re usePcs skuMap card = Accepted productID pcsInt sku <->
  Regexp.MatchString re (Card_VendorCode card) = true
  /\ default [] (skuMap !! Card_NmID card) = [sku]
  /\ (2 <= length (GoStr.Split (Card_VendorCode card) "_"))%nat
  /\ productID = nth 1 (GoStr.Split (Card_VendorCode card) "_") EmptyString
  /\ pcsInt = packCount usePcs (GoStr.Split (Card_VendorCode card) "_").
Proof.
  unfold decodeVendorCode. rewrite decode_pcs.
  destruct (Regexp.MatchString re (Card_VendorCode card)); cbn [negb].
  2: { split; [discriminate | intros [? _]; discriminate]. }
  destruct (Z.of_nat (length (default [] (skuMap !! Card_NmID card))) =? 1) eqn:Hsku;
    cbn [negb].
  2: { split; [discriminate|]. intros (_ & Hs & _). rewrite Hs in Hsku. discriminate. }
  apply Z.eqb_eq in Hsku. apply (length_one _ EmptyString) in Hsku.
  destruct (Z.of_nat (length (GoStr.Split (Card_VendorCode card) "_")) <? 2) eqn:Hlen.
  - apply Z.ltb_lt in Hlen. split; [discriminate|]. intros (_ & _ & Hl & _). lia.
  - apply Z.ltb_ge in Hlen. split.
    + intros [= <- <- <-]. repeat split; try assumption; lia.
    + intros (_ & Hs & _ & -> & ->). rewrite Hs. reflexivity.
Qed.

Lemma decode_panic (re : Regexp.t) (usePcs : bool) (skuMap : gmap Z (list string))
    (card : Card) :
  decodeVendorCode re usePcs skuMap card = PanicSKU <->
  Regexp.MatchString re (Card_VendorCode card) = true
  /\ length (default [] (skuMap !! Card_NmID card)) <> 1%nat.
Proof.
  unfold decodeVendorCode.
  destruct (Regexp.MatchString re (Card_VendorCode card)); cbn [negb].
  2: { split; [discriminate | intros [? _]; discriminate]. }
  destruct (Z.of_nat (length (default [] (skuMap !! Card_NmID card))) =? 1) eqn:Hsku;
    cbn [negb].
  - apply Z.eqb_eq in Hsku.
    destruct (Z.of_nat (length (GoStr.Split (Card_VendorCode card) "_")) <? 2);
      (split; [discriminate | intros [_ H]; lia]).
  - apply Z.eqb_neq in Hsku. split; [intros _; split; [reflexivity | lia] | reflexivity].
Qed.

(** ** The pricing model *)

Lemma SFeqb_refl_finite (x : spec_float) :
  match x with S754_nan => False | _ => True end -> SFeqb x x = true.
Proof.
  destruct x as [s|s| |s m e]; intros H; try contradiction; unfold SFeqb; cbn.
  - reflexivity.
  - now destruct s.
  - rewrite Z.compare_refl, Pos.compare_cont_refl. now destruct s.
Qed.

(** The tariff at a volume of one litre, on the specification level: it
    equals the base exactly when the cost per litre is finite and the base
    is not NaN. *)
Lemma SF_tariff_at_one (l b : spec_float) :
  SFeqb (SF64add (SF64mul (S754_zero false) l) b) b = true
  <-> match l with S754_zero _ | S754_finite _ _ _ => True | _ => False end
      /\ SFeqb b b = true.
Proof.
  destruct l as [sl|sl| |sl ml el]; destruct b as [sb|sb| |sb mb eb];
    try (cbn; split; [intros H; try discriminate; now split | now intros [? ?]]);
    destruct sl, sb; cbn; now split.
Qed.

Lemma is_finite_spec (f : float) :
  GoFloat.is_finite f = true
  <-> match Prim2SF f with S754_zero _ | S754_finite _ _ _ => True | _ => False end.
Proof. unfold GoFloat.is_finite. destruct (Prim2SF f); split; auto; discriminate. Qed.

(** C8 (as the code has it): at a volume of exactly one litre the tariff
    equals [base] exactly when [perLiter] is finite and [base] is not NaN (an
    infinite [base] included); dimensions (10, 10, 10) are one litre, and with
    [base = 50] and [perLiter = 10] the tariff is 50.  The formula is
    [(volumeLiters - 1) * perLiter + base] and nothing else: below one litre
    it is below [base], and it can be negative. *)
Theorem tariff_at_one_liter (base perLiter : float) :
  ((CalculateTariff 1 base perLiter =? base)%float = true
   <-> GoFloat.is_finite perLiter = true /\ PrimFloat.is_nan base = false)
  /\ CalculateVolumeLiters 10 10 10 = 1%float
  /\ CalculateTariff (CalculateVolumeLiters 10 10 10) 50 10 = 50%float
  /\ (forall volumeLiters b l : float,
        CalculateTariff volumeLiters b l = ((volumeLiters - 1) * l + b)%float)
  /\ CalculateTariff 0.5 50 10 = 45%float
  /\ (CalculateTariff 0.5 50 10 <? 50)%float = true
  /\ (CalculateTariff 0 1 10 <? 0)%float = true.
Proof.
  split.
  - unfold CalculateTariff, PrimFloat.is_nan.
    rewrite !FloatAxioms.eqb_spec, FloatAxioms.add_spec, FloatAxioms.mul_spec.
    replace (Prim2SF (1 - 1)) with (S754_zero false) by (vm_compute; reflexivity).
    rewrite SF_tariff_at_one, is_finite_spec, negb_false_iff. reflexivity.
  - repeat split; vm_compute; reflexivity.
Qed.

(** [CalcPrice], outcome by outcome. *)
Lemma CalcPrice_cases (desiredMargin taxRate commissionRate fixedCosts : float) :
  let denominator := ((1 - taxRate - commissionRate) - desiredMargin)%float in
  let price := (fixedCosts / denominator)%float in
  (CalcPrice desiredMargin taxRate commissionRate fixedCosts = Err InfeasibleMargin
   <-> (denominator <=? 0)%float = true)
  /\ (CalcPrice desiredMargin taxRate commissionRate fixedCosts = Err NegativePrice
      <-> (denominator <=? 0)%float = false /\ (price <? 0)%float = true)
  /\ (forall p, CalcPrice desiredMargin taxRate commissionRate fixedCosts = Ok p
      <-> (denominator <=? 0)%float = false /\ (price <? 0)%float = false /\ p = price).
Proof.
  intros denominator price. unfold CalcPrice. fold denominator. fold price.
  destruct (denominator <=? 0)%float; [|destruct (price <? 0)%float].
  - split; [tauto|]. split; [|intros p]; (split; [discriminate | intros [? _]; discriminate]).
  - split; [split; discriminate|]. split; [tauto|].
    intros p. split; [discriminate | intros (_ & ? & _); discriminate].
  - split; [split; discriminate|]. split; [split; [discriminate | intros [_ ?]; discriminate]|].
    intros p. split; [intros [= <-]; auto | intros (_ & _ & ->); reflexivity].
Qed.

(** ** Binary64 division by five, on the specification level

    What is needed of [SFdiv] to know when [math.Round(x / 5)] is zero: the
    quotient of a float below 2.5 is below one half. *)

Lemma digits2_size (p : positive) : digits2_pos p = Pos.size p.
Proof. induction p; simpl; congruence. Qed.

Lemma digits2_bounds (p : positive) :
  2 ^ (Zpos (digits2_pos p) - 1) <= Zpos p < 2 ^ Zpos (digits2_pos p).
Proof.
  rewrite digits2_size. split.
  - pose proof (Pos.size_le p) as H.
    apply Pos2Z.pos_le_pos in H. rewrite Pos2Z.inj_pow in H.
    replace (Zpos (Pos.size p)) with (1 + (Zpos (Pos.size p) - 1)) in H by lia.
    rewrite Z.pow_add_r, Z.pow_1_r in H by lia. rewrite (Pos2Z.inj_xO p) in H. lia.
  - pose proof (Pos.size_gt p) as H.
    apply Pos2Z.pos_lt_pos in H. now rewrite Pos2Z.inj_pow in H.
Qed.

Lemma Zdigits2_le (q k : Z) : 0 <= q < 2 ^ k -> 0 <= k -> Zdigits2 q <= k.
Proof.
  intros [Hq Hlt] Hk. destruct q as [|p|p]; [assumption| |lia].
  cbn [Zdigits2]. pose proof (digits2_bounds p) as [Hlo _].
  destruct (Z_le_gt_dec (Zpos (digits2_pos p)) k) as [|Hgt]; [assumption|].
  exfalso. assert (2 ^ k <= 2 ^ (Zpos (digits2_pos p) - 1)) by (apply Z.pow_le_mono_r; lia).
  lia.
Qed.

Lemma Zdigits2_nonneg (q : Z) : 0 <= Zdigits2 q.
Proof. destruct q; cbn; lia. Qed.

Lemma shr_1_m (mrs : shr_record) :
  0 <= shr_m mrs -> shr_m (shr_1 mrs) = Z.div2 (shr_m mrs).
Proof. destruct mrs as [[|[p|p|]|p] r s]; cbn [shr_m]; intros H; try reflexivity; lia. Qed.

Lemma iter_shr_1_m (p : positive) :
  forall mrs, 0 <= shr_m mrs ->
  shr_m (SpecFloat.iter_pos shr_1 p mrs) = shr_m mrs / 2 ^ Zpos p.
Proof.
  assert (Hstep : forall mrs, 0 <= shr_m mrs ->
            shr_m (shr_1 mrs) = shr_m mrs / 2 /\ 0 <= shr_m (shr_1 mrs)).
  { intros mrs H. rewrite shr_1_m, Z.div2_div by assumption. split; [reflexivity|].
    apply Z.div_pos; lia. }
  induction p as [p IH|p IH|]; intros mrs Hm; cbn [SpecFloat.iter_pos].
  - destruct (Hstep mrs Hm) as [H1 H1'].
    rewrite IH.
    + rewrite IH by assumption. rewrite H1.
      rewrite !Z.div_div by lia. f_equal.
      rewrite (Pos2Z.inj_xI p). replace (2 * Zpos p + 1) with (1 + Zpos p + Zpos p) by lia.
      rewrite !Z.pow_add_r by lia. lia.
    + rewrite IH by assumption. apply Z.div_pos; [assumption | lia].
  - rewrite IH.
    + rewrite IH by assumption. rewrite Z.div_div by lia. f_equal.
      rewrite (Pos2Z.inj_xO p). replace (2 * Zpos p) with (Zpos p + Zpos p) by lia.
      now rewrite Z.pow_add_r by lia.
    + rewrite IH by assumption. apply Z.div_pos; [assumption | lia].
  - now destruct (Hstep mrs Hm).
Qed.

Lemma shr_spec (mrs : shr_record) (e n : Z) :
  0 <= shr_m mrs ->
  shr_m (fst (shr mrs e n)) = shr_m mrs / 2 ^ Z.max 0 n
  /\ snd (shr mrs e n) = e + Z.max 0 n.
Proof.
  intros Hm. unfold shr. destruct n as [|p|p]; cbn [fst snd].
  - rewrite Z.div_1_r. split; [reflexivity | lia].
  - rewrite iter_shr_1_m by assumption. split; [reflexivity | lia].
  - rewrite Z.div_1_r. split; [reflexivity | lia].
Qed.

Lemma shr_record_of_loc_m (m : Z) (l : location) : shr_m (shr_record_of_loc m l) = m.
Proof. destruct l as [|[]]; reflexivity. Qed.

Lemma shr_fexp_spec (m e : Z) (l : location) :
  0 <= m ->
  let n := Z.max 0 (fexp prec emax (Zdigits2 m + e) - e) in
  shr_m (fst (shr_fexp prec emax m e l)) = m / 2 ^ n
  /\ snd (shr_fexp prec emax m e l) = e + n.
Proof.
  intros Hm n. unfold shr_fexp.
  pose proof (shr_spec (shr_record_of_loc m l) e (fexp prec emax (Zdigits2 m + e) - e)) as H.
  rewrite shr_record_of_loc_m in H. now apply H.
Qed.

Lemma round_nearest_even_bounds (m : Z) (l : location) :
  m <= round_nearest_even m l <= m + 1.
Proof.
  unfold round_nearest_even. destruct l as [|[]]; try lia. destruct (Z.even m); lia.
Qed.

(** The result of rounding a non-negative mantissa that, one unit up, is
    still below one half: a zero or a finite float below one half. *)
Lemma binary_round_aux_below_half (m e : Z) (l : location) :
  0 <= m ->
  let n := Z.max 0 (fexp prec emax (Zdigits2 m + e) - e) in
  m / 2 ^ n + 1 < 2 ^ (- 1 - (e + n)) ->
  match binary_round_aux prec emax false m e l with
  | S754_zero s => s = false
  | S754_finite s m' e' => s = false /\ e' < 0 /\ Zpos m' < 2 ^ (- e' - 1)
  | _ => False
  end.
Proof.
  intros Hm n Hlt. unfold binary_round_aux.
  destruct (shr_fexp_spec m e l Hm) as [Hm1 He1]. fold n in Hm1, He1.
  destruct (shr_fexp prec emax m e l) as [mrs1 e1]. cbn [fst snd] in Hm1, He1.
  set (m1' := round_nearest_even (shr_m mrs1) (loc_of_shr_record mrs1)).
  assert (Hm1pos : 0 <= shr_m mrs1) by (rewrite Hm1; apply Z.div_pos; lia).
  pose proof (round_nearest_even_bounds (shr_m mrs1) (loc_of_shr_record mrs1)) as Hr.
  fold m1' in Hr.
  assert (Hm1' : 0 <= m1') by lia.
  destruct (shr_fexp_spec m1' e1 loc_Exact Hm1') as [Hm2 He2].
  set (n2 := Z.max 0 (fexp prec emax (Zdigits2 m1' + e1) - e1)) in Hm2, He2.
  destruct (shr_fexp prec emax m1' e1 loc_Exact) as [mrs2 e2]. cbn [fst snd] in Hm2, He2.
  set (K := - 1 - e1).
  assert (HK : m1' < 2 ^ K) by (unfold K; rewrite He1; lia).
  assert (HKpos : 0 <= K).
  { destruct (Z_lt_le_dec K 0) as [Hneg|]; [|assumption].
    rewrite (Z.pow_neg_r 2 K Hneg) in HK. lia. }
  destruct (shr_m mrs2) as [|m2|m2] eqn:Hshr; [reflexivity| |].
  - assert (Hn2 : 0 <= n2) by (unfold n2; lia).
    assert (Hge : 2 ^ n2 <= m1').
    { destruct (Z_lt_le_dec m1' (2 ^ n2)) as [Hsmall|]; [|assumption].
      rewrite Z.div_small in Hm2 by lia. discriminate. }
    assert (Hn2K : n2 < K).
    { destruct (Z_lt_le_dec n2 K) as [|Hbig]; [assumption|].
      assert (2 ^ K <= 2 ^ n2) by (apply Z.pow_le_mono_r; lia). lia. }
    assert (He2neg : e2 < 0) by lia.
    replace (e2 <=? emax - prec) with true
      by (symmetry; apply Z.leb_le; unfold emax, prec; lia).
    split; [reflexivity|]. split; [assumption|].
    rewrite Hm2. replace (- e2 - 1) with (K - n2) by lia.
    apply Z.div_lt_upper_bound; [lia|].
    rewrite <- Z.pow_add_r by lia. now replace (n2 + (K - n2)) with K by lia.
  - exfalso. assert (0 <= m1' / 2 ^ n2) by (apply Z.div_pos; lia). lia.
Qed.

Lemma div_div_below (A my n K : Z) :
  0 <= A -> 0 < my -> 0 <= n -> 0 <= K ->
  A + my * 2 ^ n < my * 2 ^ (K + n) ->
  A / my / 2 ^ n + 1 < 2 ^ K.
Proof.
  intros HA Hmy Hn HK Hlt.
  assert (Hpn : 0 < 2 ^ n) by (apply Z.pow_pos_nonneg; lia).
  assert (HpK : 0 < 2 ^ K) by (apply Z.pow_pos_nonneg; lia).
  rewrite Z.pow_add_r in Hlt by lia.
  rewrite Z.div_div by lia.
  assert (A / (my * 2 ^ n) < 2 ^ K - 1); [|lia].
  apply Z.div_lt_upper_bound; nia.
Qed.

Lemma shifted_mantissa (M s : Z) :
  0 <= s ->
  match s with
  | Zpos _ => Z.shiftl M s
  | Z0 => M
  | Zneg _ => 0
  end = M * 2 ^ s.
Proof.
  intros Hs. destruct s as [|p|p]; [cbn; lia | now rewrite Z.shiftl_mul_pow2 | lia].
Qed.

Lemma five_mantissa_value : Zpos five_mantissa = 5 * 2 ^ 50.
Proof. reflexivity. Qed.

(** A positive binary64 below 2.5, divided by 5, is zero or below one half. *)
Lemma SFdiv5_below_half (mx : positive) (ex : Z) :
  valid_binary (S754_finite false mx ex) = true ->
  SFltb (S754_finite false mx ex) (S754_finite false five_mantissa (-51)) = true ->
  match SF64div (S754_finite false mx ex) (S754_finite false five_mantissa (-50)) with
  | S754_zero s => s = false
  | S754_finite s m e => s = false /\ e < 0 /\ Zpos m < 2 ^ (- e - 1)
  | _ => False
  end.
Proof.
  intros Hvalid Hlt.
  (* what validity and the comparison say *)
  pose proof (digits2_bounds mx) as [Hdlo Hdhi].
  set (d1 := Zpos (digits2_pos mx)) in *.
  assert (Hd1 : 1 <= d1) by (unfold d1; lia).
  cbn [SpecFloat.valid_binary] in Hvalid. unfold bounded, canonical_mantissa in Hvalid.
  apply andb_true_iff in Hvalid as [Hcanon Hemax].
  apply Z.eqb_eq in Hcanon. apply Z.leb_le in Hemax. fold d1 in Hcanon.
  unfold fexp, SpecFloat.emin, prec, emax in Hcanon.
  assert (Hd53 : d1 <= 53) by lia.
  assert (Hex : -1074 <= ex) by lia.
  assert (HM53 : Zpos mx < 2 ^ 53).
  { assert (2 ^ d1 <= 2 ^ 53) by (apply Z.pow_le_mono_r; lia). lia. }
  assert (Hcases : ex < -51 \/ (ex = -51 /\ Zpos mx < Zpos five_mantissa)).
  { unfold SFltb, SFcompare in Hlt. destruct (ex ?= -51) eqn:Hc.
    - apply Z.compare_eq in Hc. right. split; [assumption|].
      destruct (Pos.compare_cont Eq mx five_mantissa) eqn:Hp; try discriminate.
      assert (Hp' : Pos.compare mx five_mantissa = Lt) by exact Hp.
      apply Pos.compare_lt_iff in Hp'. now apply Pos2Z.pos_lt_pos.
    - left. now apply Z.compare_lt_iff in Hc.
    - discriminate. }
  (* the quotient and its exponent *)
  unfold SF64div, SFdiv, SFdiv_core_binary. cbn [xorb].
  change (Zdigits2 (Zpos mx)) with d1.
  change (Zdigits2 (Zpos five_mantissa)) with 53.
  set (e' := Z.min (fexp prec emax (d1 + ex - (53 + -50))) (ex - -50)).
  set (s := ex - -50 - e').
  assert (He' : e' = Z.min (Z.max (d1 + ex - 56) (-1074)) (ex + 50)).
  { unfold e', fexp, SpecFloat.emin, prec, emax. lia. }
  assert (Hs : 0 <= s) by (unfold s; lia).
  rewrite (shifted_mantissa (Zpos mx) s Hs).
  pose proof (Z_div_mod (Zpos mx * 2 ^ s) (Zpos five_mantissa) ltac:(lia)) as Hdiv.
  assert (Hq : fst (Z.div_eucl (Zpos mx * 2 ^ s) (Zpos five_mantissa))
               = Zpos mx * 2 ^ s / Zpos five_mantissa) by reflexivity.
  destruct (Z.div_eucl (Zpos mx * 2 ^ s) (Zpos five_mantissa)) as [q r].
  cbn [fst] in Hq. destruct Hdiv as [_ Hr].
  assert (Hps : 0 < 2 ^ s) by (apply Z.pow_pos_nonneg; lia).
  assert (Hq0 : 0 <= q) by (rewrite Hq; apply Z.div_pos; lia).
  apply binary_round_aux_below_half; [assumption|].
  set (n := Z.max 0 (fexp prec emax (Zdigits2 q + e') - e')).
  assert (Hn : n = Z.max 0 (Z.max (Zdigits2 q + e' - 53) (-1074) - e')).
  { unfold n, fexp, SpecFloat.emin, prec, emax. lia. }
  pose proof (Zdigits2_nonneg q) as Hdq0.
  rewrite Hq. rewrite five_mantissa_value in *.
  destruct Hcases as [Hlow | [Hex51 HMlt]].
  - (* below 2: the quotient is below 0.4 *)
    assert (Hqlt : q < 2 ^ (s + 1)).
    { rewrite Hq. apply Z.div_lt_upper_bound; [lia|].
      rewrite Z.pow_add_r by lia. change (2 ^ 53) with (8 * 2 ^ 50) in HM53. nia. }
    assert (Hdq : Zdigits2 q <= s + 1) by (apply Zdigits2_le; lia).
    assert (Hns : n + 50 <= s) by (unfold s in *; lia).
    assert (Hn0 : 0 <= n) by lia.
    apply div_div_below; try lia.
    replace (- 1 - (e' + n) + n) with ((- 51 - ex - 1) + 1 + (s - n - 50) + 50 + n)
      by (unfold s; lia).
    rewrite !Z.pow_add_r by lia.
    replace s with ((s - n - 50) + 50 + n) at 1 by lia.
    rewrite !Z.pow_add_r by lia.
    assert (0 < 2 ^ (- 51 - ex - 1)) by (apply Z.pow_pos_nonneg; lia).
    assert (0 < 2 ^ (s - n - 50)) by (apply Z.pow_pos_nonneg; lia).
    assert (0 < 2 ^ n) by (apply Z.pow_pos_nonneg; lia).
    change (2 ^ 53) with (8 * 2 ^ 50) in HM53.
    change (2 ^ 1) with 2.
    set (a := 2 ^ (- 51 - ex - 1)) in *. set (b := 2 ^ (s - n - 50)) in *.
    set (c := 2 ^ n) in *. set (u := 2 ^ 50) in *.
    assert (0 < u) by (unfold u; lia).
    assert (Zpos mx * (b * u * c) + 5 * u * c < 5 * u * (1 * 2 * (b * u * c))); [|nia].
    assert (1 <= b * u) by nia.
    assert (Zpos mx * (b * u * c) <= (8 * u - 1) * (b * u * c)) by nia.
    nia.
  - (* between 2 and 2.5 *)
    assert (d1 = 53) by lia.
    assert (He54 : e' = -54) by lia.
    assert (Hs53 : s = 53) by (unfold s; lia).
    assert (Hqlt : q < 2 ^ 53).
    { rewrite Hq, Hs53. apply Z.div_lt_upper_bound; [lia|]. nia. }
    assert (Hdq : Zdigits2 q <= 53) by (apply Zdigits2_le; lia).
    assert (Hn0 : n = 0) by lia.
    rewrite Hn0, He54, Hs53. apply div_div_below; lia.
Qed.

(** ** The display price and the discount *)

(** Rounding a non-negative mantissa never yields NaN, and keeps the sign. *)
Lemma binary_round_aux_sign (sx : bool) (m e : Z) (l : location) :
  0 <= m ->
  match binary_round_aux prec emax sx m e l with
  | S754_zero s | S754_infinity s | S754_finite s _ _ => s = sx
  | S754_nan => False
  end.
Proof.
  intros Hm. unfold binary_round_aux.
  destruct (shr_fexp_spec m e l Hm) as [Hm1 _].
  destruct (shr_fexp prec emax m e l) as [mrs1 e1]. cbn [fst] in Hm1.
  assert (Hm1pos : 0 <= shr_m mrs1).
  { rewrite Hm1. apply Z.div_pos; [assumption|]. apply Z.pow_pos_nonneg; lia. }
  pose proof (round_nearest_even_bounds (shr_m mrs1) (loc_of_shr_record mrs1)) as Hr.
  set (m1' := round_nearest_even (shr_m mrs1) (loc_of_shr_record mrs1)) in *.
  assert (Hm1' : 0 <= m1') by lia.
  destruct (shr_fexp_spec m1' e1 loc_Exact Hm1') as [Hm2 _].
  destruct (shr_fexp prec emax m1' e1 loc_Exact) as [mrs2 e2]. cbn [fst] in Hm2.
  destruct (shr_m mrs2) as [|m2|m2] eqn:Hshr; [reflexivity| |].
  - now destruct (e2 <=? emax - prec).
  - assert (0 <= m1' / 2 ^ Z.max 0 (fexp prec emax (Zdigits2 m1' + e1) - e1)).
    { apply Z.div_pos; [assumption|]. apply Z.pow_pos_nonneg; lia. }
    lia.
Qed.

Lemma solved_price_SF (okPrice : float) :
  (okPrice <? 0)%float = false -> not_negative (Prim2SF okPrice).
Proof.
  rewrite FloatAxioms.ltb_spec.
  replace (Prim2SF 0) with (S754_zero false) by reflexivity.
  destruct (Prim2SF okPrice) as [s|[|]| |[|] mo eo];
    cbv beta iota delta [SFltb SFcompare not_negative];
    try discriminate; try reflexivity; trivial.
Qed.

Lemma CalcPrice_not_negative (desiredMargin taxRate rate fixedCosts okPrice : float) :
  CalcPrice desiredMargin taxRate rate fixedCosts = Ok okPrice ->
  (okPrice <? 0)%float = false.
Proof.
  intros H. apply CalcPrice_cases in H as (_ & H & ->). exact H.
Qed.

Lemma markup_SF (m : float) :
  (1.3 <=? m)%float = true -> (m <? 1.5)%float = true -> positive_finite (Prim2SF m).
Proof.
  rewrite FloatAxioms.leb_spec, FloatAxioms.ltb_spec.
  replace (Prim2SF 1.3) with (S754_finite false 5854679515581645 (-52)) by reflexivity.
  replace (Prim2SF 1.5) with (S754_finite false 6755399441055744 (-52)) by reflexivity.
  destruct (Prim2SF m) as [s|s| |[|] mm em];
    cbv beta iota delta [SFleb SFltb SFcompare positive_finite];
    try discriminate; try reflexivity.
  destruct s; discriminate.
Qed.

(** The product of a solved price and a markup, when it is below 2.5: both
    the price and the product are finite. *)
Lemma product_SF (x y : spec_float) :
  not_negative x -> positive_finite y ->
  SFltb (SF64mul x y) (S754_finite false five_mantissa (-51)) = true ->
  nonneg_finite x /\ nonneg_finite (SF64mul x y).
Proof.
  destruct x as [sx|sx| |sx mx ex]; cbn [not_negative]; intros Hx;
    destruct y as [sy|sy| |sy my ey]; cbn [positive_finite]; try contradiction;
    intros Hy; subst; unfold SF64mul, SFmul; cbn [xorb];
    cbv beta iota delta [SFltb SFcompare nonneg_finite]; try discriminate.
  - intros _. split; trivial.
  - pose proof (binary_round_aux_sign false (Zpos (mx * my)) (ex + ey) loc_Exact
                  ltac:(lia)) as Hs.
    destruct (binary_round_aux prec emax false (Zpos (mx * my)) (ex + ey) loc_Exact)
      as [s|s| |s mz ez];
      try discriminate; try contradiction; intros Hlt; split; try trivial.
    subst s. discriminate.
Qed.

Lemma product_not_nan (x y : spec_float) :
  not_negative x -> x <> S754_nan -> positive_finite y ->
  match SF64mul x y with
  | S754_zero _ => True
  | S754_infinity s | S754_finite s _ _ => s = false
  | S754_nan => False
  end.
Proof.
  destruct x as [sx|sx| |sx mx ex]; cbn [not_negative]; intros Hx Hnan;
    destruct y as [sy|sy| |sy my ey]; cbn [positive_finite]; try contradiction;
    intros Hy; subst; unfold SF64mul, SFmul; cbn [xorb]; try trivial;
    try (exfalso; now apply Hnan).
  pose proof (binary_round_aux_sign false (Zpos (mx * my)) (ex + ey) loc_Exact
                ltac:(lia)) as Hs.
  destruct (binary_round_aux prec emax false (Zpos (mx * my)) (ex + ey) loc_Exact);
    try assumption; trivial.
Qed.

(** Below 2.5, the fifth of a non-negative float rounds to zero. *)
Lemma Round_fifth_zero (x : float) :
  nonneg_finite (Prim2SF x) ->
  (x <? 2.5)%float = true ->
  exists s, Prim2SF (GoFloat.Round (x / 5)) = S754_zero s.
Proof.
  intros Hx Hlt. rewrite FloatAxioms.ltb_spec in Hlt.
  replace (Prim2SF 2.5) with (S754_finite false five_mantissa (-51)) in Hlt by reflexivity.
  pose proof (Prim2SF_valid x) as Hvalid.
  assert (Hq : Prim2SF (x / 5)
               = SF64div (Prim2SF x) (S754_finite false five_mantissa (-50))).
  { rewrite FloatAxioms.div_spec. reflexivity. }
  unfold GoFloat.Round.
  destruct (Prim2SF x) as [s|s| |s mx ex]; cbn in Hx; try contradiction.
  - cbn in Hq. rewrite Hq. exists (xorb s false). exact Hq.
  - subst s. pose proof (SFdiv5_below_half mx ex Hvalid Hlt) as Hhalf.
    rewrite <- Hq in Hhalf.
    destruct (Prim2SF (x / 5)) as [s|s| |s mq eq] eqn:Hquot; try contradiction.
    + exists s. exact Hquot.
    + destruct Hhalf as (-> & Heq & Hmq).
      replace (0 <=? eq) with false by (symmetry; apply Z.leb_gt; lia).
      assert (Hpow : 2 ^ (- eq) = 2 * 2 ^ (- eq - 1)).
      { replace (- eq) with (1 + (- eq - 1)) at 1 by lia.
        rewrite Z.pow_add_r by lia. reflexivity. }
      assert (H0 : 0 < 2 ^ (- eq - 1)) by (apply Z.pow_pos_nonneg; lia).
      rewrite Z.div_small by lia. cbn. exists false. reflexivity.
Qed.

Lemma not_below_is_above (x : spec_float) (mc : positive) (ec : Z) :
  match x with
  | S754_zero _ => True
  | S754_infinity s | S754_finite s _ _ => s = false
  | S754_nan => False
  end ->
  SFltb x (S754_finite false mc ec) = false ->
  SFleb (S754_finite false mc ec) x = true.
Proof.
  destruct x as [s|s| |s mx ex]; intros Hx; try contradiction; try subst s;
    cbv beta iota delta [SFltb SFleb SFcompare]; try discriminate; try reflexivity.
  rewrite (Z.compare_antisym ex ec).
  destruct (ex ?= ec); cbn [CompOpp]; try discriminate; try reflexivity.
  change (Pos.compare_cont Eq mc mx) with (Pos.compare mc mx).
  change (Pos.compare_cont Eq mx mc) with (Pos.compare mx mc).
  rewrite (Pos.compare_antisym mx mc).
  destruct (Pos.compare mx mc); cbn [CompOpp]; try discriminate; reflexivity.
Qed.

(** Dividing a solved price by a display price of zero: the quotient is an
    infinity or NaN, and so is the value the discount is converted from. *)
Lemma discount_by_zero (okPrice : float) :
  nonneg_finite (Prim2SF okPrice) ->
  GoFloat.is_finite (okPrice / GoFloat.float64_of_int 0) = false
  /\ GoFloat.int_representable (GoFloat.Round (discount_arg okPrice 0)) = false
  /\ newDiscount_of okPrice 0 = GoInt.int_min.
Proof.
  intros Hok.
  assert (H100 : exists m e, Prim2SF 100 = S754_finite false m e)
    by (eexists; eexists; reflexivity).
  destruct H100 as (m100 & e100 & H100).
  assert (Hquot : Prim2SF (okPrice / GoFloat.float64_of_int 0) = S754_nan
                  \/ Prim2SF (okPrice / GoFloat.float64_of_int 0) = S754_infinity false).
  { rewrite FloatAxioms.div_spec.
    replace (Prim2SF (GoFloat.float64_of_int 0)) with (S754_zero false) by reflexivity.
    destruct (Prim2SF okPrice) as [s|s| |s mo eo]; cbn in Hok; try contradiction.
    - left. reflexivity.
    - subst s. right. reflexivity. }
  assert (Harg : Prim2SF (discount_arg okPrice 0) = S754_nan
                 \/ Prim2SF (discount_arg okPrice 0) = S754_infinity true).
  { unfold discount_arg.
    rewrite FloatAxioms.sub_spec, FloatAxioms.mul_spec, H100.
    destruct Hquot as [-> | ->]; [left | right]; reflexivity. }
  assert (Hround : GoFloat.Round (discount_arg okPrice 0) = discount_arg okPrice 0).
  { unfold GoFloat.Round. destruct Harg as [-> | ->]; reflexivity. }
  unfold newDiscount_of, GoFloat.int_representable, GoFloat.int_of_float64, GoFloat.is_finite.
  rewrite Hround.
  split; [destruct Hquot as [-> | ->]; reflexivity|].
  destruct Harg as [-> | ->]; split; reflexivity.
Qed.

(** When the solved price is NaN, so is the value the discount is converted
    from, whatever the display price. *)
Lemma discount_of_nan (okPrice : float) (newPrice : Z) :
  Prim2SF okPrice = S754_nan ->
  GoFloat.int_representable (GoFloat.Round (discount_arg okPrice newPrice)) = false.
Proof.
  intros Hnan.
  assert (Harg : Prim2SF (discount_arg okPrice newPrice) = S754_nan).
  { unfold discount_arg.
    rewrite FloatAxioms.sub_spec, FloatAxioms.mul_spec, FloatAxioms.div_spec, Hnan.
    unfold SF64sub, SF64mul, SF64div, SFdiv, SFmul, SFsub.
    now destruct (Prim2SF 100). }
  unfold GoFloat.int_representable, GoFloat.Round. now rewrite Harg, Harg.
Qed.

(** ** The card loop *)

Section ProcessProperties.

Context {World : Type}.
Variable scrapeProductData : World -> string -> option (gmap string string) * World.
Variable rand_Float64 : World -> float * World.
Variable ParseFloat : string -> option float.
Variable cfg : Config.
Variable base liter : float.
Variable prices : list Product.
Variable commissionRate : Z.
Variable skuMap : gmap Z (list string).
Variable vendorCodePattern : Regexp.t.

#[local] Abbreviation fetch := (fetchProductData scrapeProductData).
#[local] Abbreviation price_and_save :=
  (priceAndSave rand_Float64 ParseFloat cfg base liter prices commissionRate).
#[local] Abbreviation body :=
  (processCard scrapeProductData rand_Float64 ParseFloat cfg base liter prices
     commissionRate skuMap vendorCodePattern).
#[local] Abbreviation run :=
  (processCards scrapeProductData rand_Float64 ParseFloat cfg base liter prices
     commissionRate skuMap vendorCodePattern).
#[local] Abbreviation decode := (decodeVendorCode vendorCodePattern (UsePcs cfg) skuMap).
#[local] Abbreviation fetch_seq := (fetchSeq scrapeProductData).

(** The body of the loop panics on the stock-keeping identifier fault only,
    and leaves the state as it found it. *)
Lemma body_panic (st st' : State World) (card : Card) (fault : Fault) :
  body st card = Panic fault st' <->
  decode card = PanicSKU /\ fault = SKUFault (Card_VendorCode card) /\ st' = st.
Proof.
  unfold processCard. destruct (decode card) eqn:Hd.
  - split; [discriminate | intros [? _]; discriminate].
  - split; [intros [= <- <-]; auto | intros (_ & -> & ->); reflexivity].
  - split; [discriminate | intros [? _]; discriminate].
  - destruct (fetch st productID) as [[data|] st1];
      (split; [discriminate | intros [? _]; discriminate]).
Qed.

Lemma body_continue (st : State World) (card : Card) :
  decode card <> PanicSKU -> exists st', body st card = Continue st'.
Proof.
  intros Hd. destruct (body st card) as [st'|fault st'] eqn:Hb; [now exists st'|].
  apply body_panic in Hb as [Hp _]. contradiction.
Qed.

Lemma run_panic (cards : list Card) :
  forall st : State World,
  (exists card, In card cards /\ decode card = PanicSKU) ->
  exists vc st', run st cards = Panic (SKUFault vc) st'.
Proof.
  induction cards as [|card rest IH]; intros st (bad & Hin & Hbad).
  - destruct Hin.
  - cbn [processCards]. destruct (body st card) as [st'|fault st'] eqn:Hb.
    + apply IH. destruct Hin as [<- | Hin].
      * assert (Hp : body st card = Panic (SKUFault (Card_VendorCode card)) st)
          by now apply body_panic.
        congruence.
      * now exists bad.
    + apply body_panic in Hb as (_ & -> & ->). now exists (Card_VendorCode card), st.
Qed.

Lemma run_continue (cards : list Card) :
  forall st : State World,
  (forall card, In card cards -> decode card <> PanicSKU) ->
  exists st', run st cards = Continue st'.
Proof.
  induction cards as [|card rest IH]; intros st Hok.
  - now exists st.
  - cbn [processCards]. destruct (body_continue st card) as [st' ->].
    + apply Hok. now left.
    + apply IH. intros c Hc. apply Hok. now right.
Qed.

(** The state a run leaves is the state after the cards before the fault,
    or after all the cards when there is none. *)
Lemma run_state_prefix (cards : list Card) :
  forall st : State World,
  exists before after,
    cards = before ++ after /\ run st before = Continue (state_of (run st cards)).
Proof.
  induction cards as [|card rest IH]; intros st.
  - now exists [], [].
  - cbn [processCards]. destruct (body st card) as [st1|fault st1] eqn:Hb.
    + destruct (IH st1) as (before & after & Heq & Hrun).
      exists (card :: before), after. split; [now rewrite Heq|].
      cbn [processCards]. now rewrite Hb.
    + apply body_panic in Hb as (_ & _ & ->). now exists [], (card :: rest).
Qed.

(** *** The scrape cache *)

Lemma scrapes_app (productID : string) (l1 l2 : list Event) :
  scrapes productID (l1 ++ l2) = (scrapes productID l1 + scrapes productID l2)%nat.
Proof. unfold scrapes. now rewrite List.filter_app, length_app. Qed.

Lemma fetch_hit (st : State World) (productID : string) (d : gmap string string) :
  st_cache st !! productID = Some d ->
  fetch st productID = (Some d, say st (EvCacheHit productID)).
Proof. intros H. unfold fetchProductData. now rewrite H. Qed.

(** One request: what it answers, and what it does to the cache, to the
    world and to the log. *)
Lemma fetch_cases (st : State World) (productID : string) :
  let url := (baseURL ++ productID ++ "/")%string in
  match st_cache st !! productID with
  | Some d =>
      fetch st productID = (Some d, say st (EvCacheHit productID))
  | None =>
      match scrapeProductData (st_world st) url with
      | (Some d, w) =>
          fetch st productID
          = (Some d,
             {| st_cache := <[productID := d]> (st_cache st); st_db := st_db st;
                st_world := w; st_log := st_log st ++ [EvScrape productID] |})
      | (None, w) =>
          fetch st productID
          = (None,
             {| st_cache := st_cache st; st_db := st_db st; st_world := w;
                st_log := st_log st ++ [EvScrape productID; EvScrapeError productID] |})
      end
  end.
Proof.
  intros url. unfold fetchProductData.
  destruct (st_cache st !! productID) as [d|]; [reflexivity|].
  unfold say; cbn [st_world st_cache st_db st_log]. fold url.
  destruct (scrapeProductData (st_world st) url) as [[d|] w]; [reflexivity|].
  unfold say; cbn [st_world st_cache st_db st_log]. now rewrite <- app_assoc.
Qed.

Lemma fetch_db (st st' : State World) (productID : string) answer :
  fetch st productID = (answer, st') -> st_db st' = st_db st.
Proof.
  pose proof (fetch_cases st productID) as H. cbv zeta in H.
  destruct (st_cache st !! productID) as [d|].
  - rewrite H. now intros [= <- <-].
  - destruct (scrapeProductData _ _) as [[d|] w]; rewrite H; now intros [= <- <-].
Qed.

(** The effect of one request for [p] on the cache entry and on the count of
    collaborator calls of [productID]. *)
Lemma fetch_effect (st st' : State World) (p productID : string) answer :
  fetch st p = (answer, st') ->
  (p <> productID ->
   st_cache st' !! productID = st_cache st !! productID
   /\ scrapes productID (st_log st') = scrapes productID (st_log st))
  /\ (p = productID ->
      match st_cache st !! productID, answer with
      | Some d, a =>
          a = Some d /\ st_cache st' !! productID = Some d
          /\ scrapes productID (st_log st') = scrapes productID (st_log st)
          /\ st_world st' = st_world st
      | None, Some d =>
          st_cache st' !! productID = Some d
          /\ scrapes productID (st_log st') = S (scrapes productID (st_log st))
      | None, None =>
          st_cache st' !! productID = None
          /\ scrapes productID (st_log st') = S (scrapes productID (st_log st))
      end).
Proof.
  intros Hf. pose proof (fetch_cases st p) as H. cbv zeta in H.
  assert (Hself : forall q, String.eqb q q = true) by (intros q; apply String.eqb_refl).
  split.
  - intros Hne. assert (Hneq : String.eqb p productID = false) by now apply String.eqb_neq.
    destruct (st_cache st !! p) as [d|].
    + rewrite H in Hf. injection Hf as <- <-. unfold say; cbn [st_cache st_log].
      split; [reflexivity|]. rewrite scrapes_app. cbn. lia.
    + destruct (scrapeProductData _ _) as [[d|] w]; rewrite H in Hf;
        injection Hf as <- <-; cbn [st_cache st_log]; rewrite scrapes_app;
        unfold scrapes at 2; cbn [List.filter is_scrape]; rewrite Hneq; cbn [length].
      * split; [now apply lookup_insert_ne | lia].
      * split; [reflexivity | lia].
  - intros ->. destruct (st_cache st !! productID) as [d|] eqn:Hc.
    + rewrite H in Hf. injection Hf as <- <-. unfold say; cbn [st_cache st_log st_world].
      repeat split; try assumption. rewrite scrapes_app. cbn. lia.
    + destruct (scrapeProductData _ _) as [[d|] w]; rewrite H in Hf;
        injection Hf as <- <-; cbn [st_cache st_log]; rewrite scrapes_app;
        unfold scrapes at 2; cbn [List.filter is_scrape]; rewrite Hself; cbn [length].
      * split; [now apply lookup_insert_eq | lia].
      * split; [assumption | lia].
Qed.

Lemma fetchSeq_behaviour (productID : string) (ids : list string) :
  forall (st st' : State World) answers,
  fetch_seq st ids = (answers, st') ->
  cache_behaviour productID st st' (answers_for productID ids answers).
Proof.
  induction ids as [|p rest IH]; intros st st' answers Hseq.
  - injection Hseq as <- <-. exists 0%nat, []. cbn.
    refine (conj eq_refl (conj _ (conj _ (conj _ _)))); auto.
    destruct (st_cache st !! productID); lia.
  - cbn [fetchSeq] in Hseq.
    destruct (fetch st p) as [a st1] eqn:Hf.
    destruct (fetch_seq st1 rest) as [answers1 st2] eqn:Hrest.
    injection Hseq as <- <-.
    destruct (fetch_effect _ _ _ productID _ Hf) as [Hother Hsame].
    destruct (IH _ _ _ Hrest) as (failed & served & Hans & Hall & Hcount & Hcached & Hnone).
    cbn [answers_for]. destruct (String.eqb p productID) eqn:Hp.
    + apply String.eqb_eq in Hp. specialize (Hsame Hp).
      destruct (st_cache st !! productID) as [d|] eqn:Hc.
      * destruct Hsame as (-> & Hc1 & Hs1 & _).
        destruct (Hcached d Hc1) as [-> Hc2].
        exists 0%nat, (Some d :: served). rewrite Hans. cbn [repeat app].
        refine (conj eq_refl (conj _ (conj _ (conj _ _)))).
        -- constructor; [split; [now rewrite Hc2 | discriminate] | assumption].
        -- rewrite Hcount, Hs1, Hc1, ?Hc. lia.
        -- intros d' Hd'. rewrite Hc in Hd'. injection Hd' as <-. now split.
        -- discriminate.
      * destruct a as [d|].
        -- destruct Hsame as [Hc1 Hs1]. destruct (Hcached d Hc1) as [-> Hc2].
           exists 0%nat, (Some d :: served). rewrite Hans. cbn [repeat app].
           refine (conj eq_refl (conj _ (conj _ (conj _ _)))); try discriminate.
           ++ constructor; [split; [now rewrite Hc2 | discriminate] | assumption].
           ++ rewrite Hcount, Hs1, Hc1, ?Hc. lia.
           ++ intros d' Hd'. rewrite Hc in Hd'. discriminate.
        -- destruct Hsame as [Hc1 Hs1].
           exists (S failed), served. rewrite Hans. cbn [repeat app].
           refine (conj eq_refl (conj _ (conj _ (conj _ _)))).
           ++ assumption.
           ++ rewrite Hcount, Hs1, Hc1, ?Hc. lia.
           ++ intros d' Hd'. rewrite Hc in Hd'. discriminate.
           ++ intros Hs. rewrite (Hnone Hs), Hc. assumption.
    + apply String.eqb_neq in Hp. destruct (Hother Hp) as [Hc1 Hs1].
      exists failed, served. rewrite <- Hc1, <- Hs1.
      refine (conj Hans (conj Hall (conj Hcount (conj Hcached Hnone)))).
Qed.

(** *** Pricing one card *)

Lemma fixedCosts_sum (rounded n : Z) (tariff returns : float) :
  fixedCosts_of cfg (GoInt.mul rounded n) tariff returns
  = GoInt.wrap
      (rounded * n + GoFloat.int_of_float64 (GoFloat.Ceil tariff) + Delivery cfg + PVZ cfg
       + GoFloat.int_of_float64 (GoFloat.Ceil returns)).
Proof.
  unfold fixedCosts_of, GoInt.add, GoInt.mul.
  set (ct := GoFloat.int_of_float64 (GoFloat.Ceil tariff)).
  set (cr := GoFloat.int_of_float64 (GoFloat.Ceil returns)).
  rewrite (wrap_add_l (rounded * n) ct).
  rewrite (wrap_add_l (rounded * n + ct) (Delivery cfg)).
  rewrite (wrap_add_l (rounded * n + ct + Delivery cfg) (PVZ cfg)).
  now rewrite (wrap_add_l (rounded * n + ct + Delivery cfg + PVZ cfg) cr).
Qed.

Lemma upsert_in (new : Row) (tbl : Table) : In new (insert_on_conflict_update new tbl).
Proof.
  induction tbl as [|old rest IH]; cbn [insert_on_conflict_update]; [now left|].
  destruct (conflicts old new) eqn:Hc.
  - left. now apply do_update_all_columns.
  - now right.
Qed.

(** The three ways [priceAndSave] ends, by the last line it logs. *)
Lemma priceAndSave_cases (st : State World) (card : Card) (productID : string)
    (pcsInt : Z) (sku : string) (productData : gmap string string) :
  GoInt.in_range pcsInt = true ->
  let st' := price_and_save st card productID pcsInt sku productData in
  let tariff := tariff_of base liter card in
  let returns := returns_of tariff in
  (ParseFloat (default EmptyString (productData !! "price"%string)) = None
   /\ st' = say st (EvConvertError productID))
  \/ exists price : float,
       ParseFloat (default EmptyString (productData !! "price"%string)) = Some price
       /\ let cost := GoInt.mul (GoFloat.int_of_float64 (GoFloat.Ceil price)) pcsInt in
          let fixedCosts := fixedCosts_of cfg cost tariff returns in
          let printed :=
            EvFixedCosts fixedCosts cost tariff (Delivery cfg) (PVZ cfg) returns in
          (exists e,
             CalcPrice (DesiredMargin cfg) (TaxRate cfg) (comNum_of commissionRate)
               (GoFloat.float64_of_int fixedCosts) = Err e
             /\ st' = say (say st printed) (EvCalcPriceError e))
          \/ (exists okPrice,
                CalcPrice (DesiredMargin cfg) (TaxRate cfg) (comNum_of commissionRate)
                  (GoFloat.float64_of_int fixedCosts) = Ok okPrice
                /\ let commission :=
                     GoFloat.int_of_float64 (okPrice * comNum_of commissionRate)%float in
                   let params :=
                     mkParams prices card pcsInt productID productData cost tariff
                       commission okPrice in
                   st' = {| st_cache := st_cache st;
                            st_db := saveToDatabase (st_db st) params sku
                                       (fst (rand_Float64 (st_world st)));
                            st_world := snd (rand_Float64 (st_world st));
                            st_log := st_log st ++ [printed]
                                      ++ saveToDatabase_log params sku |}).
Proof.
  intros Hr st' tariff returns. subst st'. unfold priceAndSave, convertAndMultiply.
  rewrite (Atoi_Sprintf_d _ Hr).
  destruct (ParseFloat (default EmptyString (productData !! "price"%string))) as [price|];
    [right; exists price; split; [reflexivity|] | left; now split].
  cbv zeta. fold tariff. fold returns.
  destruct (CalcPrice _ _ _ _) as [okPrice|e].
  - right. exists okPrice. split; [reflexivity|].
    unfold say; cbn [st_cache st_db st_world st_log].
    destruct (rand_Float64 (st_world st)) as [r w]. cbn [fst snd].
    now rewrite <- app_assoc.
  - left. exists e. now split.
Qed.

Lemma saveToDatabase_log_last (params : SaveParams) (sku : string) (log : list Event) :
  last (log ++ saveToDatabase_log params sku) = Some (EvSaved (ProductID params) sku).
Proof.
  unfold saveToDatabase_log. destruct (GoStr.Atoi (AvailableCountStr params)).
  - apply last_snoc.
  - change [EvAvailableCountError (ProductID params); EvSaved (ProductID params) sku]
      with ([EvAvailableCountError (ProductID params)] ++ [EvSaved (ProductID params) sku]).
    rewrite app_assoc. apply last_snoc.
Qed.

Lemma mkParams_ProductID card pcsInt productID productData cost tariff commission okPrice :
  ProductID (mkParams prices card pcsInt productID productData cost tariff commission okPrice)
  = productID.
Proof.
  unfold mkParams. now destruct (lookupPrices prices (Card_VendorCode card)) as [[? ?] ?].
Qed.

Lemma last_two {A} (l : list A) (a b : A) : last (l ++ [a; b]) = Some b.
Proof. change [a; b] with ([a] ++ [b]). rewrite app_assoc. apply last_snoc. Qed.

Lemma fetch_last_event (st st1 : State World) (productID : string) :
  fetch st productID = (None, st1) -> last (st_log st1) = Some (EvScrapeError productID).
Proof.
  intros Hf. pose proof (fetch_cases st productID) as H. cbv zeta in H.
  destruct (st_cache st !! productID) as [d|]; [rewrite H in Hf; discriminate|].
  destruct (scrapeProductData _ _) as [[d|] w]; rewrite H in Hf; [discriminate|].
  injection Hf as <-. cbn [st_log]. apply last_two.
Qed.

(** A card is priced when the loop body ends by logging that it was saved.
    Then the vendor code was accepted, the product data was fetched, the
    price read, the price solved, and the row saved. *)
Lemma body_priced (st st' : State World) (card : Card) (productID sku : string) :
  body st card = Continue st' ->
  last (st_log st') = Some (EvSaved productID sku) ->
  exists (pcsInt : Z) (productData : gmap string string) (st1 : State World)
         (price okPrice : float),
    decode card = Accepted productID pcsInt sku
    /\ fetch st productID = (Some productData, st1)
    /\ ParseFloat (default EmptyString (productData !! "price"%string)) = Some price
    /\ let tariff := tariff_of base liter card in
       let returns := returns_of tariff in
       let cost := GoInt.mul (GoFloat.int_of_float64 (GoFloat.Ceil price)) pcsInt in
       let fixedCosts := fixedCosts_of cfg cost tariff returns in
       CalcPrice (DesiredMargin cfg) (TaxRate cfg) (comNum_of commissionRate)
         (GoFloat.float64_of_int fixedCosts) = Ok okPrice
       /\ In (EvFixedCosts fixedCosts cost tariff (Delivery cfg) (PVZ cfg) returns)
            (st_log st')
       /\ st_db st'
          = saveToDatabase (st_db st)
              (mkParams prices card pcsInt productID productData cost tariff
                 (GoFloat.int_of_float64 (okPrice * comNum_of commissionRate)%float) okPrice)
              sku (fst (rand_Float64 (st_world st1))).
Proof.
  unfold processCard. intros Hb Hlast.
  destruct (decode card) as [| | |pid pcsInt sku'] eqn:Hd; try discriminate.
  - injection Hb as <-. unfold say in Hlast; cbn [st_log] in Hlast.
    rewrite last_snoc in Hlast. discriminate.
  - injection Hb as <-. unfold say in Hlast; cbn [st_log] in Hlast.
    rewrite last_snoc in Hlast. discriminate.
  - destruct (fetch st pid) as [[productData|] st1] eqn:Hf; injection Hb as <-.
    2: { rewrite (fetch_last_event _ _ _ Hf) in Hlast. discriminate. }
    assert (Hr : GoInt.in_range pcsInt = true).
    { apply decode_accepted in Hd as (_ & _ & _ & _ & ->). apply packCount_in_range. }
    pose proof (priceAndSave_cases st1 card pid pcsInt sku' productData Hr) as Hcases.
    cbv zeta in Hcases.
    destruct Hcases as [[_ Hst] | (price & Hprice & [(e & _ & Hst) | (okPrice & Hok & Hst)])].
    + rewrite Hst in Hlast. unfold say in Hlast; cbn [st_log] in Hlast.
      rewrite last_snoc in Hlast. discriminate.
    + rewrite Hst in Hlast. unfold say in Hlast; cbn [st_log] in Hlast.
      rewrite last_snoc in Hlast. discriminate.
    + rewrite Hst in Hlast |- *. cbn [st_log st_db] in Hlast |- *.
      rewrite app_assoc, saveToDatabase_log_last, mkParams_ProductID in Hlast.
      injection Hlast as -> ->.
      exists pcsInt, productData, st1, price, okPrice.
      rewrite (fetch_db _ _ _ _ Hf).
      split; [reflexivity|]. split; [exact Hf|]. split; [exact Hprice|].
      cbv zeta. split; [exact Hok|]. split; [|reflexivity].
      apply in_or_app. right. apply in_or_app. left. now left.
Qed.

(** C1 (as the code has it): for every card that is priced, with scraped
    price [p], pack count [n] and tariff [t], the fixed costs the price is
    solved from are [ceil(p) * n + ceil(t) + Delivery + PVZ + ceil((t + 50) / 9)]
    in [int] arithmetic: the scraped price is rounded up before it is
    multiplied by the pack count.  The row saved for the card holds that cost
    and the price solved from these fixed costs. *)
Theorem fixedCosts_basis (st st' : State World) (card : Card) (productID sku : string) :
  body st card = Continue st' ->
  last (st_log st') = Some (EvSaved productID sku) ->
  exists (p : float) (n : Z) (productData : gmap string string) (st1 : State World),
    decode card = Accepted productID n sku
    /\ fetch st productID = (Some productData, st1)
    /\ ParseFloat (default EmptyString (productData !! "price"%string)) = Some p
    /\ let t := tariff_of base liter card in
       let cost := GoInt.wrap (GoFloat.int_of_float64 (GoFloat.Ceil p) * n) in
       let fixedCost :=
         GoInt.wrap
           (GoFloat.int_of_float64 (GoFloat.Ceil p) * n
            + GoFloat.int_of_float64 (GoFloat.Ceil t) + Delivery cfg + PVZ cfg
            + GoFloat.int_of_float64 (GoFloat.Ceil ((t + 50) / 9)%float)) in
       exists okPrice : float,
         CalcPrice (DesiredMargin cfg) (TaxRate cfg) (comNum_of commissionRate)
           (GoFloat.float64_of_int fixedCost) = Ok okPrice
         /\ In (EvFixedCosts fixedCost cost t (Delivery cfg) (PVZ cfg) ((t + 50) / 9)%float)
              (st_log st')
         /\ exists row : Row,
              In row (st_db st')
              /\ col_product_id row = productID /\ col_pcs row = n
              /\ col_cost row = cost /\ col_ok_price row = okPrice.
Proof.
  intros Hb Hlast.
  destruct (body_priced _ _ _ _ _ Hb Hlast)
    as (n & productData & st1 & p & okPrice & Hd & Hf & Hp & Hok & Hlog & Hdb).
  exists p, n, productData, st1.
  split; [exact Hd|]. split; [exact Hf|]. split; [exact Hp|].
  cbv zeta. rewrite fixedCosts_sum in Hok, Hlog.
  exists okPrice. split; [exact Hok|]. split.
  - exact Hlog.
  - eexists. split; [rewrite Hdb; apply upsert_in|].
    unfold row_of, mkParams.
    destruct (lookupPrices prices (Card_VendorCode card)) as [[? ?] ?].
    destruct (calculateNewPriceAndDiscount _ _). cbn.
    repeat split; reflexivity.
Qed.

(** C3, the loop's side: an error of [CalcPrice] is logged and the loop goes
    on with the next card, the store unchanged; the body of the loop panics
    on the stock-keeping identifier fault only. *)
Lemma CalcPrice_error_skips (st st1 : State World) (card : Card) (productID sku : string)
    (pcsInt : Z) (productData : gmap string string) (price : float) (e : CalcPriceError) :
  decode card = Accepted productID pcsInt sku ->
  fetch st productID = (Some productData, st1) ->
  ParseFloat (default EmptyString (productData !! "price"%string)) = Some price ->
  CalcPrice (DesiredMargin cfg) (TaxRate cfg) (comNum_of commissionRate)
    (GoFloat.float64_of_int
       (fixedCosts_of cfg (GoInt.mul (GoFloat.int_of_float64 (GoFloat.Ceil price)) pcsInt)
          (tariff_of base liter card) (returns_of (tariff_of base liter card)))) = Err e ->
  exists st' : State World,
    body st card = Continue st'
    /\ st_db st' = st_db st
    /\ st_cache st' = st_cache st1
    /\ last (st_log st') = Some (EvCalcPriceError e).
Proof.
  intros Hd Hf Hp He.
  assert (Hr : GoInt.in_range pcsInt = true).
  { apply decode_accepted in Hd as (_ & _ & _ & _ & ->). apply packCount_in_range. }
  unfold processCard. rewrite Hd, Hf. eexists. split; [reflexivity|].
  pose proof (priceAndSave_cases st1 card productID pcsInt sku productData Hr) as Hcases.
  cbv zeta in Hcases.
  destruct Hcases as [[Hnone _] | (price' & Hprice & [(e' & He' & Hst) | (okPrice & Hok & _)])].
  - congruence.
  - assert (price' = price) by congruence. subst price'.
    assert (e' = e) by congruence. subst e'.
    rewrite Hst. unfold say; cbn [st_db st_cache st_log].
    split; [now apply (fetch_db _ _ _ _ Hf)|]. split; [reflexivity|]. apply last_snoc.
  - assert (price' = price) by congruence. subst price'. congruence.
Qed.

(** C3 (on the floats of the code): [CalcPrice] fails with the
    infeasible-margin error exactly when the denominator
    [(1 - taxRate - commissionRate) - desiredMargin], each subtraction
    rounded, is not above zero; otherwise it fails with the negative-price
    error exactly when the quotient [fixedCosts / denominator] is below zero,
    and returns that quotient when it is not.  In the loop both errors skip
    the card: the error is logged, the store is unchanged and the loop goes
    on; the loop panics on the stock-keeping identifier fault only. *)
Theorem CalcPrice_failures (desiredMargin taxRate rate fixedCosts : float) :
  let denominator := ((1 - taxRate - rate) - desiredMargin)%float in
  (CalcPrice desiredMargin taxRate rate fixedCosts = Err InfeasibleMargin
   <-> (denominator <=? 0)%float = true)
  /\ ((denominator <=? 0)%float = false ->
      (CalcPrice desiredMargin taxRate rate fixedCosts = Err NegativePrice
       <-> (fixedCosts / denominator <? 0)%float = true)
      /\ ((fixedCosts / denominator <? 0)%float = false ->
          CalcPrice desiredMargin taxRate rate fixedCosts
          = Ok (fixedCosts / denominator)%float))
  /\ (forall (st st1 : State World) card productID sku pcsInt productData price e,
        decode card = Accepted productID pcsInt sku ->
        fetch st productID = (Some productData, st1) ->
        ParseFloat (default EmptyString (productData !! "price"%string)) = Some price ->
        CalcPrice (DesiredMargin cfg) (TaxRate cfg) (comNum_of commissionRate)
          (GoFloat.float64_of_int
             (fixedCosts_of cfg
                (GoInt.mul (GoFloat.int_of_float64 (GoFloat.Ceil price)) pcsInt)
                (tariff_of base liter card) (returns_of (tariff_of base liter card))))
        = Err e ->
        exists st' : State World,
          body st card = Continue st'
          /\ st_db st' = st_db st
          /\ last (st_log st') = Some (EvCalcPriceError e))
  /\ (forall (st st' : State World) card fault,
        body st card = Panic fault st' -> decode card = PanicSKU).
Proof.
  intros denominator.
  destruct (CalcPrice_cases desiredMargin taxRate rate fixedCosts) as (Hinf & Hneg & Hok).
  cbv zeta in Hinf, Hneg, Hok. fold denominator in Hinf, Hneg, Hok.
  split; [exact Hinf|]. split; [|split].
  - intros Hden. split.
    + rewrite Hneg. tauto.
    + intros Hprice. apply Hok. auto.
  - intros st st1 card productID sku pcsInt productData price e Hd Hf Hp He.
    destruct (CalcPrice_error_skips _ _ _ _ _ _ _ _ _ Hd Hf Hp He) as (st' & Hb & Hdb & _ & Hl).
    exists st'. auto.
  - intros st st' card fault Hb. now apply body_panic in Hb.
Qed.

Lemma length_lt_two (parts : list string) :
  (Z.of_nat (length parts) <? 2) = true <-> (length parts < 2)%nat.
Proof. rewrite Z.ltb_lt. lia. Qed.

(** C4 (as the code has it): a vendor code that does not match the pattern is
    skipped; a matching code of a card with exactly one stock-keeping
    identifier that splits on ["_"] into fewer than two segments is skipped;
    a code is accepted exactly when it matches, the card has one identifier
    and there are at least two segments, and then the product id is the
    second segment and the pack count is the third segment when it is there,
    reads as an [int] and [UsePcs] is set, and 1 otherwise.  With the pattern
    [^box_\d+_\d+$], ["box_4821_3"] gives product id ["4821"] and pack count
    3, and ["widget_77"] and ["box_4821"] are skipped; ["box_4821"] gives
    pack count 1 with a pattern that matches it, such as [^box_\d+$].  A
    third segment of digits that does not fit an [int], as in
    ["box_1_99999999999999999999"], does not read, and the pack count is 1. *)
Theorem vendor_code_decoder (st : State World) (card : Card) :
  let vc := Card_VendorCode card in
  let parts := GoStr.Split vc "_" in
  let skus := default [] (skuMap !! Card_NmID card) in
  (Regexp.MatchString vendorCodePattern vc = false ->
   decode card = SkipPattern /\ body st card = Continue (say st (EvSkipVendorCode vc)))
  /\ (Regexp.MatchString vendorCodePattern vc = true -> length skus = 1%nat ->
      (length parts < 2)%nat ->
      decode card = SkipSegments /\ body st card = Continue (say st (EvBadVendorCode vc)))
  /\ (forall productID pcsInt sku,
        decode card = Accepted productID pcsInt sku <->
        Regexp.MatchString vendorCodePattern vc = true
        /\ skus = [sku]
        /\ (2 <= length parts)%nat
        /\ productID = nth 1 parts EmptyString
        /\ pcsInt = packCount (UsePcs cfg) parts)
  /\ (forall re skuMap' sku c,
        Regexp.Compile "^box_\d+_\d+$" = Some re ->
        skuMap' !! Card_NmID c = Some [sku] ->
        (Card_VendorCode c = "box_4821_3"%string ->
         decodeVendorCode re true skuMap' c = Accepted "4821" 3 sku
         /\ decodeVendorCode re false skuMap' c = Accepted "4821" 1 sku)
        /\ (Card_VendorCode c = "widget_77"%string ->
            decodeVendorCode re true skuMap' c = SkipPattern)
        /\ (Card_VendorCode c = "box_4821"%string ->
            decodeVendorCode re true skuMap' c = SkipPattern)
        /\ (Card_VendorCode c = "box_1_99999999999999999999"%string ->
            decodeVendorCode re true skuMap' c = Accepted "1" 1 sku))
  /\ (forall re skuMap' sku c,
        Regexp.Compile "^box_\d+$" = Some re ->
        skuMap' !! Card_NmID c = Some [sku] ->
        Card_VendorCode c = "box_4821"%string ->
        decodeVendorCode re true skuMap' c = Accepted "4821" 1 sku).
Proof.
  intros vc parts skus. split; [|split; [|split; [|split]]].
  - intros Hm. assert (Hd : decode card = SkipPattern).
    { unfold decodeVendorCode. fold vc. now rewrite Hm. }
    split; [exact Hd|]. unfold processCard. now rewrite Hd.
  - intros Hm Hs Hl. assert (Hd : decode card = SkipSegments).
    { unfold decodeVendorCode. fold vc. fold skus. fold parts. rewrite Hm, Hs. cbn [negb].
      change (Z.of_nat 1 =? 1) with true. cbn [negb].
      now replace (Z.of_nat (length parts) <? 2) with true
        by (symmetry; now apply length_lt_two). }
    split; [exact Hd|]. unfold processCard. now rewrite Hd.
  - intros productID pcsInt sku. apply decode_accepted.
  - intros re skuMap' sku c [= <-] Hsku. split; [|split; [|split]]; intros Hvc.
    + split; unfold decodeVendorCode; rewrite Hvc, Hsku; reflexivity.
    + unfold decodeVendorCode; rewrite Hvc; reflexivity.
    + unfold decodeVendorCode; rewrite Hvc; reflexivity.
    + unfold decodeVendorCode; rewrite Hvc, Hsku; reflexivity.
  - intros re skuMap' sku c [= <-] Hsku Hvc.
    unfold decodeVendorCode; rewrite Hvc, ?Hsku; reflexivity.
Qed.

(** *** The scrape cache over the run *)

Lemma scrape_errors_app (productID : string) (l1 l2 : list Event) :
  scrape_errors productID (l1 ++ l2)
  = (scrape_errors productID l1 + scrape_errors productID l2)%nat.
Proof. unfold scrape_errors. now rewrite List.filter_app, length_app. Qed.

(** Appending lines that are neither a call nor a failure of the
    collaborator keeps the counts. *)
Lemma successes_cached_quiet (st : State World) (db : Table) (w : World) (l : list Event) :
  (forall productID, scrapes productID l = 0%nat /\ scrape_errors productID l = 0%nat) ->
  successes_cached st ->
  successes_cached
    {| st_cache := st_cache st; st_db := db; st_world := w; st_log := st_log st ++ l |}.
Proof.
  intros Hq Hinv productID. cbn [st_cache st_log].
  rewrite scrapes_app, scrape_errors_app. destruct (Hq productID) as [-> ->].
  rewrite (Hinv productID). lia.
Qed.

Lemma saveToDatabase_log_quiet (params : SaveParams) (sku : string) (productID : string) :
  scrapes productID (saveToDatabase_log params sku) = 0%nat
  /\ scrape_errors productID (saveToDatabase_log params sku) = 0%nat.
Proof.
  unfold saveToDatabase_log. now destruct (GoStr.Atoi (AvailableCountStr params)).
Qed.

Lemma fetch_keeps (st st' : State World) (p : string) answer :
  fetch st p = (answer, st') -> successes_cached st -> successes_cached st'.
Proof.
  intros Hf Hinv productID. pose proof (fetch_cases st p) as H. cbv zeta in H.
  specialize (Hinv productID).
  destruct (st_cache st !! p) as [d|] eqn:Hc.
  - rewrite H in Hf. injection Hf as <- <-. unfold say; cbn [st_cache st_log].
    rewrite scrapes_app, scrape_errors_app, Hinv. cbn. lia.
  - destruct (scrapeProductData _ _) as [[d|] w]; rewrite H in Hf; injection Hf as <- <-;
      cbn [st_cache st_log]; rewrite scrapes_app, scrape_errors_app;
      unfold scrapes, scrape_errors in *; cbn [List.filter is_scrape is_scrape_error];
      destruct (String.eqb_spec p productID) as [->|Hne]; cbn [length].
    + rewrite lookup_insert_eq. rewrite Hc in Hinv. lia.
    + rewrite lookup_insert_ne by assumption. lia.
    + lia.
    + lia.
Qed.

Lemma priceAndSave_keeps (st : State World) (card : Card) (productID : string)
    (pcsInt : Z) (sku : string) (productData : gmap string string) :
  GoInt.in_range pcsInt = true ->
  successes_cached st ->
  successes_cached (price_and_save st card productID pcsInt sku productData).
Proof.
  intros Hr Hinv.
  pose proof (priceAndSave_cases st card productID pcsInt sku productData Hr) as Hcases.
  cbv zeta in Hcases.
  destruct Hcases as [[_ ->] | (price & _ & [(e & _ & ->) | (okPrice & _ & ->)])].
  - apply (successes_cached_quiet st (st_db st) (st_world st) [_]); [|assumption].
    intros p. now split.
  - unfold say; cbn [st_cache st_db st_world st_log]. rewrite <- app_assoc.
    apply (successes_cached_quiet st (st_db st) (st_world st) [_; _]); [|assumption].
    intros p. now split.
  - apply successes_cached_quiet; [|assumption].
    intros p. rewrite scrapes_app, scrape_errors_app.
    destruct (saveToDatabase_log_quiet
                (mkParams prices card pcsInt productID productData
                   (GoInt.mul (GoFloat.int_of_float64 (GoFloat.Ceil price)) pcsInt)
                   (tariff_of base liter card)
                   (GoFloat.int_of_float64 (okPrice * comNum_of commissionRate)%float)
                   okPrice) sku p) as [-> ->].
    now split.
Qed.

Lemma body_keeps (st st' : State World) (card : Card) :
  body st card = Continue st' -> successes_cached st -> successes_cached st'.
Proof.
  unfold processCard. intros Hb Hinv.
  destruct (decode card) as [| | |pid pcsInt sku] eqn:Hd; try discriminate.
  - injection Hb as <-.
    apply (successes_cached_quiet st (st_db st) (st_world st) [_]); [|assumption].
    intros p. now split.
  - injection Hb as <-.
    apply (successes_cached_quiet st (st_db st) (st_world st) [_]); [|assumption].
    intros p. now split.
  - destruct (fetch st pid) as [[productData|] st1] eqn:Hf; injection Hb as <-.
    + apply priceAndSave_keeps.
      * apply decode_accepted in Hd as (_ & _ & _ & _ & ->). apply packCount_in_range.
      * now apply (fetch_keeps _ _ _ _ Hf).
    + now apply (fetch_keeps _ _ _ _ Hf).
Qed.

Lemma run_keeps (cards : list Card) :
  forall st st' : State World,
  run st cards = Continue st' -> successes_cached st -> successes_cached st'.
Proof.
  induction cards as [|card rest IH]; intros st st' Hrun Hinv; cbn [processCards] in Hrun.
  - now injection Hrun as <-.
  - destruct (body st card) as [st1|fault st1] eqn:Hb; [|discriminate].
    apply (IH st1 st' Hrun). now apply (body_keeps st st1 card).
Qed.



End ProcessProperties.

(** ** The run *)

Lemma extractSKUs_snoc (cards : list Card) (card : Card) :
  extractSKUs (cards ++ [card]) = <[Card_NmID card := card_skus card]> (extractSKUs cards).
Proof. unfold extractSKUs. now rewrite fold_left_app. Qed.

(** With distinct catalog ids, the identifiers resolved for a card are those
    of its own sizes. *)
Lemma extractSKUs_lookup (cards : list Card) (card : Card) :
  NoDup (map Card_NmID cards) -> In card cards ->
  extractSKUs cards !! Card_NmID card = Some (card_skus card).
Proof.
  induction cards as [|c l IH] using rev_ind; intros Hnd Hin; [destruct Hin|].
  rewrite extractSKUs_snoc. rewrite map_app in Hnd. apply NoDup_app in Hnd as (Hl & Hdisj & _).
  apply in_app_or in Hin as [Hin | [<- | []]].
  - rewrite lookup_insert_ne; [now apply IH|].
    intros Heq. apply (Hdisj (Card_NmID card)).
    + apply list_elem_of_In, in_map, Hin.
    + rewrite <- Heq. cbn. left.
  - apply lookup_insert_eq.
Qed.

Lemma card_skus_concat (card : Card) : card_skus card = concat (map SKUs (Card_Sizes card)).
Proof.
  unfold card_skus.
  assert (H : forall sizes acc,
            fold_left (fun skus size => skus ++ SKUs size) sizes acc
            = acc ++ concat (map SKUs sizes)).
  { induction sizes as [|sz sizes IH]; intros acc; cbn.
    - now rewrite app_nil_r.
    - rewrite IH. now rewrite <- app_assoc. }
  apply H.
Qed.

Lemma commissionRate_of_last (commissions : list Commission) :
  commissionRate_of commissions
  = match last (List.filter (fun c => SubjectID c =? 3979) commissions) with
    | Some c => GoFloat.int_of_float64 (KgvpMarketplace c)
    | None => 0
    end.
Proof.
  induction commissions as [|c l IH] using rev_ind; [reflexivity|].
  unfold commissionRate_of in *. rewrite fold_left_app, List.filter_app. cbn.
  destruct (SubjectID c =? 3979).
  - now rewrite last_snoc.
  - now rewrite app_nil_r.
Qed.

Section RunProperties.

Context {World : Type}.
Variable scrapeProductData : World -> string -> option (gmap string string) * World.
Variable rand_Float64 : World -> float * World.
Variable ParseFloat : string -> option float.
Variable regexp_Compile : string -> option Regexp.t.

#[local] Abbreviation process :=
  (Process scrapeProductData rand_Float64 ParseFloat regexp_Compile).

(** C6: when a card of the catalog has a vendor code that matches the pattern
    and the stock-keeping identifiers resolved for it are none or more than
    one, the run panics on such a card; a matching card with exactly one
    identifier does not stop the loop.  With distinct catalog ids the
    identifiers resolved for a card are those of its sizes. *)
Theorem sku_fault_aborts (cfg : Config) (base liter : float) (allCards : list Card)
    (prices : list Product) (commissions : list Commission) (re : Regexp.t) (w : World)
    (card : Card) :
  regexp_Compile (VendorCodePattern cfg) = Some re ->
  In card allCards ->
  Regexp.MatchString re (Card_VendorCode card) = true ->
  let skus := default [] (extractSKUs allCards !! Card_NmID card) in
  (length skus <> 1%nat ->
   exists vc st',
     process cfg base liter allCards prices commissions w = Panic (SKUFault vc) st')
  /\ (length skus = 1%nat ->
      forall st : State World,
      exists st',
        processCard scrapeProductData rand_Float64 ParseFloat cfg base liter prices
          (commissionRate_of commissions) (extractSKUs allCards) re st card
        = Continue st')
  /\ (NoDup (map Card_NmID allCards) -> skus = concat (map SKUs (Card_Sizes card))).
Proof.
  intros Hre Hin Hm skus. split; [|split].
  - intros Hlen. unfold Process. rewrite Hre. apply run_panic. exists card.
    split; [assumption|]. apply decode_panic. now split.
  - intros Hlen st. apply body_continue. intros Hp.
    apply decode_panic in Hp as [_ Hp]. contradiction.
  - intros Hnd. unfold skus. rewrite (extractSKUs_lookup _ _ Hnd Hin). cbn.
    apply card_skus_concat.
Qed.

(** C2 (as the code has it): for every card that is priced, the price is
    solved with the commission rate [(float64(percent) + 1) / 100], where
    [percent] is the marketplace percentage of subject 3979 truncated to an
    [int] (the last entry of the report for the subject counts, and the
    percentage is 0 when there is none), and the row saved for the card holds
    that solved price and, as its commission, the solved price times this
    rate, truncated to an [int]. *)
Theorem commission_amount (cfg : Config) (base liter : float) (prices : list Product)
    (commissions : list Commission) (skuMap : gmap Z (list string)) (re : Regexp.t)
    (st st' : State World) (card : Card) (productID sku : string) :
  let percent :=
    match last (List.filter (fun c => SubjectID c =? 3979) commissions) with
    | Some c => GoFloat.int_of_float64 (KgvpMarketplace c)
    | None => 0
    end in
  let rate := ((GoFloat.float64_of_int percent + 1) / 100)%float in
  processCard scrapeProductData rand_Float64 ParseFloat cfg base liter prices
    (commissionRate_of commissions) skuMap re st card = Continue st' ->
  last (st_log st') = Some (EvSaved productID sku) ->
  exists (p : float) (n : Z) (productData : gmap string string) (st1 : State World)
         (okPrice : float) (row : Row),
    decodeVendorCode re (UsePcs cfg) skuMap card = Accepted productID n sku
    /\ fetchProductData scrapeProductData st productID = (Some productData, st1)
    /\ ParseFloat (default EmptyString (productData !! "price"%string)) = Some p
    /\ CalcPrice (DesiredMargin cfg) (TaxRate cfg) rate
         (GoFloat.float64_of_int
            (fixedCosts_of cfg (GoInt.mul (GoFloat.int_of_float64 (GoFloat.Ceil p)) n)
               (tariff_of base liter card) (returns_of (tariff_of base liter card))))
       = Ok okPrice
    /\ In row (st_db st')
    /\ col_product_id row = productID /\ col_pcs row = n /\ col_skus row = sku
    /\ col_ok_price row = okPrice
    /\ col_commission row = GoFloat.int_of_float64 (okPrice * rate)%float.
Proof.
  intros percent rate Hb Hlast.
  assert (Hp : commissionRate_of commissions = percent) by apply commissionRate_of_last.
  destruct (body_priced _ _ _ _ _ _ _ _ _ _ _ _ _ _ _ Hb Hlast)
    as (n & productData & st1 & p & okPrice & Hd & Hf & Hprice & Hok & _ & Hdb).
  unfold comNum_of in Hok, Hdb. rewrite Hp in Hok, Hdb. fold rate in Hok, Hdb.
  exists p, n, productData, st1, okPrice.
  eexists. split; [exact Hd|]. split; [exact Hf|]. split; [exact Hprice|].
  split; [exact Hok|]. split; [rewrite Hdb; apply upsert_in|].
  unfold row_of, mkParams.
  destruct (lookupPrices prices (Card_VendorCode card)) as [[? ?] ?].
  destruct (calculateNewPriceAndDiscount _ _). cbn.
  repeat split; reflexivity.
Qed.

End RunProperties.
(** ** The sample run *)

Example sample_run_log :
  st_log (state_of (Sample.run Sample.scrape [Sample.box_2; Sample.box_3]))
  = [EvScrape "4821";
     EvFixedCosts 181 4 50 100 15 ((50 + 50) / 9)%float;
     EvSaved "4821" "sku1";
     EvCacheHit "4821";
     EvFixedCosts 183 6 50 100 15 ((50 + 50) / 9)%float;
     EvSaved "4821" "sku2"].
Proof. vm_compute. reflexivity. Qed.

Example sample_run_rows :
  map (fun row => (col_product_id row, col_pcs row, col_cost row, col_commission row,
                   col_new_price row, col_new_discount row, col_available_count row))
    (st_db (state_of (Sample.run Sample.scrape [Sample.box_2; Sample.box_3])))
  = [("4821"%string, 2, 4, 62, 545, 29, 3); ("4821"%string, 3, 6, 62, 550, 28, 3)].
Proof. vm_compute. reflexivity. Qed.

Example sample_run_infeasible :
  let s := Process Sample.scrape Sample.rand Sample.ParseFloat Regexp.Compile
             Sample.cfg_greedy 50 10 [Sample.box_2; Sample.box_3] [] Sample.commissions
             0%nat in
  s = Continue (state_of s)
  /\ st_db (state_of s) = []
  /\ st_log (state_of s)
     = [EvScrape "4821";
        EvFixedCosts 181 4 50 100 15 ((50 + 50) / 9)%float;
        EvCalcPriceError InfeasibleMargin;
        EvCacheHit "4821";
        EvFixedCosts 183 6 50 100 15 ((50 + 50) / 9)%float;
        EvCalcPriceError InfeasibleMargin].
Proof. vm_compute. repeat split. Qed.


(** * The properties at the sample run *)

(** C1, witness: the card [box_4821_2] of the sample run. *)
Lemma fixedCosts_basis_witness :
  SampleFacts.body Sample.start Sample.box_2 = Continue SampleFacts.after_box_2
  /\ last (st_log SampleFacts.after_box_2) = Some (EvSaved "4821" "sku1")
  /\ exists (p : float) (n : Z) (productData : gmap string string) (st1 : State nat),
       decodeVendorCode Sample.pattern (UsePcs Sample.cfg) SampleFacts.skuMap Sample.box_2
       = Accepted "4821" n "sku1"
       /\ fetchProductData Sample.scrape Sample.start "4821" = (Some productData, st1)
       /\ Sample.ParseFloat (default EmptyString (productData !! "price"%string)) = Some p
       /\ let t := tariff_of 50 10 Sample.box_2 in
          let cost := GoInt.wrap (GoFloat.int_of_float64 (GoFloat.Ceil p) * n) in
          let fixedCost :=
            GoInt.wrap
              (GoFloat.int_of_float64 (GoFloat.Ceil p) * n
               + GoFloat.int_of_float64 (GoFloat.Ceil t) + Delivery Sample.cfg
               + PVZ Sample.cfg
               + GoFloat.int_of_float64 (GoFloat.Ceil ((t + 50) / 9)%float)) in
          exists okPrice : float,
            CalcPrice (DesiredMargin Sample.cfg) (TaxRate Sample.cfg)
              (comNum_of (commissionRate_of Sample.commissions))
              (GoFloat.float64_of_int fixedCost) = Ok okPrice
            /\ In (EvFixedCosts fixedCost cost t (Delivery Sample.cfg) (PVZ Sample.cfg)
                     ((t + 50) / 9)%float)
                 (st_log SampleFacts.after_box_2)
            /\ exists row : Row,
                 In row (st_db SampleFacts.after_box_2)
                 /\ col_product_id row = "4821"%string /\ col_pcs row = n
                 /\ col_cost row = cost /\ col_ok_price row = okPrice.
Proof.
  assert (H1 : SampleFacts.body Sample.start Sample.box_2 = Continue SampleFacts.after_box_2)
    by (vm_compute; reflexivity).
  assert (H2 : last (st_log SampleFacts.after_box_2) = Some (EvSaved "4821" "sku1"))
    by (vm_compute; reflexivity).
  split; [exact H1|]. split; [exact H2|].
  exact (fixedCosts_basis Sample.scrape Sample.rand Sample.ParseFloat Sample.cfg 50 10 []
           (commissionRate_of Sample.commissions) SampleFacts.skuMap Sample.pattern
           Sample.start SampleFacts.after_box_2 Sample.box_2 "4821" "sku1" H1 H2).
Defined.

(** C1, counterexample: with price 1.5 and pack count 2 the fixed costs are
    181 ([ceil(1.5) * 2 = 4]), not the 180 of the formula that rounds
    [1.5 * 2] up. *)
Lemma fixedCosts_counterexample :
  In (EvFixedCosts 181 4 50 100 15 ((50 + 50) / 9)%float)
    (st_log (state_of (Sample.run Sample.scrape [Sample.box_2])))
  /\ Sample.ParseFloat "1.5" = Some 1.5%float
  /\ fixedCost_as_specified 1.5 2 50 100 15 = 180
  /\ 181 <> fixedCost_as_specified 1.5 2 50 100 15.
Proof.
  split; [|split; [|split]].
  - vm_compute. right. left. reflexivity.
  - reflexivity.
  - vm_compute. reflexivity.
  - vm_compute. discriminate.
Qed.

(** C2, witness: the card [box_4821_2] of the sample run, with a marketplace
    percentage of 15.5: the rate is [(15 + 1) / 100] and the commission 62. *)
Lemma commission_amount_witness :
  SampleFacts.body Sample.start Sample.box_2 = Continue SampleFacts.after_box_2
  /\ last (st_log SampleFacts.after_box_2) = Some (EvSaved "4821" "sku1")
  /\ commissionRate_of Sample.commissions = 15
  /\ exists (p : float) (n : Z) (productData : gmap string string) (st1 : State nat)
            (okPrice : float) (row : Row),
       decodeVendorCode Sample.pattern (UsePcs Sample.cfg) SampleFacts.skuMap Sample.box_2
       = Accepted "4821" n "sku1"
       /\ fetchProductData Sample.scrape Sample.start "4821" = (Some productData, st1)
       /\ Sample.ParseFloat (default EmptyString (productData !! "price"%string)) = Some p
       /\ CalcPrice (DesiredMargin Sample.cfg) (TaxRate Sample.cfg)
            ((GoFloat.float64_of_int 15 + 1) / 100)%float
            (GoFloat.float64_of_int
               (fixedCosts_of Sample.cfg
                  (GoInt.mul (GoFloat.int_of_float64 (GoFloat.Ceil p)) n)
                  (tariff_of 50 10 Sample.box_2)
                  (returns_of (tariff_of 50 10 Sample.box_2))))
          = Ok okPrice
       /\ In row (st_db SampleFacts.after_box_2)
       /\ col_product_id row = "4821"%string /\ col_pcs row = n
       /\ col_skus row = "sku1"%string
       /\ col_ok_price row = okPrice
       /\ col_commission row
          = GoFloat.int_of_float64
              (okPrice * ((GoFloat.float64_of_int 15 + 1) / 100))%float.
Proof.
  assert (H1 : SampleFacts.body Sample.start Sample.box_2 = Continue SampleFacts.after_box_2)
    by (vm_compute; reflexivity).
  assert (H2 : last (st_log SampleFacts.after_box_2) = Some (EvSaved "4821" "sku1"))
    by (vm_compute; reflexivity).
  split; [exact H1|]. split; [exact H2|]. split; [vm_compute; reflexivity|].
  exact (commission_amount Sample.scrape Sample.rand Sample.ParseFloat Sample.cfg 50 10 []
           Sample.commissions SampleFacts.skuMap Sample.pattern Sample.start
           SampleFacts.after_box_2 Sample.box_2 "4821" "sku1" H1 H2).
Defined.

(** C2, counterexample: with a marketplace percentage of 15.5 the row of the
    sample run holds a commission of 62, while the solved price times 0.155
    is about 60.33. *)
Lemma commission_counterexample :
  exists row : Row,
    In row SampleFacts.stored
    /\ col_commission row = 62
    /\ KgvpMarketplace <$> head Sample.commissions = Some 15.5%float
    /\ GoFloat.int_of_float64 (commission_as_specified (col_ok_price row) 15.5) = 60
    /\ (commission_as_specified (col_ok_price row) 15.5
        =? GoFloat.float64_of_int (col_commission row))%float = false.
Proof.
  eexists. split; [vm_compute; left; reflexivity|].
  repeat split; vm_compute; reflexivity.
Qed.

(** C3, counterexample: with a tax rate and a commission rate of [2^-54] and
    a margin of [1 - 2^-53] the three add up to exactly 1 (in binary64 as in
    the rationals: [(2^53 - 1) * 2^53 + 2 * 2^52 = 2^106]), and [CalcPrice]
    returns a price: [1 - 2^-54] rounds to 1 twice, and the denominator is
    [2^-53]. *)
Lemma CalcPrice_counterexample :
  let taxRate := 0x1p-54%float in
  let commissionRate := 0x1p-54%float in
  let desiredMargin := (1 - 0x1p-53)%float in
  (1 <=? taxRate + commissionRate + desiredMargin)%float = true
  /\ Prim2SF taxRate = S754_finite false (2 ^ 52) (-106)
  /\ Prim2SF desiredMargin = S754_finite false (2 ^ 53 - 1) (-53)
  /\ (2 ^ 53 - 1) * 2 ^ 53 + 2 * 2 ^ 52 = 2 ^ 106
  /\ ((1 - taxRate - commissionRate) - desiredMargin)%float = 0x1p-53%float
  /\ CalcPrice desiredMargin taxRate commissionRate 300 = Ok (300 / 0x1p-53)%float
  /\ CalcPrice desiredMargin taxRate commissionRate 300 <> Err InfeasibleMargin.
Proof.
  cbv zeta. repeat split; try (vm_compute; reflexivity). vm_compute. discriminate.
Qed.

(** C4, counterexample: with the pattern [^box_\d+_\d+$] and [UsePcs] set,
    ["box_4821"] is skipped, it is not accepted with pack count 1; and
    ["box_1_99999999999999999999"], whose third segment is numeric, is
    accepted with pack count 1, since the number does not fit an [int]. *)
Lemma vendor_code_counterexample :
  Regexp.Compile "^box_\d+_\d+$" = Some Sample.pattern
  /\ Card_VendorCode Sample.box_short = "box_4821"%string
  /\ extractSKUs [Sample.box_short] !! Card_NmID Sample.box_short = Some ["sku3"%string]
  /\ decodeVendorCode Sample.pattern true (extractSKUs [Sample.box_short]) Sample.box_short
     = SkipPattern
  /\ (forall productID sku,
       decodeVendorCode Sample.pattern true (extractSKUs [Sample.box_short])
         Sample.box_short
       <> Accepted productID 1 sku)
  /\ GoStr.Split (Card_VendorCode Sample.box_huge) "_"
     = ["box"; "1"; "99999999999999999999"]%string
  /\ NilZero.uint_of_string "99999999999999999999"
     = Some (Pos.to_uint 99999999999999999999)
  /\ GoStr.Atoi "99999999999999999999" = None
  /\ decodeVendorCode Sample.pattern true (extractSKUs [Sample.box_huge]) Sample.box_huge
     = Accepted "1" 1 "sku5".
Proof.
  assert (H : decodeVendorCode Sample.pattern true (extractSKUs [Sample.box_short])
                Sample.box_short = SkipPattern) by (vm_compute; reflexivity).
  split; [reflexivity|]. split; [reflexivity|]. split; [vm_compute; reflexivity|].
  split; [exact H|]. split; [intros productID sku; rewrite H; discriminate|].
  repeat split; vm_compute; reflexivity.
Qed.


(** C6, witness: a catalog with a matching card without stock-keeping
    identifier, after a card that is priced. *)
Lemma sku_fault_aborts_witness :
  Regexp.Compile (VendorCodePattern Sample.cfg) = Some Sample.pattern
  /\ In Sample.box_no_sku [Sample.box_2; Sample.box_no_sku]
  /\ Regexp.MatchString Sample.pattern (Card_VendorCode Sample.box_no_sku) = true
  /\ exists vc st',
       Sample.run Sample.scrape [Sample.box_2; Sample.box_no_sku] = Panic (SKUFault vc) st'.
Proof.
  assert (Hre : Regexp.Compile (VendorCodePattern Sample.cfg) = Some Sample.pattern)
    by reflexivity.
  assert (Hin : In Sample.box_no_sku [Sample.box_2; Sample.box_no_sku])
    by (right; left; reflexivity).
  assert (Hm : Regexp.MatchString Sample.pattern (Card_VendorCode Sample.box_no_sku) = true)
    by (vm_compute; reflexivity).
  split; [exact Hre|]. split; [exact Hin|]. split; [exact Hm|].
  refine (proj1 (sku_fault_aborts Sample.scrape Sample.rand Sample.ParseFloat
                   Regexp.Compile Sample.cfg 50 10 [Sample.box_2; Sample.box_no_sku] []
                   Sample.commissions Sample.pattern 0%nat Sample.box_no_sku Hre Hin Hm) _).
  vm_compute. discriminate.
Defined.

(** C7, witness: a record with the key of a stored row. *)
Lemma saveToDatabase_upsert_witness :
  unique_keys SampleFacts.stored
  /\ In ("4821"%string, 2) (map key SampleFacts.stored)
  /\ length (saveToDatabase SampleFacts.stored SampleFacts.params "sku9" 0.5)
     = length SampleFacts.stored
  /\ List.filter (fun old => bool_decide (key old = ("4821"%string, 2)))
       (saveToDatabase SampleFacts.stored SampleFacts.params "sku9" 0.5)
     = [row_of SampleFacts.params "sku9" 0.5]
  /\ col_skus (row_of SampleFacts.params "sku9" 0.5) = "sku9"%string
  /\ col_available_count (row_of SampleFacts.params "sku9" 0.5) = 7
  /\ col_commission (row_of SampleFacts.params "sku9" 0.5) = 62.
Proof.
  assert (Hu : unique_keys SampleFacts.stored).
  { unfold unique_keys.
    replace (map key SampleFacts.stored) with [("4821"%string, 2); ("4821"%string, 3)]
      by (vm_compute; reflexivity).
    apply (bool_decide_unpack _). vm_compute. exact I. }
  assert (Hin : In ("4821"%string, 2) (map key SampleFacts.stored)).
  { replace (map key SampleFacts.stored) with [("4821"%string, 2); ("4821"%string, 3)]
      by (vm_compute; reflexivity).
    now left. }
  destruct (saveToDatabase_upsert SampleFacts.stored SampleFacts.params "sku9" 0.5 Hu)
    as (Hcols & _ & Hone & _ & Hlen & _).
  destruct Hcols as (_ & _ & _ & _ & _ & _ & Hsku & _ & _ & _ & Hcount & _ & _ & Hcom & _).
  split; [exact Hu|]. split; [exact Hin|]. split; [exact (Hlen Hin)|].
  split; [exact Hone|]. split; [exact Hsku|]. split; [exact Hcount | exact Hcom].
Defined.

(** C8, witness: a tariff of base 50 and 10 per litre, and an infinite
    base. *)
Lemma tariff_at_one_liter_witness :
  GoFloat.is_finite 10 = true /\ PrimFloat.is_nan 50 = false
  /\ (CalculateTariff 1 50 10 =? 50)%float = true
  /\ (CalculateTariff 1 infinity 10 =? infinity)%float = true.
Proof.
  split; [reflexivity|]. split; [reflexivity|]. split.
  - apply (proj1 (tariff_at_one_liter 50 10)). split; reflexivity.
  - apply (proj1 (tariff_at_one_liter infinity 10)). split; reflexivity.
Defined.

(** C8, counterexample: with an infinite cost per litre the tariff at one
    litre is NaN, which equals nothing; so it is with a base that is NaN. *)
Lemma tariff_counterexample :
  Prim2SF (CalculateTariff 1 50 infinity) = S754_nan
  /\ (CalculateTariff 1 50 infinity =? 50)%float = false
  /\ (CalculateTariff 1 nan 10 =? nan)%float = false.
Proof. repeat split; vm_compute; reflexivity. Qed.

(** C9, witness: a catalog served in two pages, then an empty page. *)
Lemma fetchAllCards_terminates_witness :
  Served Sample.getCardsList 0%nat EmptyString 0 SampleFacts.pages 3%nat
  /\ fetchAllCards Sample.getCardsList 4 0%nat
     = Some ([Sample.box_2; Sample.box_3; Sample.box_short], 3%nat).
Proof.
  assert (Hs : Served Sample.getCardsList 0%nat EmptyString 0 SampleFacts.pages 3%nat).
  { unfold SampleFacts.pages.
    eapply Served_next; [reflexivity | repeat split; discriminate |].
    eapply Served_next; [reflexivity | repeat split; discriminate |].
    apply (Served_end Sample.getCardsList 2%nat _ _
             (Some {| Cards := [];
                      Response_Cursor := {| Cursor_UpdatedAt := ""; Cursor_NmID := 0;
                                            Cursor_Total := 0 |} |}) 3%nat);
      [reflexivity | left; reflexivity]. }
  split; [exact Hs|].
  apply (proj1 (fetchAllCards_terminates Sample.getCardsList 0%nat SampleFacts.pages 3%nat Hs)).
  cbn. lia.
Defined.

(** * Further properties *)

(** ** The price list *)

(** X1: the marketplace prices of a card are those of the first size of the
    first entry of the price list that has the card's vendor code; when that
    entry has no size the three prices are zero, whatever comes after it. *)
Theorem lookupPrices_first_match (before after : list Product) (p : Product)
    (vendorCode : string) :
  Forall (fun q => Product_VendorCode q <> vendorCode) before ->
  Product_VendorCode p = vendorCode ->
  lookupPrices (before ++ p :: after) vendorCode
  = match Product_Sizes p with
    | sz :: _ => (Price sz, DiscountedPrice sz, ClubDiscountedPrice sz)
    | [] => (0, 0, 0)%float
    end.
Proof.
  intros Hbefore Hp. induction Hbefore as [|q before Hq _ IH]; cbn [app lookupPrices].
  - rewrite Hp, String.eqb_refl. reflexivity.
  - apply String.eqb_neq in Hq. now rewrite Hq.
Qed.

Lemma lookupPrices_first_match_witness :
  lookupPrices Samples.prices "box_4821_2" = (0, 0, 0)%float.
Proof.
  apply (lookupPrices_first_match [Samples.product "box_77_1" [Samples.size 300]]
           [Samples.product "box_4821_2" [Samples.size 500]]
           (Samples.product "box_4821_2" []) "box_4821_2").
  - repeat constructor. discriminate.
  - reflexivity.
Defined.

(** X2: a card whose vendor code is not in the price list (and every card,
    when the price list is empty) is saved with the three marketplace prices
    at zero. *)
Theorem lookupPrices_absent (prices : list Product) (card : Card) (pcsInt : Z)
    (productID : string) (productData : gmap string string) (cost : Z) (tariff : float)
    (commission : Z) (okPrice : float) (sku : string) (r : float) :
  Forall (fun q => Product_VendorCode q <> Card_VendorCode card) prices ->
  let row :=
    row_of (mkParams prices card pcsInt productID productData cost tariff commission okPrice)
      sku r in
  lookupPrices prices (Card_VendorCode card) = (0, 0, 0)%float
  /\ col_price row = 0%float
  /\ col_discounted_price row = 0%float
  /\ col_club_discounted_price row = 0%float.
Proof.
  intros Habsent row.
  assert (H : lookupPrices prices (Card_VendorCode card) = (0, 0, 0)%float).
  { induction Habsent as [|q l Hq _ IH]; [reflexivity|].
    cbn [lookupPrices]. apply String.eqb_neq in Hq. now rewrite Hq. }
  split; [exact H|].
  unfold row, row_of, mkParams. rewrite H.
  destruct (calculateNewPriceAndDiscount r _) as [newPrice newDiscount].
  cbn. repeat split.
Qed.

Lemma lookupPrices_absent_witness :
  lookupPrices Samples.prices (Card_VendorCode Sample.box_3) = (0, 0, 0)%float
  /\ col_price
       (row_of (mkParams Samples.prices Sample.box_3 3 "4821" ∅ 6 50 62 400) "sku2" 0.5)
     = 0%float.
Proof.
  destruct (lookupPrices_absent Samples.prices Sample.box_3 3 "4821" ∅ 6 50 62 400
              "sku2" 0.5) as (H1 & H2 & _).
  - repeat constructor; discriminate.
  - split; [exact H1 | exact H2].
Defined.

(** ** The stock-keeping identifiers *)

(** X3: the identifiers resolved for a catalog id are those of the last card
    of the catalog with that id (earlier cards with the same id are processed
    with the identifiers of the last one), and there is no entry for an id
    that no card has. *)
Theorem extractSKUs_last_wins (cards : list Card) (nmID : Z) :
  extractSKUs cards !! nmID
  = card_skus <$> last (List.filter (fun c => Card_NmID c =? nmID) cards).
Proof.
  induction cards as [|c l IH] using rev_ind; [reflexivity|].
  rewrite extractSKUs_snoc, List.filter_app. cbn [List.filter].
  destruct (Card_NmID c =? nmID) eqn:Hc.
  - apply Z.eqb_eq in Hc. rewrite Hc, lookup_insert_eq. now rewrite last_snoc.
  - apply Z.eqb_neq in Hc. rewrite lookup_insert_ne by assumption.
    now rewrite app_nil_r.
Qed.

(** ** The cost of a pack *)

(** X4: a pack count printed with [%d] always reads back, so in the card loop
    [convertAndMultiply] fails only when the scraped price is not a number,
    and otherwise returns the price rounded up times the pack count, in
    [int] arithmetic.  An unreadable price is reported before an unreadable
    multiplier. *)
Theorem convertAndMultiply_round_trip (ParseFloat : string -> option float)
    (priceStr : string) (pcsInt : Z) :
  GoInt.in_range pcsInt = true ->
  convertAndMultiply ParseFloat priceStr (GoStr.Sprintf_d pcsInt)
  = match ParseFloat priceStr with
    | Some price => Ok (GoInt.wrap (GoFloat.int_of_float64 (GoFloat.Ceil price) * pcsInt))
    | None => Err PriceConversion
    end
  /\ (ParseFloat priceStr = None ->
      forall multiplierStr,
        convertAndMultiply ParseFloat priceStr multiplierStr = Err PriceConversion)
  /\ (forall multiplierStr,
        ParseFloat priceStr <> None -> GoStr.Atoi multiplierStr = None ->
        convertAndMultiply ParseFloat priceStr multiplierStr = Err MultiplierConversion).
Proof.
  intros Hrange. unfold convertAndMultiply. rewrite (Atoi_Sprintf_d _ Hrange).
  split; [|split].
  - now destruct (ParseFloat priceStr).
  - now intros ->.
  - intros m Hp ->. now destruct (ParseFloat priceStr).
Qed.

Lemma convertAndMultiply_round_trip_witness :
  convertAndMultiply Sample.ParseFloat "1.5" (GoStr.Sprintf_d 3) = Ok 6.
Proof.
  destruct (convertAndMultiply_round_trip Sample.ParseFloat "1.5" 3) as [H _].
  - reflexivity.
  - rewrite H. vm_compute. reflexivity.
Defined.

(** ** The record store, in any order *)

Lemma do_update_key (old new : Row) : key (do_update old new) = key old.
Proof. reflexivity. Qed.

Lemma conflicts_exclusive (old a b : Row) :
  key a <> key b -> conflicts old a = true -> conflicts old b = false.
Proof.
  intros Hab Ha. destruct (conflicts old b) eqn:Hb; [|reflexivity].
  apply conflicts_key in Ha, Hb. congruence.
Qed.

(** X5: writes for different keys commute: saving two rows with different
    [(product_id, pcs)] in either order leaves the same rows in the table (a
    fresh row is appended, so the order of the rows may differ). *)
Theorem insert_on_conflict_update_commute (a b : Row) (tbl : Table) :
  key a <> key b ->
  insert_on_conflict_update a (insert_on_conflict_update b tbl)
  ≡ₚ insert_on_conflict_update b (insert_on_conflict_update a tbl).
Proof.
  intros Hab. induction tbl as [|old rest IH]; cbn [insert_on_conflict_update].
  - destruct (conflicts b a) eqn:Hba.
    { apply conflicts_key in Hba. congruence. }
    destruct (conflicts a b) eqn:Hab'.
    { apply conflicts_key in Hab'. congruence. }
    apply perm_swap.
  - destruct (conflicts old a) eqn:Ha; destruct (conflicts old b) eqn:Hb.
    + apply conflicts_key in Ha, Hb. congruence.
    + cbn [insert_on_conflict_update]. rewrite Ha.
      assert (Hb' : conflicts (do_update old a) b = false).
      { destruct (conflicts (do_update old a) b) eqn:Hc; [|reflexivity].
        apply conflicts_key in Hc. rewrite do_update_key in Hc.
        apply conflicts_key in Ha. congruence. }
      now rewrite Hb'.
    + cbn [insert_on_conflict_update]. rewrite Hb.
      assert (Ha' : conflicts (do_update old b) a = false).
      { destruct (conflicts (do_update old b) a) eqn:Hc; [|reflexivity].
        apply conflicts_key in Hc. rewrite do_update_key in Hc.
        apply conflicts_key in Hb. congruence. }
      now rewrite Ha'.
    + cbn [insert_on_conflict_update]. rewrite Ha, Hb. now constructor.
Qed.

Lemma insert_on_conflict_update_commute_witness :
  insert_on_conflict_update (row_of SampleFacts.params "sku9" 0.5)
    (insert_on_conflict_update
       (row_of (mkParams [] Sample.box_3 7 "4821" ∅ 6 50 62 400) "sku2" 0.5)
       SampleFacts.stored)
  ≡ₚ insert_on_conflict_update
       (row_of (mkParams [] Sample.box_3 7 "4821" ∅ 6 50 62 400) "sku2" 0.5)
       (insert_on_conflict_update (row_of SampleFacts.params "sku9" 0.5) SampleFacts.stored).
Proof.
  apply insert_on_conflict_update_commute. rewrite !row_of_key. cbn. discriminate.
Defined.

(** X20: when the product data has no store count, or one that is no
    number, [saveToDatabase] logs the conversion warning and saves the row
    all the same, with [available_count] at zero. *)
Theorem saveToDatabase_unreadable_count (db : Table) (prices : list Product) (card : Card)
    (pcsInt : Z) (productID : string) (productData : gmap string string) (cost : Z)
    (tariff : float) (commission : Z) (okPrice : float) (sku : string) (r : float) :
  match productData !! "availableCount"%string with
  | Some s => GoStr.Atoi s = None
  | None => True
  end ->
  let params :=
    mkParams prices card pcsInt productID productData cost tariff commission okPrice in
  col_available_count (row_of params sku r) = 0
  /\ saveToDatabase_log params sku
     = [EvAvailableCountError productID; EvSaved productID sku]
  /\ In (row_of params sku r) (saveToDatabase db params sku r).
Proof.
  intros Hcount params.
  assert (Hatoi : GoStr.Atoi (AvailableCountStr params) = None).
  { unfold params, mkParams.
    destruct (lookupPrices prices (Card_VendorCode card)) as [[p1 p2] p3].
    cbn [AvailableCountStr].
    destruct (productData !! "availableCount"%string) as [s|]; [exact Hcount | reflexivity]. }
  split; [|split].
  - unfold row_of. rewrite Hatoi.
    now destruct (calculateNewPriceAndDiscount r (OKPrice params)).
  - unfold saveToDatabase_log. rewrite Hatoi. unfold params, mkParams.
    now destruct (lookupPrices prices (Card_VendorCode card)) as [[p1 p2] p3].
  - apply upsert_in.
Qed.

Lemma saveToDatabase_unreadable_count_witness :
  col_available_count
    (row_of (mkParams [] Sample.box_2 2 "4821" ∅ 4 50 62 400) "sku1" 0.5) = 0
  /\ saveToDatabase_log (mkParams [] Sample.box_2 2 "4821" ∅ 4 50 62 400) "sku1"
     = [EvAvailableCountError "4821"; EvSaved "4821" "sku1"].
Proof.
  destruct (saveToDatabase_unreadable_count [] [] Sample.box_2 2 "4821" ∅ 4 50 62 400
              "sku1" 0.5) as (H1 & H2 & _).
  - vm_compute. exact I.
  - split; [exact H1 | exact H2].
Defined.

(** ** The segments of a vendor code *)

Lemma Split_cons (c : ascii) (s : string) (sep : ascii) :
  GoStr.Split (String c s) sep
  = if Ascii.eqb c sep then EmptyString :: GoStr.Split s sep
    else match GoStr.Split s sep with
         | p :: ps => String c p :: ps
         | [] => [String c EmptyString]
         end.
Proof. reflexivity. Qed.

Lemma string_app_nil_r (s : string) : (s ++ EmptyString)%string = s.
Proof.
  induction s as [|c s IH]; [reflexivity|].
  change (String c (s ++ EmptyString)%string = String c s). now rewrite IH.
Qed.

(** The first two segments of a split, and what follows them. *)
Lemma Split_two (s : string) (sep : ascii) :
  forall (first second : string) (rest : list string),
  GoStr.Split s sep = first :: second :: rest ->
  GoStrings.occurs sep first = false
  /\ GoStrings.occurs sep second = false
  /\ exists tail : string,
       s = (first ++ String sep (second ++ tail))%string
       /\ (tail = EmptyString \/ exists t, tail = String sep t).
Proof.
  assert (Hhead : forall s first rest, GoStr.Split s sep = first :: rest ->
            GoStrings.occurs sep first = false
            /\ match rest with
               | [] => s = first
               | _ :: _ => exists s', s = (first ++ String sep s')%string
                                      /\ GoStr.Split s' sep = rest
               end).
  { induction s0 as [|c s0 IH]; intros first0 rest0 H.
    - injection H as <- <-. now split.
    - rewrite Split_cons in H. destruct (Ascii.eqb c sep) eqn:Hc.
      + injection H as <- <-. split; [reflexivity|].
        apply Ascii.eqb_eq in Hc as ->.
        destruct (GoStr.Split s0 sep) eqn:Hs; [now apply Split_nonempty in Hs|].
        exists s0. now split.
      + destruct (GoStr.Split s0 sep) as [|p ps] eqn:Hs; [now apply Split_nonempty in Hs|].
        injection H as <- <-. destruct (IH p ps eq_refl) as [Hp Hrest].
        split; [cbn; now rewrite Hc|].
        destruct ps as [|q qs].
        * now subst.
        * destruct Hrest as (s' & -> & Hs'). exists s'. now split. }
  intros first second rest H.
  destruct (Hhead s first (second :: rest) H) as (Hfirst & s' & -> & Hs').
  destruct (Hhead s' second rest Hs') as (Hsecond & Hrest).
  repeat split; try assumption.
  destruct rest as [|third rest].
  - exists EmptyString. split; [|now left]. subst s'. now rewrite string_app_nil_r.
  - destruct Hrest as (s'' & -> & _). exists (String sep s''). split; [reflexivity|].
    right. now exists s''.
Qed.

(** X6: the product id of an accepted vendor code is the text between its
    first and its second underscore (or the end of the code): the code is
    [first_productID] followed by nothing or by an underscore and more, and
    neither [first] nor the product id holds an underscore. *)
Theorem decodeVendorCode_between_underscores (re : Regexp.t) (usePcs : bool)
    (skuMap : gmap Z (list string)) (card : Card) (productID : string) (pcsInt : Z)
    (sku : string) :
  decodeVendorCode re usePcs skuMap card = Accepted productID pcsInt sku ->
  GoStrings.occurs "_" productID = false
  /\ exists first tail : string,
       Card_VendorCode card = (first ++ String "_" (productID ++ tail))%string
       /\ GoStrings.occurs "_" first = false
       /\ (tail = EmptyString \/ exists t, tail = String "_" t).
Proof.
  intros H. apply decode_accepted in H as (_ & _ & Hlen & -> & _).
  destruct (GoStr.Split (Card_VendorCode card) "_") as [|first [|second rest]] eqn:Hs;
    cbn [length] in Hlen; try lia.
  destruct (Split_two _ _ _ _ _ Hs) as (Hfirst & Hsecond & tail & Hvc & Htail).
  cbn [nth]. split; [assumption|]. exists first, tail. now repeat split.
Qed.

Lemma decodeVendorCode_between_underscores_witness :
  GoStrings.occurs "_" "4821" = false
  /\ exists first tail : string,
       Card_VendorCode Sample.box_2 = (first ++ String "_" ("4821" ++ tail))%string
       /\ GoStrings.occurs "_" first = false
       /\ (tail = EmptyString \/ exists t, tail = String "_" t).
Proof.
  apply (decodeVendorCode_between_underscores Sample.pattern true SampleFacts.skuMap
           Sample.box_2 "4821" 2 "sku1").
  vm_compute. reflexivity.
Defined.

(** ** A catalog without an end *)

Section EndlessSource.

Context {World : Type}.
Variable getCardsList : World -> string -> Z -> option CardsListResponse * World.

(** X7: the walker has no bound of its own on the number of pages: when the
    source answers every request with a non-empty page and a full cursor
    (the same cursor again, for example), the loop is still asking after any
    number of requests. *)
Theorem fetchAllCards_endless :
  (forall w updatedAt nmID,
     exists response w',
       getCardsList w updatedAt nmID = (Some response, w') /\ continues response) ->
  forall (fuel : nat) (w : World), fetchAllCards getCardsList fuel w = None.
Proof.
  intros Hsource fuel. unfold fetchAllCards.
  generalize (@nil Card) EmptyString 0.
  induction fuel as [|fuel IH]; intros allCards updatedAt nmID w; [reflexivity|].
  destruct (Hsource w updatedAt nmID) as (response & w' & Hget & Hcont).
  rewrite (loop_continues getCardsList fuel w allCards updatedAt nmID response w' Hget Hcont).
  apply IH.
Qed.

End EndlessSource.

Lemma fetchAllCards_endless_witness :
  fetchAllCards EndlessCatalog.getCardsList 1000 0%nat = None.
Proof.
  apply fetchAllCards_endless. intros w updatedAt nmID.
  eexists _, _. split; [reflexivity|]. repeat split; discriminate.
Defined.

(** ** The sign of the solved price *)

Lemma SFdiv_core_binary_nonneg (mx : positive) (ex : Z) (my : positive) (ey : Z) :
  0 <= fst (fst (SFdiv_core_binary prec emax (Zpos mx) ex (Zpos my) ey)).
Proof.
  unfold SFdiv_core_binary.
  set (s := ex - ey - _).
  set (m' := match s with 0 => Zpos mx | Zpos _ => Z.shiftl (Zpos mx) s | Zneg _ => 0 end).
  assert (Hm' : 0 <= m').
  { unfold m'. destruct s; try lia. apply Z.shiftl_nonneg. lia. }
  pose proof (Z_div_mod m' (Zpos my) ltac:(lia)) as Hdiv.
  destruct (Z.div_eucl m' (Zpos my)) as [q r]. cbn [fst]. nia.
Qed.

(** A quotient below zero over a divisor above zero has a dividend below
    zero. *)
Lemma SFdiv_negative (x y : spec_float) :
  SFltb (SF64div x y) (S754_zero false) = true ->
  SFleb y (S754_zero false) = false ->
  SFltb x (S754_zero false) = true /\ SFltb (S754_zero false) y = true.
Proof.
  unfold SF64div.
  destruct x as [sx|sx| |sx mx ex], y as [sy|sy| |sy my ey];
    cbn [SFdiv SFltb SFleb SFcompare]; try discriminate;
    try (destruct sx, sy; cbn [xorb]; intros H1 H2; try discriminate; now split).
  pose proof (SFdiv_core_binary_nonneg mx ex my ey) as Hq.
  destruct (SFdiv_core_binary prec emax (Zpos mx) ex (Zpos my) ey) as [[mz ez] lz].
  cbn [fst] in Hq.
  pose proof (binary_round_aux_sign (xorb sx sy) mz ez lz Hq) as Hsign.
  destruct (binary_round_aux prec emax (xorb sx sy) mz ez lz) as [s|s| |s m e];
    cbn [SFltb SFcompare]; try discriminate; try contradiction;
    subst s; destruct sx, sy; cbn [xorb]; intros H1 H2; try discriminate; now split.
Qed.

(** ** What a run leaves in the store and in the cache *)

Lemma upsert_length_le (new : Row) (tbl : Table) :
  (length (insert_on_conflict_update new tbl) <= S (length tbl))%nat.
Proof.
  induction tbl as [|old rest IH]; cbn [insert_on_conflict_update length]; [lia|].
  destruct (conflicts old new); cbn [length]; lia.
Qed.

Section RunInvariants.

Context {World : Type}.
Variable scrapeProductData : World -> string -> option (gmap string string) * World.
Variable rand_Float64 : World -> float * World.
Variable ParseFloat : string -> option float.
Variable cfg : Config.
Variable base liter : float.
Variable prices : list Product.
Variable commissionRate : Z.
Variable skuMap : gmap Z (list string).
Variable vendorCodePattern : Regexp.t.

#[local] Abbreviation fetch := (fetchProductData scrapeProductData).
#[local] Abbreviation body :=
  (processCard scrapeProductData rand_Float64 ParseFloat cfg base liter prices commissionRate
     skuMap vendorCodePattern).
#[local] Abbreviation run :=
  (processCards scrapeProductData rand_Float64 ParseFloat cfg base liter prices
     commissionRate skuMap vendorCodePattern).
#[local] Abbreviation decode := (decodeVendorCode vendorCodePattern (UsePcs cfg) skuMap).
#[local] Abbreviation written := (stored_for base liter prices decode).

(** One turn of the loop leaves the table as it is or saves the row of the
    card. *)
Lemma body_db (st st' : State World) (card : Card) :
  body st card = Continue st' ->
  st_db st' = st_db st
  \/ exists row, written card row /\ st_db st' = insert_on_conflict_update row (st_db st).
Proof.
  unfold processCard. intros Hb.
  destruct (decode card) as [| | |pid pcsInt sku] eqn:Hd; try discriminate.
  - injection Hb as <-. now left.
  - injection Hb as <-. now left.
  - destruct (fetch st pid) as [[productData|] st1] eqn:Hf; injection Hb as <-.
    + pose proof (fetch_db _ _ _ _ _ Hf) as Hdb.
      assert (Hrange : GoInt.in_range pcsInt = true).
      { apply decode_accepted in Hd as (_ & _ & _ & _ & ->). apply packCount_in_range. }
      destruct (priceAndSave_cases rand_Float64 ParseFloat cfg base liter prices
                  commissionRate st1 card pid pcsInt sku productData Hrange)
        as [[_ ->] | (price & _ & [(e & _ & ->) | (okPrice & _ & ->)])].
      * left. exact Hdb.
      * left. exact Hdb.
      * right. cbn [st_db]. rewrite Hdb. unfold saveToDatabase.
        eexists. split; [|reflexivity].
        unfold stored_for, row_of, mkParams.
        destruct (lookupPrices prices (Card_VendorCode card)) as [[p1 p2] p3].
        destruct (calculateNewPriceAndDiscount _ _) as [newPrice newDiscount].
        cbn. now repeat split.
    + left. now apply fetch_db in Hf.
Qed.

Lemma run_db (cards : list Card) :
  forall st st' : State World,
  run st cards = Continue st' ->
  (unique_keys (st_db st) -> unique_keys (st_db st'))
  /\ (length (st_db st') <= length (st_db st) + length cards)%nat
  /\ (forall row, In row (st_db st') ->
      In row (st_db st) \/ exists card, In card cards /\ written card row).
Proof.
  induction cards as [|card rest IH]; intros st st' Hrun; cbn [processCards] in Hrun.
  - injection Hrun as <-. cbn [length]. split; [tauto|]. split; [lia|]. now left.
  - destruct (body st card) as [st1|fault st1] eqn:Hb; [|discriminate].
    destruct (IH st1 st' Hrun) as (Huniq & Hlen & Hrows).
    destruct (body_db st st1 card Hb) as [Hdb | (new & Hnew & Hdb)]; rewrite Hdb in *.
    + split; [assumption|]. split; [cbn [length]; lia|].
      intros row Hin. destruct (Hrows row Hin) as [|(c & Hc & Hw)]; [now left|].
      right. exists c. split; [now right | assumption].
    + split; [intros H; now apply Huniq, upsert_unique|].
      split.
      { pose proof (upsert_length_le new (st_db st)). cbn [length]. lia. }
      intros row Hin. destruct (Hrows row Hin) as [Hold|(c & Hc & Hw)].
      * assert (HF : Forall (fun r => In r (st_db st) \/ r = new)
                       (insert_on_conflict_update new (st_db st))).
        { apply upsert_Forall; [now right|]. apply List.Forall_forall. now left. }
        rewrite List.Forall_forall in HF. destruct (HF row Hold) as [Hr | ->]; [now left|].
        right. exists card. split; [now left | assumption].
      * right. exists c. split; [now right | assumption].
Qed.

(** What one fetch does to the cache. *)
Lemma fetch_cache (st st' : State World) (productID : string) answer :
  fetch st productID = (answer, st') ->
  st_cache st ⊆ st_cache st'
  /\ forall p d, st_cache st' !! p = Some d ->
       st_cache st !! p = Some d \/ scraped scrapeProductData p d.
Proof.
  intros Hf. pose proof (fetch_cases scrapeProductData st productID) as Hc. cbn zeta in Hc.
  destruct (st_cache st !! productID) as [d0|] eqn:Hlook.
  - rewrite Hc in Hf. injection Hf as <- <-. cbn [say st_cache]. split; [reflexivity|].
    intros p d H. now left.
  - destruct (scrapeProductData (st_world st) (baseURL ++ productID ++ "/")%string)
      as [[d1|] w] eqn:Hs; rewrite Hc in Hf; injection Hf as <- <-; cbn [st_cache].
    + split; [now apply insert_subseteq|].
      intros p d H. destruct (decide (p = productID)) as [->|Hne].
      * rewrite lookup_insert_eq in H. injection H as <-. right.
        now exists (st_world st), w.
      * rewrite lookup_insert_ne in H by congruence. now left.
    + split; [reflexivity|]. intros p d H. now left.
Qed.

Lemma priceAndSave_cache (st : State World) card productID pcsInt sku productData :
  st_cache (priceAndSave rand_Float64 ParseFloat cfg base liter prices commissionRate
              st card productID pcsInt sku productData) = st_cache st.
Proof.
  unfold priceAndSave. destruct (convertAndMultiply _ _ _); [|reflexivity].
  cbn zeta. destruct (CalcPrice _ _ _ _); [|reflexivity].
  cbn [say st_world]. now destruct (rand_Float64 (st_world st)).
Qed.

Lemma body_cache (st st' : State World) (card : Card) :
  body st card = Continue st' ->
  st_cache st ⊆ st_cache st'
  /\ forall p d, st_cache st' !! p = Some d ->
       st_cache st !! p = Some d \/ scraped scrapeProductData p d.
Proof.
  unfold processCard. intros Hb.
  destruct (decode card) as [| | |pid pcsInt sku]; try discriminate.
  - injection Hb as <-. split; [reflexivity | now left].
  - injection Hb as <-. split; [reflexivity | now left].
  - destruct (fetch st pid) as [[productData|] st1] eqn:Hf; injection Hb as <-.
    + rewrite priceAndSave_cache. now apply fetch_cache in Hf.
    + now apply fetch_cache in Hf.
Qed.

(** X9: the cache only grows during the card loop, no entry is ever
    changed or dropped, and every entry is a result that the collaborator
    returned for the page of that product id. *)
Theorem cache_grows (cards : list Card) (st st' : State World) :
  run st cards = Continue st' ->
  st_cache st ⊆ st_cache st'
  /\ forall p d, st_cache st' !! p = Some d ->
       st_cache st !! p = Some d \/ scraped scrapeProductData p d.
Proof.
  revert st. induction cards as [|card rest IH]; intros st Hrun; cbn [processCards] in Hrun.
  - injection Hrun as <-. split; [reflexivity | now left].
  - destruct (body st card) as [st1|fault st1] eqn:Hb; [|discriminate].
    destruct (body_cache st st1 card Hb) as [Hsub1 Horigin1].
    destruct (IH st1 Hrun) as [Hsub Horigin].
    split; [now transitivity (st_cache st1)|].
    intros p d H. destruct (Horigin p d H) as [H1|]; [|now right]. now apply Horigin1.
Qed.

(** The loop stops at the first card with a stock-keeping identifier
    fault, in the state that the cards before it have left. *)
Lemma run_first_fault (cards : list Card) (st st' : State World) (fault : Fault) :
  run st cards = Panic fault st' <->
  exists before card after,
    cards = before ++ card :: after
    /\ Forall (fun c => decode c <> PanicSKU) before
    /\ decode card = PanicSKU
    /\ fault = SKUFault (Card_VendorCode card)
    /\ run st before = Continue st'.
Proof.
  revert st. induction cards as [|c rest IH]; intros st; cbn [processCards].
  - split; [discriminate|]. intros (before & card & after & H & _). now destruct before.
  - destruct (body st c) as [st1|fault1 st1] eqn:Hb.
    + assert (Hc : decode c <> PanicSKU).
      { intros Hp.
        assert (body st c = Panic (SKUFault (Card_VendorCode c)) st) by now apply body_panic.
        congruence. }
      rewrite IH. split.
      * intros (before & card & after & -> & Hbefore & Hcard & -> & Hrun).
        exists (c :: before), card, after. repeat split; try assumption; [now constructor|].
        cbn [processCards]. now rewrite Hb.
      * intros (before & card & after & Heq & Hbefore & Hcard & -> & Hrun).
        destruct before as [|b before]; cbn [app] in Heq; injection Heq as <- ->.
        -- contradiction.
        -- exists before, card, after. repeat split; try assumption;
             [now inversion Hbefore|].
           cbn [processCards] in Hrun. now rewrite Hb in Hrun.
    + apply body_panic in Hb as (Hc & -> & ->). split.
      * intros [= <- <-]. exists [], c, rest.
        repeat split; [constructor | assumption].
      * intros (before & card & after & Heq & Hbefore & Hcard & -> & Hrun).
        destruct before as [|b before]; cbn [app] in Heq; injection Heq as <- ->.
        -- cbn [processCards] in Hrun. now injection Hrun as <-.
        -- inversion Hbefore; contradiction.
Qed.

End RunInvariants.

Lemma cache_grows_witness :
  let st' := state_of (Sample.run Sample.scrape [Sample.box_2; Sample.box_3]) in
  st_cache Sample.start ⊆ st_cache st'
  /\ forall p d, st_cache st' !! p = Some d ->
       st_cache Sample.start !! p = Some d \/ scraped Sample.scrape p d.
Proof.
  apply (cache_grows Sample.scrape Sample.rand Sample.ParseFloat Sample.cfg 50 10 []
           (commissionRate_of Sample.commissions)
           (extractSKUs [Sample.box_2; Sample.box_3]) Sample.pattern
           [Sample.box_2; Sample.box_3] Sample.start).
  vm_compute. reflexivity.
Defined.

Lemma sku_fault_decode (re : Regexp.t) (usePcs : bool) (skuMap : gmap Z (list string))
    (card : Card) :
  decodeVendorCode re usePcs skuMap card = PanicSKU <-> sku_fault re skuMap card.
Proof. apply decode_panic. Qed.

Section ProcessFacts.

Context {World : Type}.
Variable scrapeProductData : World -> string -> option (gmap string string) * World.
Variable rand_Float64 : World -> float * World.
Variable ParseFloat : string -> option float.
Variable regexp_Compile : string -> option Regexp.t.

#[local] Abbreviation process :=
  (Process scrapeProductData rand_Float64 ParseFloat regexp_Compile).

(** X10: a run that ends leaves at most one row for each
    [(product_id, pcs)], and no more rows than the catalog has cards. *)
Theorem Process_one_row_per_key (cfg : Config) (base liter : float) (allCards : list Card)
    (prices : list Product) (commissions : list Commission) (w : World)
    (st' : State World) :
  process cfg base liter allCards prices commissions w = Continue st' ->
  unique_keys (st_db st') /\ (length (st_db st') <= length allCards)%nat.
Proof.
  unfold Process. destruct (regexp_Compile (VendorCodePattern cfg)) as [re|]; [|discriminate].
  intros Hrun.
  destruct (run_db _ _ _ _ _ _ _ _ _ _ _ _ _ Hrun) as (Huniq & Hlen & _).
  cbn [st_db createTable length] in Huniq, Hlen.
  split; [apply Huniq; constructor | exact Hlen].
Qed.

(** X11: every row a run leaves in the table, whether the run ends or
    panics, was written for a card of the catalog: its key and identifier are
    those decoded from that card with the compiled pattern, and it holds the
    card's catalog id, vendor code and dimensions, the tariff of these
    dimensions and the marketplace prices looked up for the vendor code. *)
Theorem Process_rows_of_cards (cfg : Config) (base liter : float) (allCards : list Card)
    (prices : list Product) (commissions : list Commission) (w : World) (row : Row) :
  In row (st_db (state_of (process cfg base liter allCards prices commissions w))) ->
  exists (re : Regexp.t) (card : Card),
    regexp_Compile (VendorCodePattern cfg) = Some re
    /\ In card allCards
    /\ stored_for base liter prices
         (decodeVendorCode re (UsePcs cfg) (extractSKUs allCards)) card row.
Proof.
  unfold Process. destruct (regexp_Compile (VendorCodePattern cfg)) as [re|]; [|intros []].
  intros Hin.
  destruct (run_state_prefix scrapeProductData rand_Float64 ParseFloat cfg base liter prices
              (commissionRate_of commissions) (extractSKUs allCards) re allCards
              {| st_cache := ∅; st_db := createTable; st_world := w; st_log := [] |})
    as (before & after & Heq & Hrun).
  destruct (run_db _ _ _ _ _ _ _ _ _ _ _ _ _ Hrun) as (_ & _ & Hrows).
  destruct (Hrows row Hin) as [[] | (card & Hcard & Hw)].
  exists re, card. split; [reflexivity|]. split; [|exact Hw].
  rewrite Heq. apply in_or_app. now left.
Qed.

(** X12: from the commission lookup on, [Process] panics in two cases and
    no other.  Either [regexp.MustCompile] rejects the pattern of the
    configuration: no card has been looked at then, and the table is empty.
    Or a card of the catalog matches the pattern without having exactly one
    stock-keeping identifier: the panic names the first such card, no later
    card is looked at, and the state is the one that the cards before it have
    left, their rows in the table. *)
Theorem Process_panics_at_first_fault (cfg : Config) (base liter : float)
    (allCards : list Card) (prices : list Product) (commissions : list Commission)
    (w : World) (fault : Fault) (st' : State World) :
  let start := {| st_cache := ∅; st_db := createTable; st_world := w; st_log := [] |} in
  process cfg base liter allCards prices commissions w = Panic fault st' <->
  (regexp_Compile (VendorCodePattern cfg) = None
   /\ fault = PatternFault (VendorCodePattern cfg)
   /\ st' = start)
  \/ exists (re : Regexp.t) (before : list Card) (card : Card) (after : list Card),
       regexp_Compile (VendorCodePattern cfg) = Some re
       /\ allCards = before ++ card :: after
       /\ Forall (fun c => ~ sku_fault re (extractSKUs allCards) c) before
       /\ sku_fault re (extractSKUs allCards) card
       /\ fault = SKUFault (Card_VendorCode card)
       /\ processCards scrapeProductData rand_Float64 ParseFloat cfg base liter prices
            (commissionRate_of commissions) (extractSKUs allCards) re start before
          = Continue st'.
Proof.
  intros start. unfold Process. fold start.
  destruct (regexp_Compile (VendorCodePattern cfg)) as [re|].
  - rewrite run_first_fault. split.
    + intros (before & card & after & Heq & Hbefore & Hcard & Hfault & Hrun). right.
      exists re, before, card, after. split; [reflexivity|]. split; [exact Heq|].
      apply sku_fault_decode in Hcard.
      split; [|split; [exact Hcard | now split]].
      eapply List.Forall_impl; [|exact Hbefore].
      intros c Hc Hf. apply Hc. apply sku_fault_decode. exact Hf.
    + intros [(Hnone & _) | (re' & before & card & after & Hre & Heq & Hbefore & Hcard
                               & Hfault & Hrun)]; [discriminate|].
      injection Hre as <-. exists before, card, after. split; [exact Heq|].
      split; [|split; [apply sku_fault_decode; exact Hcard | now split]].
      eapply List.Forall_impl; [|exact Hbefore].
      intros c Hc Hd. apply Hc. apply sku_fault_decode in Hd. exact Hd.
  - split.
    + intros [= <- <-]. now left.
    + intros [(_ & -> & ->) | (re & before & card & after & Hre & _)];
        [reflexivity | discriminate].
Qed.

End ProcessFacts.

Lemma Process_one_row_per_key_witness :
  unique_keys SampleFacts.stored /\ (length SampleFacts.stored <= 2)%nat.
Proof.
  apply (Process_one_row_per_key Sample.scrape Sample.rand Sample.ParseFloat Regexp.Compile
           Sample.cfg 50 10 [Sample.box_2; Sample.box_3] [] Sample.commissions 0%nat).
  vm_compute. reflexivity.
Defined.

(** A run that panics at its second card: the row of the first card is in
    the table. *)
Example sample_run_panic :
  exists st',
    Sample.run Sample.scrape [Sample.box_2; Sample.box_no_sku]
    = Panic (SKUFault "box_77_1") st'
    /\ map (fun row => (col_product_id row, col_pcs row, col_cost row, col_commission row))
         (st_db st')
       = [("4821"%string, 2, 4, 62)].
Proof. eexists. split; vm_compute; reflexivity. Qed.

Lemma Process_rows_of_cards_witness :
  Forall
    (fun row =>
       exists (re : Regexp.t) (card : Card),
         Regexp.Compile (VendorCodePattern Sample.cfg) = Some re
         /\ In card [Sample.box_2; Sample.box_no_sku]
         /\ stored_for 50 10 []
              (decodeVendorCode re (UsePcs Sample.cfg)
                 (extractSKUs [Sample.box_2; Sample.box_no_sku])) card row)
    (st_db (state_of (Sample.run Sample.scrape [Sample.box_2; Sample.box_no_sku]))).
Proof.
  apply List.Forall_forall.
  exact (Process_rows_of_cards Sample.scrape Sample.rand Sample.ParseFloat Regexp.Compile
           Sample.cfg 50 10 [Sample.box_2; Sample.box_no_sku] [] Sample.commissions 0%nat).
Defined.

(** ** Replacing a byte *)

Lemma occurs_app (c : ascii) (s t : string) :
  GoStrings.occurs c (s ++ t) = GoStrings.occurs c s || GoStrings.occurs c t.
Proof.
  induction s as [|a s IH]; [reflexivity|].
  change (GoStrings.occurs c (String a (s ++ t)%string)
          = GoStrings.occurs c (String a s) || GoStrings.occurs c t).
  cbn [GoStrings.occurs]. rewrite IH. now rewrite orb_assoc.
Qed.

(** After the replacement a byte occurs where it occurred before or where the
    replacement brought it, and the replaced byte only comes from the
    replacement. *)
Lemma occurs_ReplaceAll (c old : ascii) (new s : string) :
  GoStrings.occurs c (GoStrings.ReplaceAll s old new)
  = (negb (Ascii.eqb c old) && GoStrings.occurs c s)
    || (GoStrings.occurs old s && GoStrings.occurs c new).
Proof.
  induction s as [|a s IH].
  { cbn [GoStrings.ReplaceAll GoStrings.occurs]. now rewrite andb_false_r. }
  cbn [GoStrings.ReplaceAll GoStrings.occurs].
  destruct (Ascii.eqb a old) eqn:Ha.
  - apply Ascii.eqb_eq in Ha as ->. rewrite occurs_app, IH.
    rewrite (Ascii.eqb_sym old c).
    destruct (Ascii.eqb c old), (GoStrings.occurs c s), (GoStrings.occurs old s),
      (GoStrings.occurs c new); reflexivity.
  - cbn [GoStrings.occurs]. rewrite IH.
    destruct (Ascii.eqb a c) eqn:Hac; [|reflexivity].
    assert (Hco : Ascii.eqb c old = false).
    { apply Ascii.eqb_eq in Hac. rewrite <- Hac. exact Ha. }
    now rewrite Hco.
Qed.

Lemma ReplaceAll_absent (old : ascii) (new s : string) :
  GoStrings.occurs old s = false -> GoStrings.ReplaceAll s old new = s.
Proof.
  induction s as [|a s IH]; [reflexivity|]. cbn [GoStrings.ReplaceAll GoStrings.occurs].
  intros H. apply orb_false_iff in H as [Ha Hs]. rewrite Ha. now rewrite IH.
Qed.

Lemma ReplaceAll_length (old new : ascii) (s : string) :
  String.length (GoStrings.ReplaceAll s old (String new EmptyString)) = String.length s.
Proof.
  induction s as [|a s IH]; [reflexivity|]. cbn [GoStrings.ReplaceAll].
  destruct (Ascii.eqb a old);
    [change (S (String.length (GoStrings.ReplaceAll s old (String new EmptyString)))
             = S (String.length s))
    | cbn [String.length]];
    now rewrite IH.
Qed.

(** ** The scraped product data *)

Section ScrapedData.

Context {World : Type}.
Variable chromedp_Run : World -> string -> option (string * Z) * World.
Variable TrimSpace : string -> string.

#[local] Abbreviation scrape := (Scrape.scrapeProductData chromedp_Run TrimSpace).

(** X13: the product data that [scrapeProductData] returns has two entries:
    a price without any space and without any letter [p], whatever the page
    showed, and the number of stores printed in decimal; it returns an error
    exactly when the browser does. *)
Theorem scrapeProductData_price (w : World) (url : string) :
  match scrape w url with
  | (Some productData, w') =>
      exists (price : string) (count : Z),
        (exists text, chromedp_Run w url = (Some (text, count), w'))
        /\ productData !! "price"%string = Some price
        /\ productData !! "availableCount"%string = Some (GoStr.Sprintf_d count)
        /\ (forall k, k <> "price"%string -> k <> "availableCount"%string ->
            productData !! k = None)
        /\ GoStrings.occurs " " price = false
        /\ GoStrings.occurs "p" price = false
  | (None, w') => chromedp_Run w url = (None, w')
  end.
Proof.
  unfold Scrape.scrapeProductData.
  destruct (chromedp_Run w url) as [[[text count]|] w']; [|reflexivity].
  eexists _, count. split; [now exists text|].
  split; [apply lookup_insert_eq|].
  split; [rewrite lookup_insert_ne by discriminate; apply lookup_insert_eq|].
  split.
  { intros k H1 H2. rewrite !lookup_insert_ne by congruence. apply lookup_empty. }
  rewrite !occurs_ReplaceAll. cbn [GoStrings.occurs]. split.
  - rewrite Ascii.eqb_refl. cbn. now rewrite andb_false_r.
  - rewrite Ascii.eqb_refl. cbn. now rewrite !andb_false_r.
Qed.

(** X14: the number of stores survives the way through the text: a card
    saved from scraped product data gets the number the browser counted in
    [available_count], and the conversion warning of [saveToDatabase] is not
    logged. *)
Theorem scraped_count_round_trip (w w' : World) (url text : string) (count : Z)
    (prices : list Product) (card : Card) (pcsInt : Z) (productID : string) (cost : Z)
    (tariff : float) (commission : Z) (okPrice : float) (sku : string) (r : float) :
  chromedp_Run w url = (Some (text, count), w') ->
  GoInt.in_range count = true ->
  exists productData : gmap string string,
    scrape w url = (Some productData, w')
    /\ let params :=
         mkParams prices card pcsInt productID productData cost tariff commission okPrice in
       col_available_count (row_of params sku r) = count
       /\ saveToDatabase_log params sku = [EvSaved productID sku].
Proof.
  intros Hrun Hrange. unfold Scrape.scrapeProductData. rewrite Hrun.
  eexists. split; [reflexivity|]. cbn zeta.
  unfold row_of, saveToDatabase_log, mkParams.
  destruct (lookupPrices prices (Card_VendorCode card)) as [[p1 p2] p3].
  cbn [AvailableCountStr ProductID OKPrice].
  rewrite lookup_insert_ne by discriminate. rewrite lookup_insert_eq.
  cbn [default]. unfold id. rewrite (Atoi_Sprintf_d _ Hrange).
  destruct (calculateNewPriceAndDiscount r okPrice). now split.
Qed.

End ScrapedData.

Example scrapeProductData_sample :
  let productData :=
    fst (Scrape.scrapeProductData BrowserSample.chromedp_Run BrowserSample.TrimSpace 0%nat
           "https://sp.cargo-avto.ru/catalog/4821/") in
  (productData ≫= lookup "price"%string) = Some "1250"%string
  /\ (productData ≫= lookup "availableCount"%string) = Some "3"%string.
Proof. vm_compute. repeat split. Qed.

Lemma scraped_count_round_trip_witness :
  exists productData : gmap string string,
    Scrape.scrapeProductData BrowserSample.chromedp_Run BrowserSample.TrimSpace 0%nat
      "https://sp.cargo-avto.ru/catalog/4821/" = (Some productData, 1%nat)
    /\ col_available_count
         (row_of (mkParams [] Sample.box_2 2 "4821" productData 2500 50 62 400) "sku1" 0.5)
       = 3.
Proof.
  destruct (scraped_count_round_trip BrowserSample.chromedp_Run BrowserSample.TrimSpace
              0%nat 1%nat "https://sp.cargo-avto.ru/catalog/4821/" "1 250 p" 3
              [] Sample.box_2 2 "4821" 2500 50 62 400 "sku1" 0.5 eq_refl eq_refl)
    as (productData & Hscrape & Hcount & _).
  exists productData. split; [exact Hscrape | exact Hcount].
Defined.

(** ** The tariffs of the marketplace warehouse *)

Section TariffFacts.

Variable Unmarshal_float64 : string -> option float.
Variable Unmarshal_string : string -> option string.
Variable ParseFloat : string -> option float.

#[local] Abbreviation parse := (Tariffs.parseFloat Unmarshal_float64 Unmarshal_string ParseFloat).
#[local] Abbreviation tariffs :=
  (Tariffs.getFBSTariffs_loop Unmarshal_float64 Unmarshal_string ParseFloat).

(** X15: a tariff given as a JSON string is read with every comma taken
    for a decimal point: [strconv.ParseFloat] gets a string of the same
    length without any comma, which is the string itself when it has no
    comma; a tariff given as a JSON number is returned as it is. *)
Theorem parseFloat_decimal_comma (raw str : string) :
  Unmarshal_float64 raw = None ->
  Unmarshal_string raw = Some str ->
  exists s : string,
    parse raw = ParseFloat s
    /\ GoStrings.occurs "," s = false
    /\ String.length s = String.length str
    /\ (forall c, c <> ","%char -> c <> "."%char ->
        GoStrings.occurs c s = GoStrings.occurs c str)
    /\ (GoStrings.occurs "," str = false -> s = str).
Proof.
  intros Hnum Hstr. exists (GoStrings.ReplaceAll str "," ".").
  unfold Tariffs.parseFloat. rewrite Hnum, Hstr. split; [reflexivity|].
  split.
  { rewrite occurs_ReplaceAll. cbn. now rewrite andb_false_r. }
  split; [apply ReplaceAll_length|].
  split; [|apply ReplaceAll_absent].
  intros c Hc1 Hc2. rewrite occurs_ReplaceAll. cbn [GoStrings.occurs].
  apply Ascii.eqb_neq in Hc1, Hc2. rewrite Hc1. rewrite (Ascii.eqb_sym "."%char c), Hc2.
  cbn. now rewrite andb_false_r, orb_false_r.
Qed.

(** X16: the tariffs are those of the first warehouse named [Маркетплейс] in
    the response: when one of its two values cannot be read the call fails,
    even if a later warehouse of that name is well formed. *)
Theorem getFBSTariffs_first_match (before after : list Tariffs.Warehouse)
    (warehouse : Tariffs.Warehouse) :
  Forall (fun wh => Tariffs.WarehouseName wh <> "Маркетплейс"%string) before ->
  Tariffs.WarehouseName warehouse = "Маркетплейс"%string ->
  tariffs (before ++ warehouse :: after)
  = match parse (Tariffs.BoxDeliveryBase warehouse),
          parse (Tariffs.BoxDeliveryLiter warehouse) with
    | Some base, Some liter => Ok (base, liter)
    | _, _ => Err Tariffs.TariffsConversion
    end.
Proof.
  intros Hbefore Hname.
  induction Hbefore as [|wh before Hwh _ IH]; cbn [app Tariffs.getFBSTariffs_loop].
  - now rewrite Hname, String.eqb_refl.
  - apply String.eqb_neq in Hwh. now rewrite Hwh.
Qed.

(** X17: [getFBSTariffs] reports that the warehouse is not found exactly
    when no warehouse of the response is named [Маркетплейс]. *)
Theorem getFBSTariffs_no_warehouse (warehouseList : list Tariffs.Warehouse) :
  tariffs warehouseList = Err Tariffs.TariffsNoWarehouse
  <-> Forall (fun wh => Tariffs.WarehouseName wh <> "Маркетплейс"%string) warehouseList.
Proof.
  induction warehouseList as [|wh rest IH]; cbn [Tariffs.getFBSTariffs_loop].
  - split; [constructor | reflexivity].
  - destruct (String.eqb (Tariffs.WarehouseName wh) "Маркетплейс") eqn:Hname.
    + apply String.eqb_eq in Hname. split.
      * destruct (parse _); [destruct (parse _)|]; discriminate.
      * intros H. inversion H. contradiction.
    + apply String.eqb_neq in Hname. rewrite IH. split.
      * intros H. now constructor.
      * intros H. now inversion H.
Qed.

End TariffFacts.

Lemma parseFloat_decimal_comma_witness :
  exists s : string,
    Tariffs.parseFloat TariffSample.Unmarshal_float64 TariffSample.Unmarshal_string
      TariffSample.ParseFloat (TariffSample.quoted "48,5") = TariffSample.ParseFloat s
    /\ GoStrings.occurs "," s = false
    /\ TariffSample.ParseFloat s = Some 48.5%float.
Proof.
  destruct (parseFloat_decimal_comma TariffSample.Unmarshal_float64
              TariffSample.Unmarshal_string TariffSample.ParseFloat
              (TariffSample.quoted "48,5") "48,5" eq_refl eq_refl)
    as (s & Hparse & Hcomma & _).
  exists s. split; [exact Hparse|]. split; [exact Hcomma|].
  rewrite <- Hparse. vm_compute. reflexivity.
Defined.

Lemma getFBSTariffs_first_match_witness :
  Tariffs.getFBSTariffs_loop TariffSample.Unmarshal_float64 TariffSample.Unmarshal_string
    TariffSample.ParseFloat TariffSample.warehouseList
  = Err Tariffs.TariffsConversion.
Proof.
  assert (Hbefore : Forall (fun wh => Tariffs.WarehouseName wh <> "Маркетплейс"%string)
                      [TariffSample.warehouse "Коледино" "48" "11.2"]).
  { repeat constructor. discriminate. }
  exact (getFBSTariffs_first_match TariffSample.Unmarshal_float64
           TariffSample.Unmarshal_string TariffSample.ParseFloat
           [TariffSample.warehouse "Коледино" "48" "11.2"]
           [TariffSample.warehouse "Маркетплейс" (TariffSample.quoted "48,5") "11.2"]
           (TariffSample.warehouse "Маркетплейс" (TariffSample.quoted "48,5")
              (TariffSample.quoted "n/a"))
           Hbefore eq_refl).
Defined.

(** ** Integers as floats *)

Lemma binary_round_aux_opp (m e : Z) (l : location) :
  binary_round_aux prec emax true m e l = SFopp (binary_round_aux prec emax false m e l).
Proof.
  unfold binary_round_aux.
  destruct (shr_fexp prec emax m e l) as [mrs1 e1].
  destruct (shr_fexp prec emax _ e1 loc_Exact) as [mrs2 e2].
  destruct (shr_m mrs2); try reflexivity. now destruct (e2 <=? emax - prec).
Qed.

Lemma binary_round_opp (p : positive) (e : Z) :
  binary_round prec emax true p e = SFopp (binary_round prec emax false p e).
Proof.
  unfold binary_round. destruct (shl_align p e _) as [mz ez]. apply binary_round_aux_opp.
Qed.

(** [float64(n)] is the integer rounded to binary64, and a valid float. *)
Lemma float64_of_int_spec (z : Z) :
  GoInt.in_range z = true ->
  Prim2SF (GoFloat.float64_of_int z) = binary_normalize prec emax z 0 false.
Proof.
  unfold GoInt.in_range, GoInt.int_min, GoInt.int_max. intros Hr.
  apply andb_true_iff in Hr as [Hlo Hhi]. apply Z.leb_le in Hlo, Hhi.
  assert (Hnat : forall n, 0 <= n < 2 ^ 63 ->
            binary_normalize prec emax n 0 false
            = Prim2SF (of_uint63 (Uint63.of_Z n))).
  { intros n Hn. rewrite FloatAxioms.of_uint63_spec, Uint63.of_Z_spec.
    now rewrite Z.mod_small by exact Hn. }
  unfold GoFloat.float64_of_int.
  destruct (Z_lt_le_dec z 0) as [Hneg | Hpos].
  - destruct (Z.eq_dec z (- 2 ^ 63)) as [-> | Hne]; [vm_compute; reflexivity|].
    destruct z as [|p|p]; try lia. cbn [binary_normalize].
    rewrite binary_round_opp.
    change (binary_round prec emax false p 0) with (binary_normalize prec emax (Zpos p) 0 false).
    rewrite (Hnat (Zpos p)) by lia.
    rewrite <- FloatAxioms.opp_spec. now rewrite FloatAxioms.SF2Prim_Prim2SF.
  - rewrite (Hnat z) by lia. now rewrite FloatAxioms.SF2Prim_Prim2SF.
Qed.

(** An integer that is zero or more is not below zero as a float. *)
Lemma float64_of_int_sign (z : Z) :
  GoInt.in_range z = true ->
  (GoFloat.float64_of_int z <? 0)%float = true -> z < 0.
Proof.
  intros Hr Hlt. rewrite FloatAxioms.ltb_spec, (float64_of_int_spec z Hr) in Hlt.
  replace (Prim2SF 0) with (S754_zero false) in Hlt by reflexivity.
  destruct z as [|p|p]; [discriminate| |lia]. exfalso.
  cbn [binary_normalize] in Hlt. unfold binary_round in Hlt.
  destruct (shl_align p 0 _) as [mz ez].
  pose proof (binary_round_aux_sign false (Zpos mz) ez loc_Exact ltac:(lia)) as Hs.
  destruct (binary_round_aux prec emax false (Zpos mz) ez loc_Exact) as [s|s| |s m e];
    try contradiction; subst s; discriminate.
Qed.

(** X8: [CalcPrice] reports a negative price only for fixed costs below
    zero (over a denominator above zero): fixed costs that are zero or more
    are never refused as a negative price.  In the card loop, where the
    fixed costs are an [int] converted to [float64], the error means that
    the integer is negative. *)
Theorem CalcPrice_negative_price (desiredMargin taxRate commissionRate fixedCosts : float) :
  CalcPrice desiredMargin taxRate commissionRate fixedCosts = Err NegativePrice ->
  (fixedCosts <? 0)%float = true
  /\ (0 <? (1 - taxRate - commissionRate) - desiredMargin)%float = true
  /\ (forall n : Z,
        GoInt.in_range n = true -> fixedCosts = GoFloat.float64_of_int n -> n < 0).
Proof.
  intros H.
  assert (Hsign : (fixedCosts <? 0)%float = true
                  /\ (0 <? (1 - taxRate - commissionRate) - desiredMargin)%float = true);
    [|split; [apply Hsign|]; split; [apply Hsign|];
      intros n Hn ->; now apply float64_of_int_sign].
  apply CalcPrice_cases in H as [Hden Hprice].
  rewrite FloatAxioms.leb_spec in Hden.
  rewrite FloatAxioms.ltb_spec, FloatAxioms.div_spec in Hprice.
  rewrite !FloatAxioms.ltb_spec.
  replace (Prim2SF 0) with (S754_zero false) in * by reflexivity.
  now apply SFdiv_negative.
Qed.

Lemma CalcPrice_negative_price_witness :
  CalcPrice 0.25 0.25 0.25 (-1) = Err NegativePrice /\ (-1 <? 0)%float = true.
Proof.
  assert (H : CalcPrice 0.25 0.25 0.25 (-1) = Err NegativePrice) by (vm_compute; reflexivity).
  split; [exact H|]. exact (proj1 (CalcPrice_negative_price _ _ _ _ H)).
Defined.

(** ** Exact arithmetic on small integers *)

Lemma Zdigits2_unique (q k : Z) : 2 ^ (k - 1) <= q < 2 ^ k -> 0 < k -> Zdigits2 q = k.
Proof.
  intros [Hlo Hhi] Hk.
  assert (Hq : 0 < q).
  { assert (0 < 2 ^ (k - 1)) by (apply Z.pow_pos_nonneg; lia). lia. }
  destruct q as [|p|p]; try lia. cbn [Zdigits2].
  pose proof (digits2_bounds p) as [Hdlo Hdhi].
  set (d := Zpos (digits2_pos p)) in *.
  destruct (Z.lt_trichotomy d k) as [Hlt | [Heq | Hgt]]; [exfalso | assumption | exfalso].
  - assert (2 ^ d <= 2 ^ (k - 1)) by (apply Z.pow_le_mono_r; lia). lia.
  - assert (2 ^ k <= 2 ^ (d - 1)) by (apply Z.pow_le_mono_r; lia). lia.
Qed.

Lemma shr_1_even (q : Z) :
  0 <= q ->
  shr_1 {| shr_m := 2 * q; shr_r := false; shr_s := false |}
  = {| shr_m := q; shr_r := false; shr_s := false |}.
Proof. intros Hq. destruct q as [|p|p]; try lia; reflexivity. Qed.

(** Shifting out zeros is exact. *)
Lemma iter_shr_1_exact (p : positive) :
  forall q : Z, 0 <= q ->
  SpecFloat.iter_pos shr_1 p {| shr_m := q * 2 ^ Zpos p; shr_r := false; shr_s := false |}
  = {| shr_m := q; shr_r := false; shr_s := false |}.
Proof.
  induction p as [p IH|p IH|]; intros q Hq; cbn [SpecFloat.iter_pos].
  - assert (Hp : 0 < 2 ^ Zpos p) by (apply Z.pow_pos_nonneg; lia).
    replace (q * 2 ^ Zpos p~1) with (2 * (q * 2 ^ Zpos p * 2 ^ Zpos p)).
    + rewrite shr_1_even by nia. rewrite IH by nia. now apply IH.
    + rewrite (Pos2Z.inj_xI p). replace (2 * Zpos p + 1) with (Zpos p + Zpos p + 1) by lia.
      rewrite !Z.pow_add_r by lia. lia.
  - assert (Hp : 0 < 2 ^ Zpos p) by (apply Z.pow_pos_nonneg; lia).
    replace (q * 2 ^ Zpos p~0) with (q * 2 ^ Zpos p * 2 ^ Zpos p).
    + rewrite IH by nia. now apply IH.
    + rewrite (Pos2Z.inj_xO p). replace (2 * Zpos p) with (Zpos p + Zpos p) by lia.
      rewrite !Z.pow_add_r by lia. lia.
  - rewrite Z.pow_1_r, Z.mul_comm. now apply shr_1_even.
Qed.

(** Rounding a mantissa of 53 bits followed by zeros gives these 53 bits. *)
Lemma binary_round_aux_exact (s : bool) (q : positive) (k e : Z) :
  Zdigits2 (Zpos q) = 53 ->
  0 <= k ->
  -1074 <= e + k <= 971 ->
  binary_round_aux prec emax s (Zpos q * 2 ^ k) e loc_Exact = S754_finite s q (e + k).
Proof.
  intros Hd Hk He.
  assert (Hpk : 0 < 2 ^ k) by (apply Z.pow_pos_nonneg; lia).
  assert (Hdk : Zdigits2 (Zpos q * 2 ^ k) = 53 + k).
  { pose proof (digits2_bounds q) as [Hlo Hhi]. cbn [Zdigits2] in Hd. rewrite Hd in Hlo, Hhi.
    apply Zdigits2_unique; [|lia]. replace (53 + k - 1) with (52 + k) by lia.
    rewrite !Z.pow_add_r by lia. nia. }
  assert (Hshift : shr_fexp prec emax (Zpos q * 2 ^ k) e loc_Exact
                   = ({| shr_m := Zpos q; shr_r := false; shr_s := false |}, e + k)).
  { unfold shr_fexp. rewrite Hdk.
    replace (fexp prec emax (53 + k + e) - e) with k
      by (unfold fexp, SpecFloat.emin, prec, emax; lia).
    cbn [shr_record_of_loc]. unfold shr. destruct k as [|pk|pk]; try lia.
    - now rewrite Z.mul_1_r, Z.add_0_r.
    - now rewrite iter_shr_1_exact by lia. }
  assert (Hstay : shr_fexp prec emax (Zpos q) (e + k) loc_Exact
                  = ({| shr_m := Zpos q; shr_r := false; shr_s := false |}, e + k)).
  { unfold shr_fexp. rewrite Hd.
    replace (fexp prec emax (53 + (e + k)) - (e + k)) with 0
      by (unfold fexp, SpecFloat.emin, prec, emax; lia).
    reflexivity. }
  unfold binary_round_aux. rewrite Hshift. cbn [loc_of_shr_record shr_m round_nearest_even].
  rewrite Hstay. cbn [shr_m].
  replace (e + k <=? emax - prec) with true; [reflexivity|].
  symmetry. apply Z.leb_le. unfold emax, prec. lia.
Qed.

Lemma small_digits (n : positive) : Zpos n < 2 ^ 53 -> 1 <= Zdigits2 (Zpos n) <= 53.
Proof.
  intros Hn. split.
  - cbn [Zdigits2]. lia.
  - apply Zdigits2_le; lia.
Qed.

Lemma normal_mantissa_Z (n : positive) :
  Zpos n < 2 ^ 53 ->
  Zpos (normal_mantissa n) = Zpos n * 2 ^ (53 - Zdigits2 (Zpos n))
  /\ Zdigits2 (Zpos (normal_mantissa n)) = 53.
Proof.
  intros Hn. pose proof (small_digits n Hn) as Hd.
  assert (Hp : 0 < 2 ^ (53 - Zdigits2 (Zpos n))) by (apply Z.pow_pos_nonneg; lia).
  assert (Hz : Zpos (normal_mantissa n) = Zpos n * 2 ^ (53 - Zdigits2 (Zpos n))).
  { unfold normal_mantissa. rewrite Z2Pos.id; [reflexivity | nia]. }
  split; [exact Hz|]. rewrite Hz.
  pose proof (digits2_bounds n) as [Hlo Hhi].
  change (Zpos (digits2_pos n)) with (Zdigits2 (Zpos n)) in Hlo, Hhi.
  set (d := Zdigits2 (Zpos n)) in *.
  apply Zdigits2_unique; [|lia]. split.
  - replace (53 - 1) with ((d - 1) + (53 - d)) by lia. rewrite Z.pow_add_r by lia. nia.
  - replace 53 with (d + (53 - d)) at 2 by lia. rewrite Z.pow_add_r by lia. nia.
Qed.

(** The binary64 form of an integer below [2^53] holds the integer itself. *)
Lemma binary_round_small (s : bool) (n : positive) :
  Zpos n < 2 ^ 53 ->
  binary_round prec emax s n 0 = S754_finite s (normal_mantissa n) (normal_exponent n).
Proof.
  intros Hn. pose proof (small_digits n Hn) as Hd.
  destruct (normal_mantissa_Z n Hn) as [Hz Hdz].
  unfold binary_round, normal_exponent.
  change (Zpos (digits2_pos n)) with (Zdigits2 (Zpos n)).
  remember (Zdigits2 (Zpos n)) as d eqn:Heqd.
  replace (fexp prec emax (d + 0)) with (d - 53)
    by (unfold fexp, SpecFloat.emin, prec, emax; lia).
  unfold shl_align. destruct (d - 53 - 0) as [|j|j] eqn:Hj; try lia.
  - assert (Hd53 : d = 53) by lia. rewrite Hd53 in *.
    assert (Hnm : normal_mantissa n = n).
    { apply Pos2Z.inj. rewrite Hz. change (2 ^ (53 - 53)) with 1. lia. }
    rewrite Hnm in *. replace (Zpos n) with (Zpos n * 2 ^ 0) at 1 by (cbn; lia).
    rewrite binary_round_aux_exact; [reflexivity | assumption | lia | lia].
  - assert (Hshift : Pos.iter xO n j = normal_mantissa n).
    { apply Pos2Z.inj. rewrite Hz.
      change (Pos.iter xO n j) with (shift_pos j n). rewrite shift_pos_correct.
      change (Z.pow_pos 2 j) with (2 ^ Zpos j). replace (53 - d) with (Zpos j) by lia. lia. }
    rewrite Hshift.
    replace (Zpos (normal_mantissa n)) with (Zpos (normal_mantissa n) * 2 ^ 0) at 1
      by (cbn; lia).
    rewrite binary_round_aux_exact; [f_equal; lia | assumption | lia | lia].
Qed.

Lemma float64_of_int_small (z : Z) :
  z <> 0 -> Z.abs z < 2 ^ 53 ->
  Prim2SF (GoFloat.float64_of_int z)
  = S754_finite (z <? 0) (normal_mantissa (Z.to_pos (Z.abs z)))
      (normal_exponent (Z.to_pos (Z.abs z))).
Proof.
  intros Hz Habs. rewrite float64_of_int_spec.
  - destruct z as [|p|p]; [contradiction| |]; cbn [binary_normalize Z.abs Z.to_pos Z.ltb Z.compare];
      now apply binary_round_small.
  - unfold GoInt.in_range, GoInt.int_min, GoInt.int_max.
    apply andb_true_iff. split; apply Z.leb_le; lia.
Qed.

(** [int(float64(n))] is [n] for every integer below [2^53] in absolute
    value. *)
Lemma int_of_float64_of_int (z : Z) :
  Z.abs z < 2 ^ 53 -> GoFloat.int_of_float64 (GoFloat.float64_of_int z) = z.
Proof.
  intros Habs. destruct (Z.eq_dec z 0) as [-> | Hz]; [vm_compute; reflexivity|].
  unfold GoFloat.int_of_float64. rewrite (float64_of_int_small z Hz Habs).
  cbn [GoFloat.trunc_SF].
  set (n := Z.to_pos (Z.abs z)).
  assert (Hn : Zpos n = Z.abs z) by (unfold n; rewrite Z2Pos.id; lia).
  assert (Hn53 : Zpos n < 2 ^ 53) by lia.
  destruct (normal_mantissa_Z n Hn53) as [Hm _]. pose proof (small_digits n Hn53) as Hd.
  assert (Htrunc : Z.shiftl (Zpos (normal_mantissa n)) (normal_exponent n) = Zpos n).
  { unfold normal_exponent. rewrite Hm.
    destruct (Z.eq_dec (Zdigits2 (Zpos n)) 53) as [-> | Hne].
    - change (53 - 53) with 0. rewrite Z.shiftl_0_r. change (2 ^ 0) with 1. lia.
    - rewrite Z.shiftl_div_pow2 by lia.
      replace (- (Zdigits2 (Zpos n) - 53)) with (53 - Zdigits2 (Zpos n)) by lia.
      apply Z.div_mul. apply Z.pow_nonzero; lia. }
  rewrite Htrunc, Hn.
  assert (Hval : cond_Zopp (z <? 0) (Z.abs z) = z).
  { destruct (z <? 0) eqn:Hs; cbn [cond_Zopp];
      [apply Z.ltb_lt in Hs | apply Z.ltb_ge in Hs]; lia. }
  rewrite Hval.
  replace (GoInt.in_range z) with true; [reflexivity|].
  symmetry. unfold GoInt.in_range, GoInt.int_min, GoInt.int_max.
  apply andb_true_iff. split; apply Z.leb_le; lia.
Qed.

Lemma float_eq_SF (x y : float) : Prim2SF x = Prim2SF y -> x = y.
Proof.
  intros H. rewrite <- (FloatAxioms.SF2Prim_Prim2SF x), <- (FloatAxioms.SF2Prim_Prim2SF y).
  now rewrite H.
Qed.

(** The product of two integers is exact in binary64 when it is below
    [2^53]. *)
Lemma mul_exact (a b : Z) :
  a <> 0 -> b <> 0 -> Z.abs (a * b) < 2 ^ 53 ->
  (GoFloat.float64_of_int a * GoFloat.float64_of_int b)%float
  = GoFloat.float64_of_int (a * b).
Proof.
  intros Ha Hb Hab.
  assert (Haa : Z.abs a < 2 ^ 53) by nia.
  assert (Hbb : Z.abs b < 2 ^ 53) by nia.
  apply float_eq_SF. rewrite FloatAxioms.mul_spec.
  rewrite (float64_of_int_small a), (float64_of_int_small b),
    (float64_of_int_small (a * b)) by nia.
  unfold SF64mul. cbn [SFmul].
  replace (a * b <? 0) with (xorb (a <? 0) (b <? 0)).
  2:{ destruct (a <? 0) eqn:Hsa, (b <? 0) eqn:Hsb; cbn [xorb]; symmetry;
      rewrite ?Z.ltb_lt, ?Z.ltb_ge in *; nia. }
  set (na := Z.to_pos (Z.abs a)). set (nb := Z.to_pos (Z.abs b)).
  set (nab := Z.to_pos (Z.abs (a * b))).
  assert (Hna : Zpos na = Z.abs a) by (unfold na; rewrite Z2Pos.id; lia).
  assert (Hnb : Zpos nb = Z.abs b) by (unfold nb; rewrite Z2Pos.id; lia).
  assert (Hnab : Zpos nab = Zpos na * Zpos nb) by (unfold nab; rewrite Z2Pos.id; nia).
  assert (Hna53 : Zpos na < 2 ^ 53) by lia.
  assert (Hnb53 : Zpos nb < 2 ^ 53) by lia.
  assert (Hnab53 : Zpos nab < 2 ^ 53) by nia.
  destruct (normal_mantissa_Z na Hna53) as [Hma _].
  destruct (normal_mantissa_Z nb Hnb53) as [Hmb _].
  destruct (normal_mantissa_Z nab Hnab53) as [Hmab Hdab].
  pose proof (small_digits na Hna53) as Hda. pose proof (small_digits nb Hnb53) as Hdb.
  pose proof (small_digits nab Hnab53) as Hdab'.
  pose proof (digits2_bounds na) as [Halo Hahi].
  pose proof (digits2_bounds nb) as [Hblo Hbhi].
  pose proof (digits2_bounds nab) as [Hablo Habhi].
  change (Zpos (digits2_pos na)) with (Zdigits2 (Zpos na)) in Halo, Hahi.
  change (Zpos (digits2_pos nb)) with (Zdigits2 (Zpos nb)) in Hblo, Hbhi.
  change (Zpos (digits2_pos nab)) with (Zdigits2 (Zpos nab)) in Hablo, Habhi.
  unfold normal_exponent.
  remember (Zdigits2 (Zpos na)) as da eqn:Heqda.
  remember (Zdigits2 (Zpos nb)) as db eqn:Heqdb.
  remember (Zdigits2 (Zpos nab)) as dab eqn:Heqdab.
  assert (Hle : da + db - 1 <= dab).
  { destruct (Z_le_gt_dec (da + db - 1) dab) as [|Hgt]; [assumption|]. exfalso.
    assert (2 ^ dab <= 2 ^ (da - 1 + (db - 1))) by (apply Z.pow_le_mono_r; lia).
    rewrite Z.pow_add_r in H by lia.
    assert (0 < 2 ^ (da - 1)) by (apply Z.pow_pos_nonneg; lia).
    assert (0 < 2 ^ (db - 1)) by (apply Z.pow_pos_nonneg; lia).
    assert (2 ^ (da - 1) * 2 ^ (db - 1) <= Zpos na * Zpos nb)
      by (apply Z.mul_le_mono_nonneg; lia).
    lia. }
  replace (Zpos (normal_mantissa na * normal_mantissa nb))
    with (Zpos (normal_mantissa nab) * 2 ^ (53 + dab - da - db)).
  - rewrite binary_round_aux_exact; [f_equal; lia | assumption | lia | lia].
  - rewrite Pos2Z.inj_mul, Hma, Hmb, Hmab, Hnab.
    replace (53 - da) with ((53 - dab) + (dab - da)) by lia.
    replace (53 + dab - da - db) with ((dab - da) + (53 - db)) by lia.
    destruct (Z_le_gt_dec da dab) as [Hda' | Hda'].
    + rewrite !Z.pow_add_r by lia. lia.
    + (* the product has one bit less than the sum of the bits *)
      assert (Hdab1 : dab = da - 1) by lia.
      assert (Hdb1 : db = 1) by lia.
      assert (Hnb1 : Zpos nb = 1).
      { rewrite Hdb1 in Hbhi, Hblo. change (2 ^ 1) with 2 in Hbhi. lia. }
      exfalso. rewrite Hnb1, Z.mul_1_r in Hnab. rewrite Hnab in Heqdab. lia.
Qed.

(** Five times an integer up to [2^50] is exact in binary64. *)
Lemma mul_five_exact (z : Z) :
  Z.abs z <= 2 ^ 50 ->
  (GoFloat.float64_of_int z * 5)%float = GoFloat.float64_of_int (5 * z).
Proof.
  intros Habs. destruct (Z.eq_dec z 0) as [-> | Hz]; [vm_compute; reflexivity|].
  replace 5%float with (GoFloat.float64_of_int 5) by (vm_compute; reflexivity).
  rewrite mul_exact by lia. f_equal. lia.
Qed.

(** [math.Round] of a float that has a fractional part. *)
Lemma Round_fraction (y : float) (s : bool) (m : positive) (e : Z) :
  Prim2SF y = S754_finite s m e -> e < 0 ->
  let n := (Zpos m + 2 ^ (- e - 1)) / 2 ^ (- e) in
  GoFloat.Round y
  = if n =? 0 then GoFloat.signed_zero s else GoFloat.float64_of_int (cond_Zopp s n).
Proof.
  intros Hy He n. unfold GoFloat.Round. rewrite Hy.
  replace (0 <=? e) with false by (symmetry; apply Z.leb_gt; lia). reflexivity.
Qed.

(** A valid mantissa has at most 53 bits. *)
Lemma valid_mantissa (s : bool) (m : positive) (e : Z) :
  valid_binary (S754_finite s m e) = true -> Zpos m < 2 ^ 53.
Proof.
  intros Hvalid. pose proof (digits2_bounds m) as [_ Hhi].
  cbn [SpecFloat.valid_binary] in Hvalid. unfold bounded, canonical_mantissa in Hvalid.
  apply andb_true_iff in Hvalid as [Hcanon _]. apply Z.eqb_eq in Hcanon.
  unfold fexp, SpecFloat.emin, prec, emax in Hcanon.
  assert (2 ^ Zpos (digits2_pos m) <= 2 ^ 53) by (apply Z.pow_le_mono_r; lia). lia.
Qed.

(** A float between [-2^50] and [2^50] rounds to an integer of at most
    [2^50]. *)
Lemma Round_bounded (s : bool) (m : positive) (e : Z) :
  valid_binary (S754_finite s m e) = true ->
  SFltb (S754_finite true 4503599627370496 (-2)) (S754_finite s m e) = true ->
  SFltb (S754_finite s m e) (S754_finite false 4503599627370496 (-2)) = true ->
  e < 0 /\ 0 <= (Zpos m + 2 ^ (- e - 1)) / 2 ^ (- e) <= 2 ^ 50.
Proof.
  intros Hvalid Hlo Hhi. apply valid_mantissa in Hvalid.
  assert (Hcases : e < -2 \/ (e = -2 /\ Zpos m < 2 ^ 52)).
  { unfold SFltb, SFcompare in Hlo, Hhi. destruct s.
    - destruct (-2 ?= e) eqn:Hc; try discriminate.
      + apply Z.compare_eq in Hc. right. split; [lia|].
        destruct (Pos.compare_cont Eq 4503599627370496 m) eqn:Hp; try discriminate.
        assert (Hp' : Pos.compare 4503599627370496 m = Gt) by exact Hp.
        apply Pos.compare_gt_iff in Hp'. apply Pos2Z.pos_lt_pos in Hp'.
        change (Zpos 4503599627370496) with (2 ^ 52) in Hp'. exact Hp'.
      + left. apply Z.compare_gt_iff in Hc. lia.
    - destruct (e ?= -2) eqn:Hc; try discriminate.
      + apply Z.compare_eq in Hc. right. split; [lia|].
        destruct (Pos.compare_cont Eq m 4503599627370496) eqn:Hp; try discriminate.
        assert (Hp' : Pos.compare m 4503599627370496 = Lt) by exact Hp.
        apply Pos.compare_lt_iff in Hp'. apply Pos2Z.pos_lt_pos in Hp'.
        change (Zpos 4503599627370496) with (2 ^ 52) in Hp'. exact Hp'.
      + left. now apply Z.compare_lt_iff in Hc. }
  split; [lia|].
  assert (Hp : 0 < 2 ^ (- e)) by (apply Z.pow_pos_nonneg; lia).
  assert (Hh : 0 < 2 ^ (- e - 1)) by (apply Z.pow_pos_nonneg; lia).
  assert (Hdouble : 2 ^ (- e) = 2 * 2 ^ (- e - 1)).
  { replace (- e) with (1 + (- e - 1)) at 1 by lia. now rewrite Z.pow_add_r by lia. }
  split; [apply Z.div_pos; lia|].
  apply Z.lt_succ_r. apply Z.div_lt_upper_bound; [lia|].
  destruct Hcases as [Hlt | [-> Hm]].
  - assert (2 ^ 3 <= 2 ^ (- e)) by (apply Z.pow_le_mono_r; lia).
    change (2 ^ 53) with (2 ^ 3 * 2 ^ 50) in Hvalid. change (2 ^ 3) with 8 in *. nia.
  - change (- -2) with 2 in *. change (2 ^ (2 - 1)) with 2. change (2 ^ 2) with 4.
    change (2 ^ 52) with (4 * 2 ^ 50) in Hm. lia.
Qed.

(** For a display price of ordinary size the multiplication by five is
    exact. *)
Lemma newPrice_rounded (okPrice markup : float) :
  let y := (okPrice * markup / 5)%float in
  (-0x1p50 <? y)%float = true ->
  (y <? 0x1p50)%float = true ->
  newPrice_of okPrice markup = 5 * GoFloat.int_of_float64 (GoFloat.Round y)
  /\ Z.abs (GoFloat.int_of_float64 (GoFloat.Round y)) <= 2 ^ 50.
Proof.
  intros y Hlo Hhi.
  unfold newPrice_of. fold y.
  rewrite FloatAxioms.ltb_spec in Hlo, Hhi.
  replace (Prim2SF (-0x1p50)) with (S754_finite true 4503599627370496 (-2)) in Hlo
    by reflexivity.
  replace (Prim2SF 0x1p50) with (S754_finite false 4503599627370496 (-2)) in Hhi
    by reflexivity.
  pose proof (FloatAxioms.Prim2SF_valid y) as Hvalid.
  destruct (Prim2SF y) as [s0|s0| |s m e] eqn:Hy.
  - (* a zero *)
    assert (HR : GoFloat.Round y = y) by (unfold GoFloat.Round; now rewrite Hy).
    rewrite HR. unfold GoFloat.int_of_float64.
    rewrite FloatAxioms.mul_spec, Hy.
    replace (Prim2SF 5) with (S754_finite false five_mantissa (-50)) by reflexivity.
    cbn. change (GoInt.in_range 0) with true. cbn iota. split; [reflexivity | lia].
  - destruct s0; discriminate.
  - discriminate.
  - destruct (Round_bounded s m e Hvalid Hlo Hhi) as [He Hn].
    rewrite (Round_fraction y s m e Hy He). cbn zeta.
    set (n := (Zpos m + 2 ^ (- e - 1)) / 2 ^ (- e)) in *.
    destruct (n =? 0) eqn:Hn0.
    + destruct s; vm_compute; split; first [reflexivity | discriminate].
    + apply Z.eqb_neq in Hn0.
      assert (Habs : Z.abs (cond_Zopp s n) = n) by (destruct s; cbn [cond_Zopp]; lia).
      rewrite mul_five_exact by lia.
      rewrite !int_of_float64_of_int by lia.
      split; [reflexivity | lia].
Qed.

(** X18: for a display price of ordinary size the multiplication by five in
    [calculateNewPriceAndDiscount] is exact: when [okPrice * markup / 5] lies
    between [-2^50] and [2^50], the display price is five times the rounded
    value, a multiple of five of at most [5 * 2^50] in absolute value. *)
Theorem newPrice_multiple_of_five (okPrice markup : float) :
  let y := (okPrice * markup / 5)%float in
  (-0x1p50 <? y)%float = true ->
  (y <? 0x1p50)%float = true ->
  newPrice_of okPrice markup = 5 * GoFloat.int_of_float64 (GoFloat.Round y)
  /\ Z.abs (GoFloat.int_of_float64 (GoFloat.Round y)) <= 2 ^ 50
  /\ newPrice_of okPrice markup mod 5 = 0.
Proof.
  intros y Hlo Hhi.
  destruct (newPrice_rounded okPrice markup Hlo Hhi) as [Hnew Habs].
  repeat split; try assumption.
  rewrite Hnew, Z.mul_comm. apply Z.mod_mul. lia.
Qed.

Lemma newPrice_multiple_of_five_witness :
  newPrice_of 400 1.4 = 560 /\ newPrice_of 400 1.4 mod 5 = 0.
Proof.
  destruct (newPrice_multiple_of_five 400 1.4) as (_ & _ & H).
  - vm_compute. reflexivity.
  - vm_compute. reflexivity.
  - split; [vm_compute; reflexivity | exact H].
Defined.

(** ** The volume of a box *)

Lemma mul_exact_nonneg (a b : Z) :
  0 <= a < 2 ^ 53 -> 0 <= b < 2 ^ 53 -> a * b < 2 ^ 53 ->
  (GoFloat.float64_of_int a * GoFloat.float64_of_int b)%float
  = GoFloat.float64_of_int (a * b).
Proof.
  intros Ha Hb Hab.
  assert (Hzero : GoFloat.float64_of_int 0 = 0%float) by (vm_compute; reflexivity).
  assert (Hpos : forall c, 0 < c < 2 ^ 53 ->
            Prim2SF (0 * GoFloat.float64_of_int c) = S754_zero false
            /\ Prim2SF (GoFloat.float64_of_int c * 0) = S754_zero false).
  { intros c Hc. rewrite !FloatAxioms.mul_spec, (float64_of_int_small c) by lia.
    replace (c <? 0) with false by (symmetry; apply Z.ltb_ge; lia).
    now split. }
  destruct (Z.eq_dec a 0) as [-> | Ha0]; [|destruct (Z.eq_dec b 0) as [-> | Hb0]].
  - rewrite Z.mul_0_l, Hzero.
    destruct (Z.eq_dec b 0) as [-> | Hb0]; [vm_compute; reflexivity|].
    apply float_eq_SF. now rewrite (proj1 (Hpos b ltac:(lia))).
  - rewrite Z.mul_0_r, Hzero. apply float_eq_SF. now rewrite (proj2 (Hpos a ltac:(lia))).
  - apply mul_exact; try assumption. nia.
Qed.

(** X19: for a box with sides from 0 up to [2^17] the volume in cubic
    centimetres is computed without rounding, so that the volume in litres
    is the product of the three sides divided by 1000, rounded once; it is
    zero when a side is zero, and it does not depend on the order of the
    sides. *)
Theorem CalculateVolumeLiters_exact (width height length : Z) :
  0 <= width < 2 ^ 17 ->
  0 <= height < 2 ^ 17 ->
  0 <= length < 2 ^ 17 ->
  CalculateVolumeLiters width height length
  = (GoFloat.float64_of_int (width * height * length) / 1000)%float
  /\ (width * height * length = 0 -> CalculateVolumeLiters width height length = 0%float)
  /\ CalculateVolumeLiters width height length = CalculateVolumeLiters height width length
  /\ CalculateVolumeLiters width height length = CalculateVolumeLiters length width height.
Proof.
  assert (Hexact : forall w h l,
            0 <= w < 2 ^ 17 -> 0 <= h < 2 ^ 17 -> 0 <= l < 2 ^ 17 ->
            CalculateVolumeLiters w h l
            = (GoFloat.float64_of_int (w * h * l) / 1000)%float).
  { intros w h l Hw Hh Hl. unfold CalculateVolumeLiters.
    change (2 ^ 17) with 131072 in *.
    assert (Hwh : 0 <= w * h < 131072 * 131072) by nia.
    assert (Hwhl : 0 <= w * h * l < 131072 * 131072 * 131072) by nia.
    change (2 ^ 53) with 9007199254740992 in *.
    rewrite (mul_exact_nonneg w h); [|change (2 ^ 53) with 9007199254740992; lia ..].
    rewrite (mul_exact_nonneg (w * h) l); [|change (2 ^ 53) with 9007199254740992; lia ..].
    reflexivity. }
  intros Hw Hh Hl. rewrite !Hexact by assumption.
  split; [reflexivity|]. split; [|split].
  - intros ->. vm_compute. reflexivity.
  - do 2 f_equal. lia.
  - do 2 f_equal. lia.
Qed.

Lemma CalculateVolumeLiters_exact_witness :
  CalculateVolumeLiters 30 20 10 = (GoFloat.float64_of_int 6000 / 1000)%float
  /\ CalculateVolumeLiters 30 20 10 = 6%float
  /\ CalculateVolumeLiters 0 20 10 = 0%float.
Proof.
  split; [|split].
  - apply (CalculateVolumeLiters_exact 30 20 10); lia.
  - vm_compute. reflexivity.
  - apply (CalculateVolumeLiters_exact 0 20 10); lia.
Defined.

(** ** A display price that is not zero *)

Lemma Zdigits2_lower (m : Z) : 0 < m -> 2 ^ (Zdigits2 m - 1) <= m.
Proof.
  intros Hm. destruct m as [|p|p]; try lia.
  cbn [Zdigits2]. apply digits2_bounds.
Qed.

(** Truncating to the format keeps a mantissa that stands for at least one
    half at least one half. *)
Lemma shr_fexp_half (m e : Z) (l : location) :
  0 < m -> (e < 0 -> 2 ^ (- e - 1) <= m) ->
  0 < shr_m (fst (shr_fexp prec emax m e l))
  /\ (snd (shr_fexp prec emax m e l) < 0 ->
      2 ^ (- snd (shr_fexp prec emax m e l) - 1)
      <= shr_m (fst (shr_fexp prec emax m e l))).
Proof.
  intros Hm Hhalf.
  destruct (shr_fexp_spec m e l ltac:(lia)) as [Hm1 He1].
  set (n := Z.max 0 (fexp prec emax (Zdigits2 m + e) - e)) in *.
  rewrite Hm1, He1.
  pose proof (Zdigits2_lower m Hm) as Hlow.
  pose proof (Zdigits2_nonneg m) as Hd0.
  assert (Hd1 : 1 <= Zdigits2 m).
  { destruct m as [|p|p]; try lia. cbn [Zdigits2]. lia. }
  assert (Hde : 0 <= Zdigits2 m + e).
  { destruct (Z_lt_le_dec e 0) as [Hneg|]; [|lia].
    specialize (Hhalf Hneg).
    destruct (Z_lt_le_dec (Zdigits2 m + e) 0) as [Hsmall|]; [|assumption].
    exfalso.
    assert (Hlt : m < 2 ^ (- e - 1)).
    { destruct m as [|p|p]; try lia. cbn [Zdigits2] in *.
      pose proof (digits2_bounds p) as [_ Hhi].
      assert (2 ^ Zpos (digits2_pos p) <= 2 ^ (- e - 1))
        by (apply Z.pow_le_mono_r; lia).
      lia. }
    lia. }
  assert (Hn : n = Z.max 0 (Zdigits2 m - 53))
    by (unfold n, fexp, SpecFloat.emin, prec, emax; lia).
  assert (Hpn : 0 < 2 ^ n) by (apply Z.pow_pos_nonneg; lia).
  assert (Hge : 2 ^ n <= m).
  { assert (2 ^ n <= 2 ^ (Zdigits2 m - 1)) by (apply Z.pow_le_mono_r; lia). lia. }
  split.
  - apply Z.div_str_pos. lia.
  - intros He1neg. apply Z.div_le_lower_bound; [lia|].
    rewrite <- Z.pow_add_r by lia.
    replace (n + (- (e + n) - 1)) with (- e - 1) by lia.
    apply Hhalf. lia.
Qed.

(** Rounding to the format keeps a mantissa that stands for at least one
    half at least one half. *)
Lemma binary_round_aux_half (m e : Z) (l : location) :
  0 < m -> (e < 0 -> 2 ^ (- e - 1) <= m) ->
  match binary_round_aux prec emax false m e l with
  | S754_finite s m' e' => s = false /\ (e' < 0 -> 2 ^ (- e' - 1) <= Zpos m')
  | S754_infinity s => s = false
  | _ => False
  end.
Proof.
  intros Hm Hhalf. unfold binary_round_aux.
  destruct (shr_fexp_half m e l Hm Hhalf) as [Hm1 Hh1].
  destruct (shr_fexp prec emax m e l) as [mrs1 e1]. cbn [fst snd] in Hm1, Hh1.
  pose proof (round_nearest_even_bounds (shr_m mrs1) (loc_of_shr_record mrs1)) as Hr.
  set (m1' := round_nearest_even (shr_m mrs1) (loc_of_shr_record mrs1)) in *.
  assert (Hm1' : 0 < m1') by lia.
  assert (Hh1' : e1 < 0 -> 2 ^ (- e1 - 1) <= m1') by (intros H; specialize (Hh1 H); lia).
  destruct (shr_fexp_half m1' e1 loc_Exact Hm1' Hh1') as [Hm2 Hh2].
  destruct (shr_fexp prec emax m1' e1 loc_Exact) as [mrs2 e2]. cbn [fst snd] in Hm2, Hh2.
  destruct (shr_m mrs2) as [|m2|m2]; try lia.
  destruct (e2 <=? emax - prec); [|reflexivity].
  split; [reflexivity | exact Hh2].
Qed.

(** A binary64 of at least 2.5, divided by 5, is at least one half. *)
Lemma SFdiv5_at_least_half (mx : positive) (ex : Z) :
  valid_binary (S754_finite false mx ex) = true ->
  SFleb (S754_finite false five_mantissa (-51)) (S754_finite false mx ex) = true ->
  match SF64div (S754_finite false mx ex) (S754_finite false five_mantissa (-50)) with
  | S754_finite s m e => s = false /\ (e < 0 -> 2 ^ (- e - 1) <= Zpos m)
  | S754_infinity s => s = false
  | _ => False
  end.
Proof.
  intros Hvalid Hle.
  pose proof (digits2_bounds mx) as [Hdlo Hdhi].
  set (d1 := Zpos (digits2_pos mx)) in *.
  assert (Hd1 : 1 <= d1) by (unfold d1; lia).
  cbn [SpecFloat.valid_binary] in Hvalid. unfold bounded, canonical_mantissa in Hvalid.
  apply andb_true_iff in Hvalid as [Hcanon Hemax].
  apply Z.eqb_eq in Hcanon. apply Z.leb_le in Hemax. fold d1 in Hcanon.
  unfold fexp, SpecFloat.emin, prec, emax in Hcanon.
  assert (Hd53 : d1 <= 53) by lia.
  assert (Hcases : -51 < ex \/ (ex = -51 /\ Zpos five_mantissa <= Zpos mx)).
  { unfold SFleb, SFcompare in Hle. destruct (-51 ?= ex) eqn:Hc.
    - apply Z.compare_eq in Hc. right. split; [lia|].
      destruct (Pos.compare_cont Eq five_mantissa mx) eqn:Hp; try discriminate.
      + assert (Hp' : Pos.compare five_mantissa mx = Eq) by exact Hp.
        apply Pos.compare_eq in Hp'. subst mx. lia.
      + assert (Hp' : Pos.compare five_mantissa mx = Lt) by exact Hp.
        apply Pos.compare_lt_iff in Hp'. apply Pos2Z.pos_lt_pos in Hp'. lia.
    - left. now apply Z.compare_lt_iff in Hc.
    - discriminate. }
  assert (Hd : d1 = 53) by lia.
  unfold SF64div, SFdiv, SFdiv_core_binary. cbn [xorb].
  change (Zdigits2 (Zpos mx)) with d1.
  change (Zdigits2 (Zpos five_mantissa)) with 53.
  set (e' := Z.min (fexp prec emax (d1 + ex - (53 + -50))) (ex - -50)).
  set (s := ex - -50 - e').
  assert (He' : e' = ex - 3).
  { unfold e', fexp, SpecFloat.emin, prec, emax. lia. }
  assert (Hs : s = 53) by (unfold s; lia).
  rewrite (shifted_mantissa (Zpos mx) s ltac:(lia)).
  assert (Hq : fst (Z.div_eucl (Zpos mx * 2 ^ s) (Zpos five_mantissa))
               = Zpos mx * 2 ^ s / Zpos five_mantissa) by reflexivity.
  destruct (Z.div_eucl (Zpos mx * 2 ^ s) (Zpos five_mantissa)) as [q r].
  cbn [fst] in Hq. rewrite Hs, five_mantissa_value in Hq.
  rewrite five_mantissa_value in Hcases.
  change (2 ^ 53) with (8 * 2 ^ 50) in Hq.
  change (2 ^ (53 - 1)) with (4 * 2 ^ 50) in Hdlo. rewrite Hd in Hdlo.
  change (2 ^ (53 - 1)) with (4 * 2 ^ 50) in Hdlo.
  assert (Hu : 0 < 2 ^ 50) by lia.
  apply binary_round_aux_half.
  - rewrite Hq. apply Z.div_str_pos. nia.
  - intros Hneg. rewrite Hq, He'.
    apply Z.div_le_lower_bound; [lia|].
    destruct Hcases as [Hex | [-> Hmx]].
    + (* the exponent of the quotient is at least -53 *)
      assert (2 ^ (- (ex - 3) - 1) <= 2 ^ 52) by (apply Z.pow_le_mono_r; lia).
      change (2 ^ 52) with (4 * 2 ^ 50) in *. nia.
    + change (2 ^ (- (-51 - 3) - 1)) with (8 * 2 ^ 50). nia.
Qed.

(** From 2.5 on, and as long as the fifth is of ordinary size, the display
    price is five times a positive integer. *)
Lemma newPrice_positive (okPrice markup : float) :
  (2.5 <=? okPrice * markup)%float = true ->
  (okPrice * markup / 5 <? 0x1p50)%float = true ->
  exists n : Z,
    1 <= n <= 2 ^ 50
    /\ GoFloat.int_of_float64 (GoFloat.Round (okPrice * markup / 5)) = n
    /\ newPrice_of okPrice markup = 5 * n.
Proof.
  intros Hge Hhi.
  set (x := (okPrice * markup)%float) in *.
  set (y := (x / 5)%float) in *.
  rewrite FloatAxioms.leb_spec in Hge.
  replace (Prim2SF 2.5) with (S754_finite false five_mantissa (-51)) in Hge by reflexivity.
  pose proof (FloatAxioms.Prim2SF_valid x) as Hvx.
  pose proof (FloatAxioms.Prim2SF_valid y) as Hvy.
  assert (Hy : Prim2SF y = SF64div (Prim2SF x) (S754_finite false five_mantissa (-50))).
  { unfold y. rewrite FloatAxioms.div_spec. reflexivity. }
  pose proof Hhi as Hhi'. rewrite FloatAxioms.ltb_spec in Hhi'.
  replace (Prim2SF 0x1p50) with (S754_finite false 4503599627370496 (-2)) in Hhi'
    by reflexivity.
  destruct (Prim2SF x) as [sx|sx| |sx mx ex] eqn:Hx;
    try (cbv beta iota delta [SFleb SFcompare] in Hge; discriminate).
  - (* an infinity *)
    destruct sx; [cbv beta iota delta [SFleb SFcompare] in Hge; discriminate|].
    rewrite Hy in Hhi'. cbv in Hhi'. discriminate.
  - destruct sx; [cbv beta iota delta [SFleb SFcompare] in Hge; discriminate|].
    pose proof (SFdiv5_at_least_half mx ex Hvx Hge) as Hhalf.
    rewrite <- Hy in Hhalf.
    destruct (Prim2SF y) as [sy|sy| |sy my ey] eqn:Hysf; try contradiction.
    + subst sy. cbv in Hhi'. discriminate.
    + destruct Hhalf as [-> Hhalf].
      assert (Hlo : (-0x1p50 <? y)%float = true).
      { rewrite FloatAxioms.ltb_spec, Hysf. reflexivity. }
      destruct (newPrice_rounded okPrice markup Hlo Hhi) as [Hnew Habs].
      fold x y in Hnew, Habs.
      assert (Hlo' : SFltb (S754_finite true 4503599627370496 (-2))
                       (S754_finite false my ey) = true) by reflexivity.
      destruct (Round_bounded false my ey Hvy Hlo' Hhi') as [Hey Hn].
      rewrite (Round_fraction y false my ey Hysf Hey) in Hnew |- *. cbn zeta in Hnew |- *.
      set (n := (Zpos my + 2 ^ (- ey - 1)) / 2 ^ (- ey)) in *.
      assert (Hn1 : 1 <= n).
      { unfold n. apply Z.div_le_lower_bound; [apply Z.pow_pos_nonneg; lia|].
        specialize (Hhalf Hey).
        replace (- ey) with (1 + (- ey - 1)) at 1 by lia.
        rewrite Z.pow_add_r by lia. change (2 ^ 1) with 2. lia. }
      replace (n =? 0) with false in Hnew |- * by (symmetry; apply Z.eqb_neq; lia).
      cbn [cond_Zopp] in Hnew |- *.
      rewrite int_of_float64_of_int in Hnew |- * by lia.
      exists n. split; [lia|]. split; [reflexivity | exact Hnew].
Qed.

(** X23: a product [okPrice * markup] of at least 2.5 gives a display price
    that is not zero.  When [okPrice * markup] is at least 2.5 and its fifth
    is below [2^50], [calculateNewPriceAndDiscount] computes a display price
    between 5 and [5 * 2^50], so the discount divides by a number that is not
    zero. *)
Theorem newPrice_at_least_five (okPrice markup : float) :
  (2.5 <=? okPrice * markup)%float = true ->
  (okPrice * markup / 5 <? 0x1p50)%float = true ->
  5 <= newPrice_of okPrice markup <= 5 * 2 ^ 50.
Proof.
  intros Hge Hhi.
  destruct (newPrice_positive okPrice markup Hge Hhi) as (n & Hn & _ & ->). lia.
Qed.

Lemma newPrice_at_least_five_witness :
  newPrice_of 2 1.3 = 5 /\ 5 <= newPrice_of 2 1.3 <= 5 * 2 ^ 50.
Proof.
  split; [vm_compute; reflexivity|].
  apply (newPrice_at_least_five 2 1.3); vm_compute; reflexivity.
Defined.

(** ** The display price and the discount *)

(** The fifth of a float that is not below zero is not below zero. *)
Lemma fifth_above (x : float) :
  match Prim2SF x with
  | S754_zero _ => True
  | S754_infinity s | S754_finite s _ _ => s = false
  | S754_nan => False
  end ->
  (x / 5 <? 0x1p50)%float = true ->
  (-0x1p50 <? x / 5)%float = true.
Proof.
  rewrite !FloatAxioms.ltb_spec, FloatAxioms.div_spec.
  replace (Prim2SF 5) with (S754_finite false five_mantissa (-50)) by reflexivity.
  replace (Prim2SF 0x1p50) with (S754_finite false 4503599627370496 (-2)) by reflexivity.
  replace (Prim2SF (-0x1p50)) with (S754_finite true 4503599627370496 (-2)) by reflexivity.
  unfold SF64div.
  destruct (Prim2SF x) as [s|s| |s mx ex]; intros Hx; try contradiction.
  - intros _. reflexivity.
  - subst s. intros H. cbv in H. discriminate.
  - subst s. cbn [SFdiv xorb].
    pose proof (SFdiv_core_binary_nonneg mx ex five_mantissa (-50)) as Hq.
    destruct (SFdiv_core_binary prec emax (Zpos mx) ex (Zpos five_mantissa) (-50))
      as [[mz ez] lz].
    cbn [fst] in Hq.
    pose proof (binary_round_aux_sign false mz ez lz Hq) as Hsign.
    destruct (binary_round_aux prec emax false mz ez lz) as [s|s| |s mq eq];
      try contradiction; subst s; intros H; reflexivity.
Qed.




(** ** The range of the markup *)

(** Rounding does not cross a float above the value: a mantissa below
    [B * 2^eB] rounds to at most [B * 2^eB]. *)
Lemma binary_round_aux_le (m e B eB : Z) (l : location) :
  0 < m -> e <= eB -> -1074 <= eB <= 971 -> 0 < B < 2 ^ 53 ->
  m < B * 2 ^ (eB - e) ->
  match binary_round_aux prec emax false m e l with
  | S754_zero s => s = false
  | S754_finite s m' e' =>
      s = false /\ e <= e' <= eB /\ Zpos m' * 2 ^ (e' - e) <= B * 2 ^ (eB - e)
  | _ => False
  end.
Proof.
  intros Hm He HeB HB Hlt. unfold binary_round_aux.
  destruct (shr_fexp_spec m e l ltac:(lia)) as [Hm1 He1].
  set (n := Z.max 0 (fexp prec emax (Zdigits2 m + e) - e)) in *.
  assert (Hpow : forall k, 0 <= k -> 0 < 2 ^ k) by (intros; apply Z.pow_pos_nonneg; lia).
  assert (Hd : Zdigits2 m <= 53 + eB - e).
  { apply Zdigits2_le; [|lia]. split; [lia|].
    pose proof (Hpow (eB - e) ltac:(lia)).
    replace (53 + eB - e) with (53 + (eB - e)) by lia. rewrite Z.pow_add_r by lia. nia. }
  assert (Hn : 0 <= n <= eB - e) by (unfold n, fexp, SpecFloat.emin, prec, emax; lia).
  destruct (shr_fexp prec emax m e l) as [mrs1 e1]. cbn [fst snd] in Hm1, He1.
  set (Bq := B * 2 ^ (eB - e - n)).
  assert (HBq : B * 2 ^ (eB - e) = Bq * 2 ^ n).
  { unfold Bq. replace (eB - e) with ((eB - e - n) + n) at 1 by lia.
    rewrite Z.pow_add_r by lia. lia. }
  pose proof (Hpow n ltac:(lia)) as Hpn.
  pose proof (Hpow (eB - e - n) ltac:(lia)) as Hpq.
  assert (Hm1lt : shr_m mrs1 < Bq).
  { rewrite Hm1. apply Z.div_lt_upper_bound; [lia|]. rewrite Z.mul_comm. lia. }
  assert (Hm1pos : 0 <= shr_m mrs1) by (rewrite Hm1; apply Z.div_pos; lia).
  pose proof (round_nearest_even_bounds (shr_m mrs1) (loc_of_shr_record mrs1)) as Hr.
  set (m1' := round_nearest_even (shr_m mrs1) (loc_of_shr_record mrs1)) in *.
  destruct (shr_fexp_spec m1' e1 loc_Exact ltac:(lia)) as [Hm2 He2].
  set (n2 := Z.max 0 (fexp prec emax (Zdigits2 m1' + e1) - e1)) in *.
  assert (Hd2 : Zdigits2 m1' <= 53 + eB - e1).
  { apply Zdigits2_le; [|lia]. split; [lia|].
    replace (53 + eB - e1) with (53 + (eB - e - n)) by lia.
    rewrite Z.pow_add_r by lia. unfold Bq in *. nia. }
  assert (Hn2 : 0 <= n2 <= eB - e1) by (unfold n2, fexp, SpecFloat.emin, prec, emax; lia).
  destruct (shr_fexp prec emax m1' e1 loc_Exact) as [mrs2 e2]. cbn [fst snd] in Hm2, He2.
  pose proof (Hpow n2 ltac:(lia)) as Hpn2.
  destruct (shr_m mrs2) as [|m2|m2] eqn:Hshr; [reflexivity| |].
  - replace (e2 <=? emax - prec) with true
      by (symmetry; apply Z.leb_le; unfold emax, prec; lia).
    split; [reflexivity|]. split; [lia|].
    assert (Hfloor : Zpos m2 * 2 ^ n2 <= m1').
    { rewrite Hm2, Z.mul_comm. apply Z.mul_div_le. lia. }
    replace (e2 - e) with (n2 + n) by lia. rewrite Z.pow_add_r by lia.
    rewrite HBq. nia.
  - assert (0 <= m1' / 2 ^ n2) by (apply Z.div_pos; lia). lia.
Qed.

(** A sample of [[0, 1)] times [0.2] is a zero or a float of at most
    [0.2]. *)
Lemma sample_times_fifth (r : spec_float) :
  valid_binary r = true ->
  SFleb (S754_zero false) r = true ->
  SFltb r (S754_finite false 4503599627370496 (-52)) = true ->
  match SF64mul r (S754_finite false fifth_mantissa (-55)) with
  | S754_zero _ => True
  | S754_finite s mt et =>
      s = false /\ et <= -55 /\ Zpos mt <= Zpos fifth_mantissa * 2 ^ (- 55 - et)
  | _ => False
  end.
Proof.
  intros Hvalid H0 H1. unfold SF64mul.
  destruct r as [s|s| |s mr er]; cbn [SFmul]; try exact I.
  - destruct s; discriminate.
  - discriminate.
  - destruct s; [discriminate|]. cbn [xorb].
    pose proof (valid_mantissa false mr er Hvalid) as Hmr.
    assert (Hcases : er < -52 \/ (er = -52 /\ Zpos mr < 2 ^ 52)).
    { unfold SFltb, SFcompare in H1. destruct (er ?= -52) eqn:Hc; try discriminate.
      - apply Z.compare_eq in Hc. right. split; [assumption|].
        destruct (Pos.compare_cont Eq mr 4503599627370496) eqn:Hp; try discriminate.
        assert (Hp' : Pos.compare mr 4503599627370496 = Lt) by exact Hp.
        apply Pos.compare_lt_iff in Hp'. apply Pos2Z.pos_lt_pos in Hp'.
        change (Zpos 4503599627370496) with (2 ^ 52) in Hp'. exact Hp'.
      - left. now apply Z.compare_lt_iff in Hc. }
    assert (Hone : Zpos mr < 2 ^ (- er)).
    { destruct Hcases as [Hlt | [-> Hm]]; [|exact Hm].
      assert (2 ^ 53 <= 2 ^ (- er)) by (apply Z.pow_le_mono_r; lia). lia. }
    assert (Hfifth : 0 < Zpos fifth_mantissa < 2 ^ 53) by (split; [lia | reflexivity]).
    pose proof (binary_round_aux_le (Zpos (mr * fifth_mantissa)) (er + -55)
                  (Zpos fifth_mantissa) (-55) loc_Exact
                  ltac:(lia) ltac:(lia) ltac:(lia) Hfifth) as Hround.
    replace (-55 - (er + -55)) with (- er) in Hround by lia.
    assert (Hprod : Zpos (mr * fifth_mantissa) < Zpos fifth_mantissa * 2 ^ (- er)).
    { rewrite Pos2Z.inj_mul. nia. }
    specialize (Hround Hprod).
    destruct (binary_round_aux prec emax false (Zpos (mr * fifth_mantissa)) (er + -55)
                loc_Exact) as [s'|s'| |s' mt et]; try exact I; try contradiction.
    destruct Hround as (-> & [Hlo Hhi] & Hval).
    split; [reflexivity|]. split; [assumption|].
    assert (Hp : 0 < 2 ^ (et - (er + -55))) by (apply Z.pow_pos_nonneg; lia).
    replace (- er) with ((- 55 - et) + (et - (er + -55))) in Hval by lia.
    rewrite Z.pow_add_r in Hval by lia. nia.
Qed.

Lemma iter_pos_nat {A : Type} (f : A -> A) (p : positive) :
  forall x : A, SpecFloat.iter_pos f p x = Nat.iter (Pos.to_nat p) f x.
Proof.
  induction p as [p IH|p IH|]; intros x; cbn [SpecFloat.iter_pos].
  - rewrite !IH, Pos2Nat.inj_xI.
    replace (S (2 * Pos.to_nat p)) with (Pos.to_nat p + (Pos.to_nat p + 1))%nat by lia.
    now rewrite !Nat.iter_add.
  - rewrite !IH, Pos2Nat.inj_xO.
    replace (2 * Pos.to_nat p)%nat with (Pos.to_nat p + Pos.to_nat p)%nat by lia.
    now rewrite Nat.iter_add.
  - reflexivity.
Qed.

Lemma shr_1_round (mrs : shr_record) :
  0 <= shr_m mrs -> shr_r (shr_1 mrs) = Z.odd (shr_m mrs).
Proof. destruct mrs as [[|[p|p|]|p] r s]; cbn [shr_m]; intros H; try reflexivity; lia. Qed.

Lemma nat_iter_shr_1_m (k : nat) (mrs : shr_record) :
  0 <= shr_m mrs ->
  shr_m (Nat.iter k shr_1 mrs) = shr_m mrs / 2 ^ Z.of_nat k.
Proof.
  intros Hm. induction k as [|k IH].
  - change (Nat.iter 0 shr_1 mrs) with mrs. change (2 ^ Z.of_nat 0) with 1.
    now rewrite Z.div_1_r.
  - rewrite Nat.iter_succ, shr_1_m.
    + rewrite Z.div2_div, IH, Z.div_div by lia.
      rewrite Nat2Z.inj_succ, Z.pow_succ_r by lia. f_equal. lia.
    + rewrite IH. apply Z.div_pos; [assumption|]. apply Z.pow_pos_nonneg; lia.
Qed.

(** The round bit after a shift is the last bit shifted out. *)
Lemma iter_shr_1_round (p : positive) (mrs : shr_record) :
  0 <= shr_m mrs ->
  shr_r (SpecFloat.iter_pos shr_1 p mrs) = Z.odd (shr_m mrs / 2 ^ (Zpos p - 1)).
Proof.
  intros Hm. rewrite iter_pos_nat.
  destruct (Pos2Nat.is_succ p) as [k Hk]. rewrite Hk, Nat.iter_succ.
  assert (Hp : Z.of_nat k = Zpos p - 1).
  { rewrite <- (positive_nat_Z p), Hk, Nat2Z.inj_succ. lia. }
  rewrite shr_1_round.
  - rewrite nat_iter_shr_1_m by assumption. now rewrite Hp.
  - rewrite nat_iter_shr_1_m by assumption.
    apply Z.div_pos; [assumption|]. apply Z.pow_pos_nonneg; lia.
Qed.

Lemma round_down (mrs : shr_record) :
  shr_r mrs = false -> round_nearest_even (shr_m mrs) (loc_of_shr_record mrs) = shr_m mrs.
Proof. destruct mrs as [m [|] [|]]; cbn; intros H; try discriminate; reflexivity. Qed.

Lemma shl_align_spec (mx : positive) (ex ex' : Z) :
  ex' <= ex ->
  Zpos (fst (shl_align mx ex ex')) = Zpos mx * 2 ^ (ex - ex')
  /\ snd (shl_align mx ex ex') = ex'.
Proof.
  intros Hle. unfold shl_align. destruct (ex' - ex) as [|d|d] eqn:Hd; try lia; cbn [fst snd].
  - replace (ex - ex') with 0 by lia. split; lia.
  - change (Pos.iter xO mx d) with (shift_pos d mx). rewrite shift_pos_correct.
    change (Z.pow_pos 2 d) with (2 ^ Zpos d). replace (ex - ex') with (Zpos d) by lia.
    split; [lia | reflexivity].
Qed.

Lemma shl_align_id (mx : positive) (ex ex' : Z) :
  ex <= ex' -> shl_align mx ex ex' = (mx, ex).
Proof. intros Hle. unfold shl_align. destruct (ex' - ex) eqn:Hd; try reflexivity; lia. Qed.

(** [1.3] plus a float of at most [0.2] lies between [1.3] and [1.5]: the sum
    exceeds [1.5] by a quarter of a unit in the last place at most, and is
    rounded down to it. *)
Lemma markup_sum (mt : positive) (et : Z) :
  et <= -55 ->
  Zpos mt <= Zpos fifth_mantissa * 2 ^ (- 55 - et) ->
  exists m' : positive,
    SF64add (S754_finite false markup_low (-52)) (S754_finite false mt et)
    = S754_finite false m' (-52)
    /\ Zpos markup_low <= Zpos m' <= Zpos markup_high.
Proof.
  intros Het Hmt.
  assert (Hlow : Zpos markup_low = 5854679515581645) by reflexivity.
  assert (Hhigh : Zpos markup_high = 6755399441055744) by reflexivity.
  assert (Hfifth : Zpos fifth_mantissa = 7205759403792794) by reflexivity.
  assert (H52 : 2 ^ 52 = 4503599627370496) by reflexivity.
  assert (H53 : 2 ^ 53 = 9007199254740992) by reflexivity.
  set (n := - 52 - et).
  assert (Hn : 3 <= n) by (unfold n; lia).
  assert (Hpn : 0 < 2 ^ (n - 3)) by (apply Z.pow_pos_nonneg; lia).
  assert (Hn3 : 2 ^ n = 8 * 2 ^ (n - 3)).
  { replace n with (3 + (n - 3)) at 1 by lia. now rewrite Z.pow_add_r by lia. }
  assert (Hn2 : 2 ^ (n - 2) = 2 * 2 ^ (n - 3)).
  { replace (n - 2) with (1 + (n - 3)) by lia. now rewrite Z.pow_add_r by lia. }
  assert (Hn1 : 2 ^ (n - 1) = 4 * 2 ^ (n - 3)).
  { replace (n - 1) with (2 + (n - 3)) by lia. now rewrite Z.pow_add_r by lia. }
  replace (- 55 - et) with (n - 3) in Hmt by (unfold n; lia).
  (* the sum of the aligned mantissas *)
  unfold SF64add, SFadd. replace (Z.min (-52) et) with et by lia.
  destruct (shl_align_spec markup_low (-52) et ltac:(lia)) as [Ha _].
  destruct (shl_align_spec mt et et ltac:(lia)) as [Hb _].
  replace (-52 - et) with n in Ha by reflexivity.
  replace (et - et) with 0 in Hb by lia. rewrite Z.pow_0_r, Z.mul_1_r in Hb.
  set (a := fst (shl_align markup_low (-52) et)) in *.
  set (b := fst (shl_align mt et et)) in *.
  cbn [cond_Zopp]. change (Zpos a + Zpos b) with (Zpos (a + b)).
  cbn [binary_normalize].
  set (M := (a + b)%positive).
  assert (HM : Zpos M = Zpos markup_low * 2 ^ n + Zpos mt).
  { unfold M. rewrite Pos2Z.inj_add. lia. }
  assert (HMlo : Zpos markup_low * 2 ^ n <= Zpos M) by lia.
  assert (HMhi : Zpos M <= Zpos markup_high * 2 ^ n + 2 ^ (n - 2)) by lia.
  assert (HdM : Zdigits2 (Zpos M) = 53 + n).
  { apply Zdigits2_unique; [|lia]. replace (53 + n - 1) with (52 + n) by lia.
    rewrite !Z.pow_add_r by lia. lia. }
  (* no alignment is needed before rounding *)
  unfold binary_round. change (Zpos (digits2_pos M)) with (Zdigits2 (Zpos M)).
  rewrite HdM.
  replace (fexp prec emax (53 + n + et)) with (-52)
    by (unfold fexp, SpecFloat.emin, prec, emax, n; lia).
  rewrite shl_align_id by lia.
  (* the shift by [n] bits *)
  unfold binary_round_aux, shr_fexp. rewrite HdM.
  replace (fexp prec emax (53 + n + et) - et) with n
    by (unfold fexp, SpecFloat.emin, prec, emax, n; lia).
  cbn [shr_record_of_loc]. unfold shr.
  destruct n as [|pn|pn] eqn:Hpn'; try lia.
  set (start := {| shr_m := Zpos M; shr_r := false; shr_s := false |}).
  pose proof (iter_shr_1_m pn start ltac:(cbn; lia)) as Hm1.
  pose proof (iter_shr_1_round pn start ltac:(cbn; lia)) as Hr1.
  cbn [shr_m start] in Hm1, Hr1. fold start in Hm1, Hr1.
  set (mrs1 := SpecFloat.iter_pos shr_1 pn start) in *.
  assert (Hp2 : 0 < 2 ^ Zpos pn) by lia.
  assert (Hm1lo : Zpos markup_low <= shr_m mrs1).
  { rewrite Hm1. apply Z.div_le_lower_bound; lia. }
  assert (Hm1hi : shr_m mrs1 <= Zpos markup_high).
  { rewrite Hm1. apply Z.lt_succ_r. apply Z.div_lt_upper_bound; lia. }
  pose proof (round_nearest_even_bounds (shr_m mrs1) (loc_of_shr_record mrs1)) as Hround.
  assert (Hup : round_nearest_even (shr_m mrs1) (loc_of_shr_record mrs1)
                <= Zpos markup_high).
  { destruct (Z.eq_dec (shr_m mrs1) (Zpos markup_high)) as [Heq | Hne]; [|lia].
    rewrite round_down; [lia|]. rewrite Hr1.
    assert (HMeq : Zpos M / 2 ^ (Zpos pn - 1) = 2 * Zpos markup_high).
    { symmetry. apply (Z.div_unique _ _ _ (Zpos M - 2 * Zpos markup_high * 2 ^ (Zpos pn - 1)));
        [|lia].
      left. split; [|lia].
      assert (Zpos markup_high * 2 ^ Zpos pn <= Zpos M); [|lia].
      rewrite <- Heq, Hm1, Z.mul_comm. apply Z.mul_div_le. lia. }
    rewrite HMeq. rewrite Z.odd_mul. reflexivity. }
  set (m1' := round_nearest_even (shr_m mrs1) (loc_of_shr_record mrs1)) in *.
  replace (et + Zpos pn) with (-52) by lia.
  destruct m1' as [|p'|p'] eqn:Hm1'; try lia.
  assert (Hd' : Zdigits2 (Zpos p') = 53) by (apply Zdigits2_unique; lia).
  rewrite Hd'.
  replace (fexp prec emax (53 + -52) - -52) with 0 by reflexivity.
  cbn [shr_record_of_loc shr_m].
  exists p'. split; [reflexivity | lia].
Qed.

Lemma SFleb_same_exponent (a b : positive) (e : Z) :
  Zpos a <= Zpos b -> SFleb (S754_finite false a e) (S754_finite false b e) = true.
Proof.
  intros Hab. unfold SFleb, SFcompare. rewrite Z.compare_refl.
  change (Pos.compare_cont Eq a b) with (Pos.compare a b).
  destruct (Pos.compare_spec a b) as [Heq | Hlt | Hgt]; try reflexivity.
  apply Pos2Z.pos_lt_pos in Hgt. lia.
Qed.

Lemma markup_SF_range (r : spec_float) :
  valid_binary r = true ->
  SFleb (S754_zero false) r = true ->
  SFltb r (S754_finite false 4503599627370496 (-52)) = true ->
  let m := SF64add (S754_finite false markup_low (-52))
             (SF64mul r (S754_finite false fifth_mantissa (-55))) in
  SFleb (S754_finite false markup_low (-52)) m = true
  /\ SFleb m (S754_finite false markup_high (-52)) = true.
Proof.
  intros Hvalid H0 H1.
  assert (Hends : Zpos markup_low <= Zpos markup_high) by (unfold markup_low, markup_high; lia).
  pose proof (sample_times_fifth r Hvalid H0 H1) as Ht.
  destruct (SF64mul r (S754_finite false fifth_mantissa (-55))) as [s|s| |s mt et];
    try contradiction; cbn zeta.
  - unfold SF64add. cbn [SFadd]. split; apply SFleb_same_exponent; lia.
  - destruct Ht as (-> & Het & Hmt).
    destruct (markup_sum mt et Het Hmt) as (m' & -> & Hlo & Hhi).
    split; apply SFleb_same_exponent; lia.
Qed.

(** X21: the markup [1.3 + rand.Float64() * 0.2] lies between 1.3 and 1.5, both
    included, for every sample of [[0, 1)], as the comment in the code
    says: it is 1.3 for the sample 0 and it is 1.5, after rounding, for the
    largest sample below 1. *)
Theorem markup_range (r : float) :
  (0 <=? r)%float = true ->
  (r <? 1)%float = true ->
  (1.3 <=? markup_of r)%float = true
  /\ (markup_of r <=? 1.5)%float = true
  /\ markup_of 0 = 1.3%float
  /\ markup_of 0x1.fffffffffffffp-1 = 1.5%float.
Proof.
  intros H0 H1.
  rewrite FloatAxioms.leb_spec in H0. rewrite FloatAxioms.ltb_spec in H1.
  replace (Prim2SF 0) with (S754_zero false) in H0 by reflexivity.
  replace (Prim2SF 1) with (S754_finite false 4503599627370496 (-52)) in H1 by reflexivity.
  destruct (markup_SF_range (Prim2SF r) (FloatAxioms.Prim2SF_valid r) H0 H1) as [Hlo Hhi].
  unfold markup_of.
  rewrite !FloatAxioms.leb_spec, FloatAxioms.add_spec, FloatAxioms.mul_spec.
  replace (Prim2SF 1.3) with (S754_finite false markup_low (-52)) by reflexivity.
  replace (Prim2SF 0.2) with (S754_finite false fifth_mantissa (-55)) by reflexivity.
  replace (Prim2SF 1.5) with (S754_finite false markup_high (-52)) by reflexivity.
  split; [exact Hlo|]. split; [exact Hhi|].
  split; vm_compute; reflexivity.
Qed.

Lemma markup_range_witness :
  (1.3 <=? markup_of 0.5)%float = true /\ (markup_of 0.5 <=? 1.5)%float = true.
Proof.
  destruct (markup_range 0.5) as (Hlo & Hhi & _).
  - vm_compute. reflexivity.
  - vm_compute. reflexivity.
  - split; [exact Hlo | exact Hhi].
Defined.

(** ** The store count over a run *)

Section StoreCounts.

Context {World : Type}.
Variable chromedp_Run : World -> string -> option (string * Z) * World.
Variable TrimSpace : string -> string.
Variable rand_Float64 : World -> float * World.
Variable ParseFloat : string -> option float.

(** The count that the browser evaluates is stored in an [int]. *)
Hypothesis count_is_int :
  forall w url text n w',
    chromedp_Run w url = (Some (text, n), w') -> GoInt.in_range n = true.

#[local] Abbreviation scrape := (Scrape.scrapeProductData chromedp_Run TrimSpace).
#[local] Abbreviation kept := (counts_kept chromedp_Run).

Lemma scrape_count (w w' : World) (url : string) (productData : gmap string string) :
  scrape w url = (Some productData, w') -> count_printed chromedp_Run productData.
Proof.
  unfold Scrape.scrapeProductData.
  destruct (chromedp_Run w url) as [[[text n]|] w1] eqn:Hrun; [|discriminate].
  intros [= <- <-]. exists n. split.
  - split; [now apply (count_is_int w url text n w1)|]. now exists w, url, text, w1.
  - rewrite lookup_insert_ne by discriminate. apply lookup_insert_eq.
Qed.

Lemma fetch_counts (st st' : State World) (productID : string)
    (answer : option (gmap string string)) :
  fetchProductData scrape st productID = (answer, st') ->
  kept st ->
  kept st'
  /\ match answer with
     | Some productData => count_printed chromedp_Run productData
     | None => True
     end.
Proof.
  intros Hf (Hcache & Hlog & Hdb).
  pose proof (fetch_cases scrape st productID) as Hc. cbn zeta in Hc.
  destruct (st_cache st !! productID) as [d0|] eqn:Hlook.
  - rewrite Hc in Hf. injection Hf as <- <-. split; [|now apply (Hcache productID)].
    split; [exact Hcache|]. split; [|exact Hdb].
    intros p Hin. cbn [say st_log] in Hin. apply in_app_or in Hin as [Hin | [Hin | []]].
    + now apply (Hlog p).
    + discriminate.
  - destruct (scrape (st_world st) (baseURL ++ productID ++ "/")%string)
      as [[d1|] w] eqn:Hs; rewrite Hc in Hf; injection Hf as <- <-.
    + pose proof (scrape_count _ _ _ _ Hs) as Hd1. split; [|exact Hd1].
      split; [|split; [|exact Hdb]]; cbn [st_cache st_log].
      * intros p d Hp. destruct (decide (p = productID)) as [-> | Hne].
        -- rewrite lookup_insert_eq in Hp. now injection Hp as <-.
        -- rewrite lookup_insert_ne in Hp by congruence. now apply (Hcache p).
      * intros p Hin. apply in_app_or in Hin as [Hin | [Hin | []]].
        -- now apply (Hlog p).
        -- discriminate.
    + split; [|exact I]. split; [exact Hcache|]. split; [|exact Hdb]. cbn [st_log].
      intros p Hin. apply in_app_or in Hin as [Hin | [Hin | [Hin | []]]].
      * now apply (Hlog p).
      * discriminate.
      * discriminate.
Qed.

Section Loop.

Variable cfg : Config.
Variable base liter : float.
Variable prices : list Product.
Variable commissionRate : Z.
Variable skuMap : gmap Z (list string).
Variable vendorCodePattern : Regexp.t.

#[local] Abbreviation body :=
  (processCard scrape rand_Float64 ParseFloat cfg base liter prices commissionRate
     skuMap vendorCodePattern).
#[local] Abbreviation run :=
  (processCards scrape rand_Float64 ParseFloat cfg base liter prices
     commissionRate skuMap vendorCodePattern).
#[local] Abbreviation decode := (decodeVendorCode vendorCodePattern (UsePcs cfg) skuMap).

Lemma priceAndSave_counts (st : State World) (card : Card) (productID : string)
    (pcsInt : Z) (sku : string) (productData : gmap string string) :
  GoInt.in_range pcsInt = true ->
  count_printed chromedp_Run productData ->
  kept st ->
  kept (priceAndSave rand_Float64 ParseFloat cfg base liter prices commissionRate
          st card productID pcsInt sku productData).
Proof.
  intros Hrange (n & Hn & Hprinted) (Hcache & Hlog & Hdb).
  destruct (priceAndSave_cases rand_Float64 ParseFloat cfg base liter prices
              commissionRate st card productID pcsInt sku productData Hrange)
    as [[_ ->] | (price & _ & [(e & _ & ->) | (okPrice & _ & ->)])].
  - split; [exact Hcache|]. split; [|exact Hdb]. cbn [say st_log].
    intros p Hin. apply in_app_or in Hin as [Hin | [Hin | []]];
      [now apply (Hlog p) | discriminate].
  - split; [exact Hcache|]. split; [|exact Hdb]. cbn [say st_log].
    intros p Hin. apply in_app_or in Hin as [Hin | [Hin | []]]; [|discriminate].
    apply in_app_or in Hin as [Hin | [Hin | []]]; [now apply (Hlog p) | discriminate].
  - set (params := mkParams prices card pcsInt productID productData _ _ _ okPrice).
    assert (Hstr : AvailableCountStr params = GoStr.Sprintf_d n).
    { unfold params, mkParams.
      destruct (lookupPrices prices (Card_VendorCode card)) as [[p1 p2] p3].
      cbn [AvailableCountStr]. now rewrite Hprinted. }
    assert (Hatoi : GoStr.Atoi (AvailableCountStr params) = Some n).
    { rewrite Hstr. apply Atoi_Sprintf_d, Hn. }
    split; [exact Hcache|]. cbn [st_log st_db]. split.
    + intros p Hin. unfold saveToDatabase_log in Hin. rewrite Hatoi in Hin.
      apply in_app_or in Hin as [Hin | Hin]; [now apply (Hlog p)|].
      cbn [app In] in Hin. destruct Hin as [Hin | [Hin | []]]; discriminate.
    + unfold saveToDatabase. apply upsert_Forall; [|exact Hdb].
      unfold row_of. rewrite Hatoi.
      now destruct (calculateNewPriceAndDiscount _ (OKPrice params)).
Qed.

Lemma body_counts (st st' : State World) (card : Card) :
  body st card = Continue st' -> kept st -> kept st'.
Proof.
  unfold processCard. intros Hb Hkept.
  destruct (decode card) as [| | |pid pcsInt sku] eqn:Hd; try discriminate.
  - injection Hb as <-. destruct Hkept as (Hcache & Hlog & Hdb).
    split; [exact Hcache|]. split; [|exact Hdb]. cbn [say st_log].
    intros p Hin. apply in_app_or in Hin as [Hin | [Hin | []]];
      [now apply (Hlog p) | discriminate].
  - injection Hb as <-. destruct Hkept as (Hcache & Hlog & Hdb).
    split; [exact Hcache|]. split; [|exact Hdb]. cbn [say st_log].
    intros p Hin. apply in_app_or in Hin as [Hin | [Hin | []]];
      [now apply (Hlog p) | discriminate].
  - destruct (fetchProductData scrape st pid) as [[productData|] st1] eqn:Hf;
      injection Hb as <-; destruct (fetch_counts _ _ _ _ Hf Hkept) as [Hkept1 Hdata].
    + apply priceAndSave_counts; try assumption.
      apply decode_accepted in Hd as (_ & _ & _ & _ & ->). apply packCount_in_range.
    + exact Hkept1.
Qed.

Lemma run_counts (cards : list Card) :
  forall st st' : State World, run st cards = Continue st' -> kept st -> kept st'.
Proof.
  induction cards as [|card rest IH]; intros st st' Hrun Hkept; cbn [processCards] in Hrun.
  - now injection Hrun as <-.
  - destruct (body st card) as [st1|fault st1] eqn:Hb; [|discriminate].
    apply (IH st1 st' Hrun). now apply (body_counts st st1 card).
Qed.

End Loop.

(** X22: in a run with the scraper of the program the store count always
    reads back, whether the run ends or panics: in the state the run leaves,
    [saveToDatabase] has not logged its conversion warning, and the
    [available_count] of every row is a number that the browser counted on
    some page. *)
Theorem Process_counts (regexp_Compile : string -> option Regexp.t) (cfg : Config)
    (base liter : float) (allCards : list Card) (prices : list Product)
    (commissions : list Commission) (w : World) :
  let st' :=
    state_of (Process scrape rand_Float64 ParseFloat regexp_Compile cfg base liter allCards
                prices commissions w) in
  (forall productID, ~ In (EvAvailableCountError productID) (st_log st'))
  /\ Forall (fun row => counted chromedp_Run (col_available_count row)) (st_db st').
Proof.
  assert (Hstart : kept {| st_cache := ∅; st_db := createTable; st_world := w;
                           st_log := [] |}).
  { split; [|split].
    - intros p d H. cbn [st_cache] in H. now rewrite lookup_empty in H.
    - intros p [].
    - constructor. }
  unfold Process. destruct (regexp_Compile (VendorCodePattern cfg)) as [re|].
  - destruct (run_state_prefix scrape rand_Float64 ParseFloat cfg base liter prices
                (commissionRate_of commissions) (extractSKUs allCards) re allCards
                {| st_cache := ∅; st_db := createTable; st_world := w; st_log := [] |})
      as (before & after & _ & Hrun).
    cbn zeta. apply (run_counts _ _ _ _ _ _ _ _ _ _ Hrun Hstart).
  - cbn zeta. apply Hstart.
Qed.

End StoreCounts.

Example BrowserSample_run :
  map (fun row => (col_product_id row, col_pcs row, col_cost row, col_available_count row))
    (st_db (state_of (BrowserSample.run [Sample.box_2; Sample.box_3])))
  = [("4821"%string, 2, 2500, 3); ("4821"%string, 3, 3750, 3)].
Proof. vm_compute. reflexivity. Qed.

(** A run that panics at its second card, after the row of the first card
    has been written with its store count. *)
Example BrowserSample_run_panic :
  exists st',
    BrowserSample.run [Sample.box_2; Sample.box_no_sku] = Panic (SKUFault "box_77_1") st'
    /\ map (fun row => (col_product_id row, col_pcs row, col_available_count row)) (st_db st')
       = [("4821"%string, 2, 3)].
Proof. eexists. split; vm_compute; reflexivity. Qed.

Lemma Process_counts_witness :
  let st' := state_of (BrowserSample.run [Sample.box_2; Sample.box_no_sku]) in
  (forall productID, ~ In (EvAvailableCountError productID) (st_log st'))
  /\ Forall (fun row => counted BrowserSample.chromedp_Run (col_available_count row))
       (st_db st').
Proof.
  apply (Process_counts BrowserSample.chromedp_Run BrowserSample.TrimSpace Sample.rand
           BrowserSample.ParseFloat) with (regexp_Compile := Regexp.Compile) (w := 0%nat)
           (commissions := Sample.commissions) (prices := []) (cfg := Sample.cfg)
           (base := 50%float) (liter := 10%float)
           (allCards := [Sample.box_2; Sample.box_no_sku]).
  intros w url text n w'. unfold BrowserSample.chromedp_Run.
  destruct (String.eqb url _); [|discriminate]. now intros [= <- <- <-].
Defined.
